(** * Verification of the text pipeline of epstein-files

    A shallow embedding of the pure text functions ([classify.py],
    [condense.py], [clean.py]), of the search resolver ([app.py]) and of the
    ingestion loop ([ingest.py]), and the theorems that settle the
    properties stated about them.

    Text model.  A Python [str] is a [list ascii]; the classification of
    characters ([isspace], [isalpha], [\w], case mapping) is the one Python
    applies to the code points below 128.  Code points from 128 on are
    carried along unchanged and belong to no class.

    Ratio tests.  The source compares a quotient of two lengths with a
    decimal constant in floating point ([letters / char_count < 0.3]).  The
    model compares the cross products of the integers
    ([10 * letters < 3 * char_count]); the two agree for every text shorter
    than 10^15 characters.

    Collaborators.  The PDF extractor ([fitz]) and the full-text engine of
    the store (FTS5) are not part of the repository: the first is a
    parameter of [ingest], the second a field of the cursor that [search]
    runs its statements on.  The tables [documents] and [pages], the
    [LIKE] statement of the fallback and the trigger that feeds the index
    are modelled on lists of rows.

    Exceptions.  A function of the source that may raise says so in its
    result: [ingest_pdf] and [condense_main] answer [None] when they
    raise, [ingest] answers the store that the run leaves and whether the
    run raised, [search] and [search_handler] answer an [outcome]. *)

From Stdlib Require Import String Ascii List Bool Arith NArith ZArith.
From Stdlib Require Import Lia Sorted.
Import ListNotations.

Set Implicit Arguments.

(** ** Python strings *)

Module Py.

Definition str := list ascii.

(** String literals of the source are written [T "..."]. *)
Definition T (s : string) : str := list_ascii_of_string s.

Definition code (c : ascii) : N := N_of_ascii c.

Definition between (lo hi : N) (c : ascii) : bool :=
  ((lo <=? code c) && (code c <=? hi))%N.

(** [str.isspace] on one character: TAB, LF, VT, FF, CR, the four
    separators FS, GS, RS, US, and the space. *)
Definition isspace (c : ascii) : bool := between 9 13 c || between 28 32 c.
Definition isdigit (c : ascii) : bool := between 48 57 c.
Definition isupper (c : ascii) : bool := between 65 90 c.
Definition islower (c : ascii) : bool := between 97 122 c.
Definition isalpha (c : ascii) : bool := isupper c || islower c.
(** The class [\w]: letters, digits and the underscore. *)
Definition isword (c : ascii) : bool :=
  isalpha c || isdigit c || (code c =? 95)%N.

Definition lower_c (c : ascii) : ascii :=
  if isupper c then ascii_of_N (code c + 32) else c.
Definition upper_c (c : ascii) : ascii :=
  if islower c then ascii_of_N (code c - 32) else c.

Definition lower (s : str) : str := map lower_c s.
Definition upper (s : str) : str := map upper_c s.

Definition eqc (a b : ascii) : bool := Ascii.eqb a b.

Fixpoint eqs (a b : str) : bool :=
  match a, b with
  | [], [] => true
  | x :: a', y :: b' => eqc x y && eqs a' b'
  | _, _ => false
  end.

Definition nl : ascii := "010"%char.

(** [len(s)] *)
Definition len (s : str) : nat := length s.

Fixpoint lstrip (s : str) : str :=
  match s with
  | c :: s' => if isspace c then lstrip s' else s
  | [] => []
  end.

Definition rstrip (s : str) : str := rev (lstrip (rev s)).

(** [s.strip()] *)
Definition strip (s : str) : str := rstrip (lstrip s).

(** [s.startswith(p)], on the rest of a string. *)
Fixpoint startswith (p s : str) : bool :=
  match p, s with
  | [], _ => true
  | x :: p', y :: s' => eqc x y && startswith p' s'
  | _ :: _, [] => false
  end.

(** [p in s] *)
Fixpoint contains (p s : str) : bool :=
  startswith p s ||
  match s with
  | [] => false
  | _ :: s' => contains p s'
  end.

(** [s.count(p)] for a non-empty [p]: occurrences from left to right that
    do not overlap.  [skip] is the number of characters still covered by
    the occurrence found last. *)
Fixpoint count_go (p : str) (skip : nat) (s : str) : nat :=
  match s with
  | [] => 0
  | _ :: s' =>
      match skip with
      | S k => count_go p k s'
      | 0 => if startswith p s then S (count_go p (length p - 1) s')
             else count_go p 0 s'
      end
  end.

Definition count (p s : str) : nat := count_go p 0 s.

(** [s.replace(old, new)] for a non-empty [old]. *)
Fixpoint replace_go (old new : str) (skip : nat) (s : str) : str :=
  match s with
  | [] => []
  | c :: s' =>
      match skip with
      | S k => replace_go old new k s'
      | 0 => if startswith old s
             then new ++ replace_go old new (length old - 1) s'
             else c :: replace_go old new 0 s'
      end
  end.

Definition replace (old new s : str) : str := replace_go old new 0 s.

Definition cons_head (c : ascii) (ps : list str) : list str :=
  match ps with
  | p :: ps' => (c :: p) :: ps'
  | [] => [[c]]
  end.

(** [s.split(sep)] for a non-empty [sep]. *)
Fixpoint split_go (sep : str) (skip : nat) (s : str) : list str :=
  match s with
  | [] => [[]]
  | c :: s' =>
      match skip with
      | S k => split_go sep k s'
      | 0 => if startswith sep s then [] :: split_go sep (length sep - 1) s'
             else cons_head c (split_go sep 0 s')
      end
  end.

Definition split (sep s : str) : list str := split_go sep 0 s.

(** [s.split()]: the maximal runs of characters that are not whitespace.
    [cur] is the run being read, last character first. *)
Fixpoint split_ws_go (cur : str) (s : str) : list str :=
  match s with
  | [] => match cur with [] => [] | _ => [rev cur] end
  | c :: s' =>
      if isspace c
      then match cur with
           | [] => split_ws_go [] s'
           | _ => rev cur :: split_ws_go [] s'
           end
      else split_ws_go (c :: cur) s'
  end.

Definition split_ws (s : str) : list str := split_ws_go [] s.

(** [sep.join(l)] *)
Fixpoint join (sep : str) (l : list str) : str :=
  match l with
  | [] => []
  | [p] => p
  | p :: l' => p ++ sep ++ join sep l'
  end.

(** [sum(1 for c in s if p(c))] *)
Definition count_if (p : ascii -> bool) (s : str) : nat :=
  length (filter p s).

End Py.

(** ** Regular expressions of Python's [re]

    A backtracking matcher in continuation-passing style, which is how
    [re] explores a pattern: alternatives in the order written, a greedy
    repetition tries one more iteration before it tries to stop, a lazy one
    tries to stop first.  A position in the subject is the character just
    before it ([prev], for [^], [\b] and look-behind) and the text that
    follows. *)

Module Re.
Import Py.

Inductive re : Type :=
| Eps                                  (* the empty pattern *)
| Chr (p : ascii -> bool)              (* one character of a class *)
| Seq (r1 r2 : re)                     (* r1 r2 *)
| Alt (r1 r2 : re)                     (* r1|r2 *)
| Opt (r : re)                         (* r? *)
| Rep (greedy : bool) (lo : nat) (r : re)   (* r{lo,} and r{lo,}? *)
| Ahead (r : re)                       (* (?=r) *)
| Behind (p : ascii -> bool)           (* (?<=[...]) on one character *)
| Bol                                  (* ^ under MULTILINE *)
| Eol                                  (* $ under MULTILINE *)
| Bos                                  (* ^ without MULTILINE *)
| Eod                                  (* $ without MULTILINE *)
| Eos                                  (* \Z *)
| Wb.                                  (* \b *)

Definition cont := option ascii -> str -> option str.

Definition wordp (c : option ascii) : bool :=
  match c with Some x => isword x | None => false end.

Definition orelse (a b : option str) : option str :=
  match a with Some x => Some x | None => b end.

(** The loop of a repetition [r{lo,}]: [body] matches one iteration, [n]
    bounds the number of iterations (each has to consume a character, so
    the length of the rest is enough), [lo] iterations are still owed. *)
Fixpoint rep_loop (body : cont -> cont) (k : cont) (greedy : bool)
  (n lo : nat) (prev : option ascii) (s : str) {struct n} : option str :=
  match n with
  | 0 => match lo with 0 => k prev s | S _ => None end
  | S n' =>
      let more :=
        body (fun p' s' =>
                if length s' <? length s
                then rep_loop body k greedy n' (pred lo) p' s'
                else None)
          prev s in
      match lo with
      | S _ => more
      | 0 => if greedy then orelse more (k prev s)
             else orelse (k prev s) more
      end
  end.

(** [rmatch r k prev s]: match [r] at the position ([prev], [s]), then go
    on with [k]; the answer is the rest of the subject after the whole
    match. *)
Fixpoint rmatch (r : re) (k : cont) (prev : option ascii) (s : str)
  : option str :=
  match r with
  | Eps => k prev s
  | Chr p =>
      match s with
      | c :: s' => if p c then k (Some c) s' else None
      | [] => None
      end
  | Seq r1 r2 => rmatch r1 (rmatch r2 k) prev s
  | Alt r1 r2 => orelse (rmatch r1 k prev s) (rmatch r2 k prev s)
  | Opt r1 => orelse (rmatch r1 k prev s) (k prev s)
  | Rep greedy lo r1 => rep_loop (rmatch r1) k greedy (length s) lo prev s
  | Ahead r1 =>
      match rmatch r1 (fun _ s' => Some s') prev s with
      | Some _ => k prev s
      | None => None
      end
  | Behind p =>
      match prev with
      | Some c => if p c then k prev s else None
      | None => None
      end
  | Bol =>
      match prev with
      | None => k prev s
      | Some c => if eqc c nl then k prev s else None
      end
  | Eol =>
      match s with
      | [] => k prev s
      | c :: _ => if eqc c nl then k prev s else None
      end
  | Bos => match prev with None => k prev s | Some _ => None end
  | Eod =>
      match s with
      | [] => k prev s
      | [c] => if eqc c nl then k prev s else None
      | _ => None
      end
  | Eos => match s with [] => k prev s | _ => None end
  | Wb =>
      if xorb (wordp prev) (wordp (hd_error s)) then k prev s else None
  end.

(** The match of [r] that starts exactly at ([prev], [s]). *)
Definition match_at (r : re) (prev : option ascii) (s : str) : option str :=
  rmatch r (fun _ s' => Some s') prev s.

(** Number of characters of the match at ([prev], [s]); [None] when there
    is no match or the match is empty (no pattern of the source matches
    the empty string). *)
Definition match_len (r : re) (prev : option ascii) (s : str) : option nat :=
  match match_at r prev s with
  | Some s' =>
      match length s - length s' with
      | 0 => None
      | S n => Some n
      end
  | None => None
  end.

(** [re.match(r, s)]: a match at the start of [s]. *)
Definition re_match (r : re) (s : str) : bool :=
  match match_at r None s with Some _ => true | None => false end.

(** [re.search(r, s)]: a match at some position of [s]. *)
Fixpoint search_go (r : re) (prev : option ascii) (s : str) : bool :=
  match match_at r prev s with
  | Some _ => true
  | None =>
      match s with
      | [] => false
      | c :: s' => search_go r (Some c) s'
      end
  end.

Definition re_search (r : re) (s : str) : bool := search_go r None s.

(** [re.sub(r, repl, s)]: every match, from left to right and without
    overlap, is replaced by [repl].  [skip] counts the characters of the
    current match that are still to pass. *)
Fixpoint sub_go (r : re) (repl : str) (skip : nat) (prev : option ascii)
  (s : str) : str :=
  match s with
  | [] => []
  | c :: s' =>
      match skip with
      | S k => sub_go r repl k (Some c) s'
      | 0 =>
          match match_len r prev s with
          | Some n => repl ++ sub_go r repl n (Some c) s'
          | None => c :: sub_go r repl 0 (Some c) s'
          end
      end
  end.

Definition re_sub (r : re) (repl s : str) : str := sub_go r repl 0 None s.

(** [len(re.findall(r, s))] *)
Fixpoint findall_go (r : re) (skip : nat) (prev : option ascii) (s : str)
  : nat :=
  match s with
  | [] => 0
  | c :: s' =>
      match skip with
      | S k => findall_go r k (Some c) s'
      | 0 =>
          match match_len r prev s with
          | Some n => S (findall_go r n (Some c) s')
          | None => findall_go r 0 (Some c) s'
          end
      end
  end.

Definition findall_count (r : re) (s : str) : nat := findall_go r 0 None s.

(** *** Pattern syntax *)

Definition ch (c : ascii) : ascii -> bool := eqc c.
(** A letter under the flag [(?i)]. *)
Definition chi (c : ascii) : ascii -> bool :=
  fun x => eqc (lower_c c) (lower_c x).
Definition any : ascii -> bool := fun _ => true.          (* . under DOTALL *)
Definition dot : ascii -> bool := fun x => negb (eqc x nl). (* . *)
Definition oneof (l : string) : ascii -> bool :=
  fun x => existsb (eqc x) (T l).

Fixpoint seqs (l : list re) : re :=
  match l with
  | [] => Eps
  | [r] => r
  | r :: l' => Seq r (seqs l')
  end.

Fixpoint alts (l : list re) : re :=
  match l with
  | [] => Chr (fun _ => false)
  | [r] => r
  | r :: l' => Alt r (alts l')
  end.

(** A literal, and a literal under [(?i)]. *)
Definition lit (w : string) : re := seqs (map (fun c => Chr (ch c)) (T w)).
Definition liti (w : string) : re := seqs (map (fun c => Chr (chi c)) (T w)).

Definition star (r : re) : re := Rep true 0 r.      (* r*  *)
Definition plus (r : re) : re := Rep true 1 r.      (* r+  *)
Definition lazy_star (r : re) : re := Rep false 0 r. (* r*? *)

Definition ws : re := Chr isspace.                  (* \s *)
Definition digit : re := Chr isdigit.               (* \d *)
Definition word : re := Chr isword.                 (* \w *)
Definition upperAZ : re := Chr isupper.             (* [A-Z] *)

End Re.

(** ** classify.py *)

Module Classify.
Import Py Re.
Open Scope Z_scope.

(** The running pair [(doc_type, score)] of [classify]. *)
Definition verdict : Type := (string * Z)%type.

Definition is_other (doc_type : string) : bool := String.eqb doc_type "other".

(** [r'^(from:|sent:|to:|subject:|date:)'], [re.MULTILINE] *)
Definition email_re : re :=
  Seq Bol
    (alts [lit "from:"; lit "sent:"; lit "to:"; lit "subject:"; lit "date:"]).

(** [r'\b(deposition|testimony|grand jury|Q\.\s|A\.\s|WITNESS|sworn)'] *)
Definition deposition_re : re :=
  Seq Wb (alts [lit "deposition"; lit "testimony"; lit "grand jury";
                Seq (lit "Q.") ws; Seq (lit "A.") ws; lit "WITNESS";
                lit "sworn"]).

(** [r'\b(fbi|case number|case summary|investigation|indicted|arrest|
        convicted|bureau)'], written on one line in the source *)
Definition law_re : re :=
  Seq Wb (alts [lit "fbi"; lit "case number"; lit "case summary";
                lit "investigation"; lit "indicted"; lit "arrest";
                lit "convicted"; lit "bureau"]).

(** [r'\b(court|motion|order|plaintiff|defendant|docket|filed|judge|verdict|
        sentence)'], written on one line in the source *)
Definition legal_re : re :=
  Seq Wb (alts [lit "court"; lit "motion"; lit "order"; lit "plaintiff";
                lit "defendant"; lit "docket"; lit "filed"; lit "judge";
                lit "verdict"; lit "sentence"]).

(** [r'(fax activity|call detail|call log|phone.*record)'] *)
Definition phone_re : re :=
  alts [lit "fax activity"; lit "call detail"; lit "call log";
        seqs [lit "phone"; star (Chr dot); lit "record"]].

(** [r'(evidence|property|contents|item quantity)'] *)
Definition evidence_re : re :=
  alts [lit "evidence"; lit "property"; lit "contents"; lit "item quantity"].

Definition names : list string :=
  ["epstein"; "maxwell"; "ghislaine"; "prince andrew"; "giuffre"; "roberts";
   "dershowitz"; "clinton"; "trump"; "black"; "wexner"; "brunel";
   "dubin"]%string.

(** [sum(1 for n in names if n in lower)] *)
Definition name_hits (names : list string) (lower : str) : Z :=
  Z.of_nat (length (filter (fun n => contains (T n) lower) names)).

(** The steps of [classify] on the lowered text, in the order of the
    source; each takes the pair left by the steps before it. *)

Definition step_email (lower : str) (v : verdict) : verdict :=
  if re_search email_re lower then ("email"%string, 60) else v.

Definition step_deposition (lower : str) (v : verdict) : verdict :=
  let '(doc_type, score) := v in
  if re_search deposition_re lower
  then ((if is_other doc_type then "deposition"%string else doc_type),
        Z.max score 70)
  else v.

Definition step_law (lower : str) (v : verdict) : verdict :=
  let '(doc_type, score) := v in
  if re_search law_re lower
  then ("law_enforcement"%string, Z.max score 80)
  else v.

Definition step_legal (lower : str) (v : verdict) : verdict :=
  let '(doc_type, score) := v in
  if re_search legal_re lower
  then ((if is_other doc_type then "legal"%string else doc_type),
        Z.max score 50)
  else v.

Definition step_phone (lower : str) (v : verdict) : verdict :=
  if re_search phone_re lower then ("phone_records"%string, 20) else v.

Definition is_file_listing (lower : str) : bool :=
  (3 <? count (T ".tif") lower)%nat || (3 <? count (T ".jpg") lower)%nat
  || (5 <? count (T ".pdf") lower)%nat.

Definition step_files (lower : str) (v : verdict) : verdict :=
  if is_file_listing lower then ("file_listing"%string, 10) else v.

Definition step_evidence (lower : str) (v : verdict) : verdict :=
  if re_search evidence_re lower then ("evidence_list"%string, 30) else v.

(** The pair on entry to the evidence step. *)
Definition before_evidence (lower : str) : verdict :=
  step_files lower (step_phone lower (step_legal lower (step_law lower
    (step_deposition lower (step_email lower ("other"%string, 0)))))).

Definition step_names (lower : str) (v : verdict) : verdict :=
  let '(doc_type, score) := v in
  (doc_type, score + name_hits names lower * 10).

Definition step_length (char_count : nat) (v : verdict) : verdict :=
  let '(doc_type, score) := v in
  let score := if (1000 <? char_count)%nat then score + 10 else score in
  let score := if (5000 <? char_count)%nat then score + 10 else score in
  (doc_type, score).

Definition step_final (char_count : nat) (v : verdict) : verdict :=
  let '(doc_type, score) := v in
  let score := Z.min score 100 in
  if is_other doc_type && (score <? 20)
  then if (char_count <? 100)%nat then ("minimal"%string, score)
       else ("document"%string, score)
  else (doc_type, score).

(** The two terminal gates: the stripped text has fewer than 20
    characters, or fewer than 30% of its characters are letters. *)
Definition is_empty (stripped : str) : bool := (len stripped <? 20)%nat.

Definition is_garbage (stripped : str) : bool :=
  let char_count := len stripped in
  let letters := count_if isalpha stripped in
  (0 <? char_count)%nat && (10 * letters <? 3 * char_count)%nat.

(** [text or ""]; [None] is Python's [None]. *)
Definition or_empty (text : option str) : str :=
  match text with Some t => t | None => [] end.

(** The text that the patterns of [classify] are searched in. *)
Definition stripped_of (text : option str) : str := strip (or_empty text).
Definition lowered (text : option str) : str := lower (stripped_of text).

Definition passes_gates (text : option str) : bool :=
  negb (is_empty (stripped_of text)) && negb (is_garbage (stripped_of text)).

(** [classify(text, page_count)] *)
Definition classify (text : option str) (page_count : Z) : verdict :=
  let text := or_empty text in
  let stripped := strip text in
  let char_count := len stripped in
  if is_empty stripped then ("empty"%string, 0)
  else if is_garbage stripped then ("scan_garbage"%string, 0)
  else
    let lower := lower stripped in
    step_final char_count
      (step_length char_count
         (step_names lower
            (step_evidence lower (before_evidence lower)))).

(** The closed enumeration of document types. *)
Definition doc_types : list string :=
  ["empty"; "scan_garbage"; "email"; "deposition"; "law_enforcement";
   "legal"; "phone_records"; "file_listing"; "evidence_list"; "document";
   "minimal"; "other"]%string.

(** A pair within the domains: a type of the enumeration, a score in
    [0, 100]. *)
Definition in_domain (v : verdict) : Prop :=
  In (fst v) doc_types /\ 0 <= snd v <= 100.

(** The invariant of the steps: a type of the enumeration and a score that
    is not negative. *)
Definition sound (v : verdict) : Prop :=
  In (fst v) doc_types /\ 0 <= snd v.

(** The bonus of [step_length]. *)
Definition length_bonus (char_count : nat) : Z :=
  (if (1000 <? char_count)%nat then 10 else 0)
  + (if (5000 <? char_count)%nat then 10 else 0).

(** [deposition_re] without the three alternatives written in capitals. *)
Definition deposition_words_re : re :=
  Seq Wb
    (alts [lit "deposition"; lit "testimony"; lit "grand jury"; lit "sworn"]).

End Classify.

(** ** condense.py *)

Module Condense.
Import Py Re.
Export Classify.
Open Scope Z_scope.

(** [\n\n], the page separator of [condense_text]. *)
Definition sep2 : str := [nl; nl].

(** [.*?(?=\n\n|\Z)] under [re.DOTALL]: up to the next blank line or the
    end of the text. *)
Definition to_blank : re :=
  Seq (lazy_star (Chr any)) (Ahead (Alt (Seq (Chr (ch nl)) (Chr (ch nl))) Eos)).

(** The boilerplate patterns, in the order of the source.  They are used
    with [re.MULTILINE | re.DOTALL]: [.] is any character and [$] an end of
    line.  The first sixteen carry [(?i)], the last two do not. *)
Definition JUNK_PATTERNS : list re :=
  [ (* (?i)chain of custody.*?(?=\n\n|\Z) *)
    Seq (liti "chain of custody") to_blank;
    (* (?i)evidence envelope.*?(?=\n\n|\Z) *)
    Seq (liti "evidence envelope") to_blank;
    (* (?i)enclosure:.*?(?=\n\n|\Z) *)
    Seq (liti "enclosure:") to_blank;
    (* (?i)(?:original|duplicate|enhanced original)\s*$ *)
    seqs [alts [liti "original"; liti "duplicate"; liti "enhanced original"];
          star ws; Eol];
    (* (?i)magnetic tape.*?computer disk.*?printed material *)
    seqs [liti "magnetic tape"; lazy_star (Chr any); liti "computer disk";
          lazy_star (Chr any); liti "printed material"];
    (* (?i)court authorized intercept.*?(?=\n\n|\Z) *)
    Seq (liti "court authorized intercept") to_blank;
    (* (?i)please consider the environment before printing.* *)
    Seq (liti "please consider the environment before printing")
        (star (Chr any));
    (* (?i)this communication may contain confidential.*?(?=\n\n|\Z) *)
    Seq (liti "this communication may contain confidential") to_blank;
    (* (?i)this e-?mail (?:and any|is|may).*?(?=\n\n|\Z) *)
    seqs [liti "this e"; Opt (lit "-"); liti "mail ";
          alts [liti "and any"; liti "is"; liti "may"]; to_blank];
    (* (?i)if you (?:are not|have received) the intended recipient
       .*?(?=\n\n|\Z) , written on one line in the source *)
    seqs [liti "if you "; alts [liti "are not"; liti "have received"];
          liti " the intended recipient"; to_blank];
    (* (?i)disclaimer:.*?(?=\n\n|\Z) *)
    Seq (liti "disclaimer:") to_blank;
    (* (?i)privileged.*?attorney.*?client.*?(?=\n\n|\Z) *)
    seqs [liti "privileged"; lazy_star (Chr any); liti "attorney";
          lazy_star (Chr any); liti "client"; to_blank];
    (* (?i)item\s+was\s+not\s+scanned\s+description *)
    seqs [liti "item"; plus ws; liti "was"; plus ws; liti "not"; plus ws;
          liti "scanned"; plus ws; liti "description"];
    (* (?i)grand jury material.*?criminal procedure *)
    seqs [liti "grand jury material"; lazy_star (Chr any);
          liti "criminal procedure"];
    (* (?i)this document contains neither recommendations nor conclusions
       of the fbi.*?(?=\n\n|\Z) , written on one line in the source, with
       one space before "of" *)
    seqs [liti "this document contains neither recommendations nor ";
          liti "conclusions of the fbi"; to_blank];
    (* (?i)it is the property of the fbi.*?(?=\n\n|\Z) *)
    Seq (liti "it is the property of the fbi") to_blank;
    (* the group GM_[A-Z]+_\d+\s* , once or more *)
    plus (seqs [lit "GM_"; plus upperAZ; lit "_"; plus digit; star ws]);
    (* the group [A-Z]+\d+[._]\w+\s* , three times or more *)
    Rep true 3 (seqs [plus upperAZ; plus digit; Chr (oneof "._"); plus word;
                      star ws]) ].

Definition is_junk_page (text : str) : bool :=
  let s := strip text in
  if (len s <? 15)%nat then true
  else
    let letters := count_if isalpha s in
    if (0 <? len s)%nat && (4 * letters <? len s)%nat then true
    else
      let digits := count_if isdigit s in
      (50 <? len s)%nat && (4 * len s <? 10 * digits)%nat.

(** [for pat in JUNK_PATTERNS: cleaned = re.sub(pat, '', cleaned, ...)] *)
Definition strip_junk (page : str) : str :=
  fold_left (fun cleaned pat => re_sub pat [] cleaned) JUNK_PATTERNS page.

(** [r'\n{3,}'] *)
Definition blank_run : re := Rep true 3 (Chr (ch nl)).

(** The body of the loop over the pages: what is left of a page that is
    kept, [None] for a page that is dropped. *)
Definition condense_page (page : str) : option str :=
  if is_junk_page page then None
  else
    let cleaned := strip (re_sub blank_run sep2 (strip_junk page)) in
    if (15 <? len cleaned)%nat then Some cleaned else None.

Fixpoint keep_pages (pages : list str) : list str :=
  match pages with
  | [] => []
  | page :: rest =>
      match condense_page page with
      | Some cleaned => cleaned :: keep_pages rest
      | None => keep_pages rest
      end
  end.

(** [condense_text(full_text)]; [None] is Python's [None]. *)
Definition condense_text (full_text : option str) : str :=
  match full_text with
  | None | Some [] => []
  | Some t => join sep2 (keep_pages (split sep2 t))
  end.

(** *** reclassify *)

Definition key_names : list string :=
  ["epstein"; "maxwell"; "ghislaine"; "prince andrew"; "giuffre"; "roberts";
   "dershowitz"; "clinton"; "trump"; "black"; "wexner"; "brunel"; "dubin";
   "victim"; "minor"; "underage"; "abuse"; "trafficking"]%string.

(** [r'\b[QA]\.\s'] *)
Definition qa_re : re := seqs [Wb; Chr (oneof "QA"); lit "."; ws].

(** [r'[.!?]\s+[A-Z]'] *)
Definition sentence_re : re := seqs [Chr (oneof ".!?"); plus ws; upperAZ].

(** [r'(?i)(investigation|arrest|surveillance|interview|witness|statement|
        allegation)'], written on one line in the source *)
Definition invest_re : re :=
  alts [liti "investigation"; liti "arrest"; liti "surveillance";
        liti "interview"; liti "witness"; liti "statement"; liti "allegation"].

(** [r'(?i)(plea agreement|indictment|non-prosecution|immunity|cooperat|
        sentenc)'], written on one line in the source *)
Definition substance_re : re :=
  alts [liti "plea agreement"; liti "indictment"; liti "non-prosecution";
        liti "immunity"; liti "cooperat"; liti "sentenc"].

(** [r'^(From:|Subject:)'], [re.MULTILINE] *)
Definition header_re : re := Seq Bol (Alt (lit "From:") (lit "Subject:")).

Definition qa_count (condensed : str) : nat := findall_count qa_re condensed.
Definition sentences (condensed : str) : nat :=
  findall_count sentence_re condensed.

Definition step_key_names (condensed : str) (v : verdict) : verdict :=
  let '(doc_type, score) := v in
  (doc_type, score + name_hits key_names (lower condensed) * 8).

Definition step_dialogue (condensed : str) (v : verdict) : verdict :=
  let '(doc_type, score) := v in
  if (5 <? qa_count condensed)%nat then ("deposition"%string, score + 30)
  else v.

Definition step_narrative (condensed : str) (v : verdict) : verdict :=
  let '(doc_type, score) := v in
  if (5 <? sentences condensed)%nat then (doc_type, score + 20)
  else if (2 <? sentences condensed)%nat then (doc_type, score + 10)
  else v.

Definition step_invest (condensed : str) (v : verdict) : verdict :=
  let '(doc_type, score) := v in
  if re_search invest_re (lower condensed)
  then ((if String.eqb doc_type "deposition" || String.eqb doc_type "email"
         then doc_type else "law_enforcement"%string),
        score + 20)
  else v.

Definition step_substance (condensed : str) (v : verdict) : verdict :=
  let '(doc_type, score) := v in
  if re_search substance_re (lower condensed) then (doc_type, score + 25)
  else v.

(** The e-mail rule fires: a header line, and more than two sentences or
    more than 300 characters. *)
Definition email_rule (condensed : str) : bool :=
  re_search header_re condensed
  && ((2 <? sentences condensed)%nat || (300 <? len condensed)%nat).

Definition step_email_content (condensed : str) (v : verdict) : verdict :=
  let '(doc_type, score) := v in
  if email_rule condensed then ("email"%string, score + 15) else v.

(** More than ten lines, over 70% of them shorter than 20 characters. *)
Definition is_tabular (condensed : str) : bool :=
  let lines := split [nl] condensed in
  let short_lines :=
    length (filter (fun l => (len (strip l) <? 20)%nat) lines) in
  (10 <? length lines)%nat && (7 * length lines <? 10 * short_lines)%nat.

Definition step_tabular (condensed : str) (v : verdict) : verdict :=
  let '(doc_type, score) := v in
  if is_tabular condensed then (doc_type, Z.max (score - 20) 0) else v.

Definition step_long (condensed : str) (v : verdict) : verdict :=
  let '(doc_type, score) := v in
  let score := if (2000 <? len condensed)%nat then score + 10 else score in
  let score := if (5000 <? len condensed)%nat then score + 10 else score in
  (doc_type, score).

Definition step_clamp (v : verdict) : verdict :=
  let '(doc_type, score) := v in (doc_type, Z.min score 100).

(** The steps of [reclassify] that follow the dialogue step: those up to
    the demotion of tabular text, then the rest. *)
Definition before_tabular (condensed : str) (v : verdict) : verdict :=
  step_email_content condensed
    (step_substance condensed
       (step_invest condensed
          (step_narrative condensed v))).

Definition before_clamp (condensed : str) (v : verdict) : verdict :=
  step_long condensed
    (step_tabular condensed (before_tabular condensed v)).

Definition after_dialogue (condensed : str) (v : verdict) : verdict :=
  step_clamp (before_clamp condensed v).

Definition is_blank (condensed : option str) : bool :=
  match condensed with
  | None | Some [] => true
  | Some c => (len (strip c) <? 30)%nat
  end.

(** [reclassify(text, condensed, doc_type, page_count)] *)
Definition reclassify (text : option str) (condensed : option str)
  (doc_type : string) (page_count : Z) : verdict :=
  match condensed with
  | None => ("empty"%string, 0)
  | Some c =>
      if is_blank condensed then ("empty"%string, 0)
      else after_dialogue c
             (step_dialogue c (step_key_names c (doc_type, 0)))
  end.

(** The same computation with the dialogue step left out: the score that
    the other signals of [condensed] earn on their own. *)
Definition reclassify_no_dialogue (condensed : str) (doc_type : string)
  : verdict :=
  after_dialogue condensed (step_key_names condensed (doc_type, 0)).

(** The invariant of the steps of [reclassify]: the type is one of the
    enumeration or the type that was passed in, the score is not
    negative. *)
Definition sound_from (prior : string) (v : verdict) : Prop :=
  (In (fst v) doc_types \/ fst v = prior) /\ 0 <= snd v.

(** What the steps from the narrative step to the e-mail step add to the
    score. *)
Definition signal_bonus (condensed : str) : Z :=
  (if (5 <? sentences condensed)%nat then 20
   else if (2 <? sentences condensed)%nat then 10 else 0)
  + (if re_search invest_re (lower condensed) then 20 else 0)
  + (if re_search substance_re (lower condensed) then 25 else 0)
  + (if email_rule condensed then 15 else 0).

(** The bonus of [step_long]. *)
Definition long_bonus (condensed : str) : Z :=
  (if (2000 <? len condensed)%nat then 10 else 0)
  + (if (5000 <? len condensed)%nat then 10 else 0).

End Condense.

(** ** clean.py: [clean_text] *)

Module Clean.
Import Py Re.

(** [r'^\d{1,3}$'] *)
Definition line_number_re : re :=
  seqs [Bos; digit; Opt (Seq digit (Opt digit)); Eod].

(** [r'^EFTA\d+$'] *)
Definition bates_stamp_re : re := seqs [Bos; lit "EFTA"; plus digit; Eod].

(** [r'^Page \d+ of \d+'] *)
Definition page_header_re : re :=
  seqs [Bos; lit "Page "; plus digit; lit " of "; plus digit].

(** [r'\n{3,}'] *)
Definition blank_run : re := Rep true 3 (Chr (ch nl)).

(** [r'(?<=[a-z,])\n(?=[a-z])'] *)
Definition broken_line_re : re :=
  seqs [Behind (fun c => islower c || eqc c ","%char); Chr (ch nl);
        Ahead (Chr islower)].

(** The lines that survive the loop of [clean_text], stripped. *)
Fixpoint keep_lines (lines : list str) : list str :=
  match lines with
  | [] => []
  | line :: rest =>
      let s := strip line in
      match s with
      | [] => keep_lines rest
      | _ =>
          if re_match line_number_re s then keep_lines rest
          else if re_match bates_stamp_re s then keep_lines rest
          else if re_match page_header_re s then keep_lines rest
          else if contains (T "WAS NOT SCANNED") (upper s) then keep_lines rest
          else s :: keep_lines rest
      end
  end.

Definition clean_text (text : str) : str :=
  match text with
  | [] => text
  | _ =>
      if (len (strip text) <? 10)%nat then text
      else
        let text := join [nl] (keep_lines (split [nl] text)) in
        let text := re_sub blank_run [nl; nl] text in
        let text := re_sub broken_line_re (T " ") text in
        strip text
  end.

End Clean.

(** ** The store: the tables [documents] and [pages] and the full-text
    index [search] *)

Module Store.
Import Py.

Record Document : Type := mkDocument {
  doc_id : nat;
  filename : str;
  filepath : str;
  page_count : nat;
  full_text : str;
  bates_start : str;
  bates_end : str;
  condensed : str;            (* added by condense.py, default '' *)
  doc_type : string;          (* added by classify.py, default '' *)
  interest_score : Z          (* added by classify.py, default 0 *)
}.

Record Page : Type := mkPage {
  page_id : nat;
  page_doc : nat;             (* doc_id REFERENCES documents(id) *)
  page_num : nat;
  text : str
}.

(** A row of the virtual table [search(filename, page_num, text)]. *)
Record Entry : Type := mkEntry {
  rowid : nat;
  e_filename : str;
  e_page_num : nat;
  e_text : str
}.

Record Db : Type := mkDb {
  documents : list Document;
  pages : list Page;
  search_index : list Entry;
  (* whether [documents] has the columns [doc_type] and [interest_score]:
     [init_db] does not create them, [classify.main] adds them *)
  verdict_columns : bool
}.

(** The store that [init_db] creates. *)
Definition empty_db : Db := mkDb [] [] [] false.

(** The id that an [INTEGER PRIMARY KEY] column gives to a new row: one
    more than the largest id in the table. *)
Definition next_rowid (ids : list nat) : nat := S (fold_right Nat.max 0 ids).

(** [ORDER BY key]: a stable insertion sort. *)
Section OrderBy.
Variable A : Type.
Variable le : A -> A -> bool.

Fixpoint insert_by (x : A) (l : list A) : list A :=
  match l with
  | [] => [x]
  | y :: l' => if le x y then x :: l else y :: insert_by x l'
  end.

Definition order_by (l : list A) : list A :=
  fold_right insert_by [] l.
End OrderBy.

(** [SELECT text FROM pages WHERE doc_id=? ORDER BY page_num] *)
Definition page_texts (db : Db) (d : nat) : list str :=
  map text
    (order_by (fun p q => page_num p <=? page_num q)
       (filter (fun p => page_doc p =? d) (pages db))).

Definition set_full_text (full : str) (d : Document) : Document :=
  mkDocument (doc_id d) (filename d) (filepath d) (page_count d) full
    (bates_start d) (bates_end d) (condensed d) (doc_type d)
    (interest_score d).

Definition set_verdict (ty : string) (score : Z) (d : Document) : Document :=
  mkDocument (doc_id d) (filename d) (filepath d) (page_count d)
    (full_text d) (bates_start d) (bates_end d) (condensed d) ty score.

Definition set_condensed (c : str) (d : Document) : Document :=
  mkDocument (doc_id d) (filename d) (filepath d) (page_count d)
    (full_text d) (bates_start d) (bates_end d) c (doc_type d)
    (interest_score d).

Definition set_text (t : str) (p : Page) : Page :=
  mkPage (page_id p) (page_doc p) (page_num p) t.

(** [SELECT p.id, d.filename, p.page_num, p.text FROM pages p
     JOIN documents d ON d.id = p.doc_id] *)
Definition index_rows (docs : list Document) (ps : list Page) : list Entry :=
  flat_map
    (fun p =>
       map (fun d => mkEntry (page_id p) (filename d) (page_num p) (text p))
         (filter (fun d => doc_id d =? page_doc p) docs))
    ps.

(** One store extends another: the rows of the first are the first rows of
    the second, unchanged. *)
Definition extends (db db' : Db) : Prop :=
  (exists ds, documents db' = documents db ++ ds)
  /\ (exists ps, pages db' = pages db ++ ps)
  /\ (exists es, search_index db' = search_index db ++ es).

(** No page refers to a document id that is still to be given out. *)
Definition no_dangling (db : Db) : Prop :=
  Forall (fun p => page_doc p < next_rowid (map doc_id (documents db)))
    (pages db).

End Store.

(** ** ingest.py and the [main] loops of the stages *)

Module Pipeline.
Import Py Store.

(** [os.path.basename] *)
Definition basename (path : str) : str := last (split (T "/") path) [].

(** The order of Python on strings, for [sorted(pdfs)]. *)
Fixpoint str_le (a b : str) : bool :=
  match a, b with
  | [], _ => true
  | _ :: _, [] => false
  | x :: a', y :: b' =>
      if (code x <? code y)%N then true
      else if (code y <? code x)%N then false
      else str_le a' b'
  end.

Definition sorted (l : list str) : list str := order_by str_le l.

(** [enumerate(l)] *)
Definition enumerate (A : Type) (l : list A) : list (nat * A) :=
  combine (seq 0 (length l)) l.

(** What reading one file gives.  [fitz.open] is called inside a [try];
    [len(doc)] and [get_text()] on the pages are called after it, outside
    of any [try]. *)
Inductive reading : Type :=
| OpenError                        (* [fitz.open] raises *)
| PageError                        (* [len(doc)] or a [get_text()] raises *)
| Texts (pages_text : list str).   (* the text of every page *)

Section Ingest.
(** [fitz.open(pdf_path)], then [len(doc)] and [get_text()] on every
    page. *)
Variable fitz_open : str -> reading.
(** The dictionary read from the [.DAT] manifests. *)
Variable bates_map : str -> option str.

Definition known (db : Db) (name : str) : bool :=
  existsb (fun d => eqs (filename d) name) (documents db).

(** [INSERT INTO pages (doc_id, page_num, text)], with the trigger
    [pages_ai] that copies the new page into [search]. *)
Definition insert_page (doc : nat) (db : Db) (numbered : nat * str) : Db :=
  let '(i, t) := numbered in
  let p := mkPage (next_rowid (map page_id (pages db))) doc (i + 1) t in
  mkDb (documents db) (pages db ++ [p])
    (search_index db ++ index_rows (documents db) [p])
    (verdict_columns db).

(** One turn of the loop of [ingest]: the store after the turn, [None]
    when the turn raises. *)
Definition ingest_pdf (db : Db) (pdf_path : str) : option Db :=
  let name := basename pdf_path in
  if known db name then Some db                  (* skip, already indexed *)
  else
    match fitz_open pdf_path with
    | OpenError => Some db                       (* ERROR opening *)
    | PageError => None                          (* the exception goes up *)
    | Texts pages_text =>
        let start := replace (T ".pdf") [] name in
        let stop := match bates_map start with Some e => e | None => [] end in
        let id := next_rowid (map doc_id (documents db)) in
        let d := mkDocument id name pdf_path (length pages_text)
                   (join [nl] pages_text) start stop [] ""%string 0%Z in
        Some (fold_left (insert_page id) (enumerate pages_text)
                (mkDb (documents db ++ [d]) (pages db) (search_index db)
                   (verdict_columns db)))
    end.

(** [for pdf_path in sorted(pdfs)]: the loop stops at the first turn that
    raises. *)
Fixpoint ingest_loop (pdfs : list str) (db : Db) : option Db :=
  match pdfs with
  | [] => Some db
  | pdf_path :: rest =>
      match ingest_pdf db pdf_path with
      | Some db' => ingest_loop rest db'
      | None => None
      end
  end.

(** [ingest()]: the store that the run leaves, and whether the run raised.
    The rows are committed once, after the loop ([conn.commit()]); a run
    that raises in the loop commits none of them. *)
Definition ingest (pdfs : list str) (db : Db) : Db * bool :=
  match ingest_loop (sorted pdfs) db with
  | Some db' => (db', false)
  | None => (db, true)
  end.
End Ingest.

(** [clean.main]: clean every page, recompute every [full_text] from the
    cleaned pages, rebuild the index. *)
Definition clean_main (db : Db) : Db :=
  let ps := map (fun p => set_text (Clean.clean_text (text p)) p) (pages db) in
  let cleaned :=
    mkDb (documents db) ps (search_index db) (verdict_columns db) in
  let ds :=
    map (fun d =>
           set_full_text (join [nl; nl] (page_texts cleaned (doc_id d))) d)
      (documents db) in
  mkDb ds ps (index_rows ds ps) (verdict_columns db).

(** [classify.main]: add the columns [doc_type] and [interest_score] if
    they are missing, then classify every document. *)
Definition classify_main (db : Db) : Db :=
  mkDb
    (map (fun d =>
            let '(ty, score) :=
              Classify.classify (Some (full_text d))
                (Z.of_nat (page_count d)) in
            set_verdict ty score d)
       (documents db))
    (pages db) (search_index db) true.

(** One turn of the loop of [condense.main]. *)
Definition condense_document (d : Document) : Document :=
  let c := Condense.condense_text (Some (full_text d)) in
  let '(ty, score) :=
    Condense.reclassify (Some (full_text d)) (Some c) (doc_type d)
      (Z.of_nat (page_count d)) in
  set_verdict ty score (set_condensed c d).

(** [condense.main]: the store after the run, [None] when the run raises.
    Its [SELECT id, full_text, doc_type, page_count FROM documents] raises
    when the table has no column [doc_type]; nothing has been written
    then but the column [condensed], which holds its default. *)
Definition condense_main (db : Db) : option Db :=
  if verdict_columns db
  then
    Some (mkDb (map condense_document (documents db)) (pages db)
            (search_index db) true)
  else None.

(** [full_text] is the join of the page texts with the separator [sep]. *)
Definition joined_with (sep : str) (db : Db) (d : Document) : Prop :=
  full_text d = join sep (page_texts db (doc_id d)).

End Pipeline.

(** ** app.py: the search resolver *)

Module App.
Import Py Re Store.

(** What a statement gives back: rows, or an exception. *)
Inductive outcome (A : Type) : Type :=
| Returned (a : A)
| Raised (e : string).
Arguments Returned {A} a.
Arguments Raised {A} e.

(** A row of the answer: [doc_id], [filename], [page_num], [snippet]. *)
Record Row : Type := mkRow {
  r_doc : nat;
  r_filename : str;
  r_page_num : nat;
  snippet : str
}.

(** The two statements that [search] runs on its cursor. *)
Record Cursor : Type := mkCursor {
  (* SELECT ... FROM search s JOIN pages p ... WHERE search MATCH ?
     ORDER BY rank LIMIT 100 *)
  exec_match : str -> outcome (list Row);
  (* SELECT ... FROM pages p JOIN documents d ... WHERE lower(p.text)
     LIKE lower(?) ORDER BY p.doc_id, p.page_num LIMIT 100 *)
  exec_like : str -> str -> outcome (list Row)
}.

(** The statements issued, in order. *)
Inductive statement : Type :=
| Match (fts_q : str)
| Like (first pattern : str).

(** [r'[^\w]'] *)
Definition nonword_re : re := Chr (fun c => negb (isword c)).

Definition _build_fts_query (q : str) : str :=
  let parts :=
    flat_map
      (fun t =>
         match re_sub nonword_re [] t with
         | [] => []
         | clean => [clean ++ T "*"]
         end)
      (split_ws q) in
  join (T " AND ") parts.

(** [request.args.get("q", "").strip()]; [arg] is the request parameter
    [q], [None] when absent. *)
Definition query_of (arg : option str) : str :=
  strip (match arg with Some v => v | None => [] end).

(** ["%" + "%".join(q.split()) + "%"] *)
Definition like_pattern (q : str) : str :=
  T "%" ++ join (T "%") (split_ws q) ++ T "%".

(** [search()] on the cursor of an open connection.  The answer is the
    list of statements issued and the rows returned, or the exception that
    leaves the function. *)
Definition search (cur : Cursor) (arg : option str)
  : list statement * outcome (list Row) :=
  let q := query_of arg in
  match q with
  | [] => ([], Returned [])
  | _ =>
      let fts_q := _build_fts_query q in
      let '(issued, rows) :=
        match fts_q with
        | [] => ([], [])
        | _ =>
            ([Match fts_q],
             match exec_match cur fts_q with
             | Returned rows => rows
             | Raised _ => []
             end)
        end in
      match rows with
      | [] =>
          match split_ws q with
          | first :: _ =>
              (issued ++ [Like first (like_pattern q)],
               exec_like cur first (like_pattern q))
          | [] => (issued, Raised "IndexError")
          end
      | _ => (issued, Returned rows)
      end
  end.

(** The connection that [get_db()] opens: the cursor that [conn.cursor()]
    gives on it, and what [conn.close()] does, [None] when it returns and
    the exception when it raises. *)
Record Connection : Type := mkConnection {
  cursor : Cursor;
  close : option string
}.

(** What the handler of [/api/search] calls around its statements:
    [get_db()] with [conn.cursor()], which give a connection or raise, and
    [jsonify], of which [jsonify_error] gives the exception it raises on
    the rows, if any. *)
Record Web : Type := mkWeb {
  get_db : outcome Connection;
  jsonify_error : list Row -> option string
}.

(** [return jsonify(...)] *)
Definition respond (web : Web) (rows : list Row) : outcome (list Row) :=
  match jsonify_error web rows with
  | Some e => Raised e
  | None => Returned rows
  end.

(** [search()] from the request to the response: the blank query is
    answered at once; otherwise the connection is opened, outside of any
    [try], the statements of [search] above are run on its cursor, the
    connection is closed and the rows are answered.  An exception of the
    fallback statement leaves the function before [conn.close()]. *)
Definition search_handler (web : Web) (arg : option str)
  : list statement * outcome (list Row) :=
  match query_of arg with
  | [] => ([], respond web [])
  | _ =>
      match get_db web with
      | Raised e => ([], Raised e)
      | Returned conn =>
          let '(issued, answer) := search (cursor conn) arg in
          match answer with
          | Raised e => (issued, Raised e)
          | Returned rows =>
              match close conn with
              | Some e => (issued, Raised e)
              | None => (issued, respond web rows)
              end
          end
      end
  end.

(** Every token of the query is empty once its non-word characters are
    removed. *)
Definition all_tokens_empty (q : str) : Prop :=
  Forall (fun t => re_sub nonword_re [] t = []) (split_ws q).

(** *** The fallback statement on the tables *)

(** [X LIKE pattern] on lowered operands: [%] is any run of characters,
    [_] any one character. *)
Fixpoint like (pattern : str) (x : str) : bool :=
  match pattern with
  | [] => match x with [] => true | _ => false end
  | c :: pattern' =>
      if eqc c "%"%char
      then (fix run (x : str) : bool :=
              like pattern' x ||
              match x with [] => false | _ :: x' => run x' end) x
      else match x with
           | [] => false
           | y :: x' => (eqc c "_"%char || eqc c y) && like pattern' x'
           end
  end.

(** [instr(x, y)]: the position, from 1, of the first [y] in [x]; 0 when
    there is none. *)
Fixpoint instr (x y : str) : nat :=
  if startswith y x then 1
  else match x with
       | [] => 0
       | _ :: x' => match instr x' y with 0 => 0 | S n => S (S n) end
       end.

(** [substr(x, start, n)] for [start >= 1]. *)
Definition substr (x : str) (start n : nat) : str :=
  firstn n (skipn (start - 1) x).

Definition by_doc_then_page (p q : Page) : bool :=
  (page_doc p <? page_doc q) ||
  ((page_doc p =? page_doc q) && (page_num p <=? page_num q)).

Definition like_rows (db : Db) (first pattern : str) : list Row :=
  firstn 100
    (flat_map
       (fun p =>
          map (fun d =>
                 mkRow (page_doc p) (filename d) (page_num p)
                   (substr (text p)
                      (Nat.max 1 (instr (lower (text p)) (lower first) - 80))
                      200))
            (filter (fun d => doc_id d =? page_doc p) (documents db)))
       (order_by by_doc_then_page
          (filter (fun p => like (lower pattern) (lower (text p)))
             (pages db)))).

(** A cursor on the tables of [db]: the fallback statement is computed
    from the tables; the answer of the full-text engine is given by
    [fts]. *)
Definition cursor_on (db : Db) (fts : str -> outcome (list Row)) : Cursor :=
  mkCursor fts (fun first pattern => Returned (like_rows db first pattern)).

End App.

(** ** Concrete texts and stores used by the examples *)

Module Samples.
Import Py Store Pipeline App.

(** A law-enforcement text that also mentions evidence. *)
Definition fbi_evidence : str := T "the fbi collected evidence today at noon".

(** Dialogue in question-and-answer form, and a mention of a witness. *)
Definition dialogue : str :=
  T "Q. Where were you that night? A. I was at home.".
Definition witness_note : str := T "the witness was present at the meeting".
Definition sworn_note : str := T "sworn deposition of the man in the room".

(** A condensed e-mail that quotes six dialogue markers and five names. *)
Definition quoted_dialogue : str :=
  T "From: counsel for epstein, maxwell, clinton, trump and wexner"
  ++ [nl] ++ T "Q. Was it? A. Yes. Q. Was it? A. Yes. Q. Was it? A. Yes.".

(** A plain dialogue of six markers. *)
Definition plain_dialogue : str :=
  T "Q. Was it? A. Yes. Q. Was it? A. Yes. Q. Was it? A. Yes.".

Definition plain_words : str := T "plain words without any marker here".

(** A page whose last line repeats the stamp [original]. *)
Definition stamped : str := T "this page is marked originaloriginaloriginal".

(** A batch of two files: one that cannot be opened and one of two
    pages. *)
Definition report_path : str := T "docs/EFTA0001.pdf".
Definition broken_path : str := T "docs/EFTA0000.pdf".
Definition report_pages : list str :=
  [T "first page of the report"; T "second page of the report"].

(** A file that opens but whose second page cannot be read, and a memo of
    one page. *)
Definition damaged_path : str := T "docs/EFTA0002.pdf".
Definition memo_path : str := T "docs/EFTA0003.pdf".
Definition memo_pages : list str := [T "memo of one page"].

Definition open_report (path : str) : reading :=
  if eqs path report_path then Texts report_pages
  else if eqs path memo_path then Texts memo_pages
  else if eqs path damaged_path then PageError
  else OpenError.

Definition no_manifest (start : str) : option str := None.

Definition batch : list str := [report_path; broken_path].

(** The batch of all four files. *)
Definition damaged_batch : list str :=
  [memo_path; damaged_path; report_path; broken_path].

Definition ingested : Db :=
  fst (ingest open_report no_manifest batch empty_db).

(** A store of one page that contains three question marks. *)
Definition marks_db : Db :=
  mkDb [mkDocument 1 (T "a.pdf") (T "docs/a.pdf") 1 (T "what??? really")
          [] [] [] ""%string 0%Z]
       [mkPage 1 1 1 (T "what??? really")]
       [mkEntry 1 (T "a.pdf") 1 (T "what??? really")]
       false.

(** A cursor on [marks_db] whose index is missing, and a cursor whose two
    statements both fail. *)
Definition no_index (fts_q : str) : outcome (list Row) :=
  Raised "no such table: search".
Definition marks_cursor : Cursor := cursor_on marks_db no_index.
Definition locked_cursor : Cursor :=
  mkCursor no_index (fun _ _ => Raised "database is locked").

(** A service whose connection opens on [locked_cursor], and one whose
    connection does not open. *)
Definition locked_web : Web :=
  mkWeb (Returned (mkConnection locked_cursor None)) (fun _ => None).
Definition closed_web : Web :=
  mkWeb (Raised "unable to open database file") (fun _ => None).

End Samples.

(** More texts for the examples. *)

Module Pages.
Import Py.

(** A scanned page: a header, a sentence broken over two lines, a line
    number and a stamp. *)
Definition scanned_page : str :=
  join [nl] [T "Page 1 of 2"; T "The agent met,"; T "the witness at noon.";
             T "12"; T "EFTA00012345"; []].

End Pages.

(** ** Decision tables

    What the steps of [classify] and of [reclassify] amount to, written as
    one table each; the properties below prove that the steps compute
    them. *)

Module Tables.
Import Py Re Condense.
Open Scope Z_scope.

(** The type that the seven pattern steps of [classify] leave: the steps
    that force a type win in the reverse of their order, then the e-mail
    header, then the two steps that only type a text still [other]. *)
Definition type_table (low : str) : string :=
  if re_search evidence_re low then "evidence_list"%string
  else if is_file_listing low then "file_listing"%string
  else if re_search phone_re low then "phone_records"%string
  else if re_search law_re low then "law_enforcement"%string
  else if re_search email_re low then "email"%string
  else if re_search deposition_re low then "deposition"%string
  else if re_search legal_re low then "legal"%string
  else "other"%string.

(** The score that the seven pattern steps leave: the three assigning
    steps win in the reverse of their order; otherwise the largest of the
    scores of the patterns found. *)
Definition score_table (low : str) : Z :=
  if re_search evidence_re low then 30
  else if is_file_listing low then 10
  else if re_search phone_re low then 20
  else Z.max (Z.max (Z.max (if re_search email_re low then 60 else 0)
                           (if re_search deposition_re low then 70 else 0))
                    (if re_search law_re low then 80 else 0))
             (if re_search legal_re low then 50 else 0).

(** The type answered by [reclassify] for a text that is not blank. *)
Definition retype_table (condensed : str) (prior : string) : string :=
  if email_rule condensed then "email"%string
  else if (5 <? qa_count condensed)%nat then "deposition"%string
  else if re_search invest_re (lower condensed)
       then (if String.eqb prior "deposition" || String.eqb prior "email"
             then prior else "law_enforcement"%string)
       else prior.

(** The score answered by [reclassify] for a text that is not blank. *)
Definition rescore_table (condensed : str) : Z :=
  let raw :=
    name_hits key_names (lower condensed) * 8
    + (if (5 <? qa_count condensed)%nat then 30 else 0)
    + signal_bonus condensed in
  Z.min ((if is_tabular condensed then Z.max (raw - 20) 0 else raw)
         + long_bonus condensed) 100.

End Tables.

(** ** The invariant of the store *)

Module Invariants.
Import Py Store.

(** The pages of the document [id], in the order of the table. *)
Definition pages_of (db : Db) (id : nat) : list Page :=
  filter (fun p => page_doc p =? id) (pages db).

(** What the schema and the loops keep true of the tables: file names and
    ids are unique, every page belongs to a stored document, the pages of a
    document are numbered from 1 to its page count in the order they were
    stored, and the index holds the join of the pages with their
    documents. *)
Record well_formed (db : Db) : Prop := mkWellFormed {
  wf_filenames : NoDup (map filename (documents db));
  wf_doc_ids : NoDup (map doc_id (documents db));
  wf_page_ids : NoDup (map page_id (pages db));
  wf_owned :
    Forall (fun p => In (page_doc p) (map doc_id (documents db))) (pages db);
  wf_numbered :
    Forall (fun d => map page_num (pages_of db (doc_id d))
                     = seq 1 (page_count d))
      (documents db);
  wf_indexed : search_index db = index_rows (documents db) (pages db)
}.

(** The index entry of the page [p] of the document [d]. *)
Definition entry_of (d : Document) (p : Page) : Entry :=
  mkEntry (page_id p) (filename d) (page_num p) (text p).

End Invariants.

(** ** ingest.py: [parse_dat] *)

Module Manifest.

(** The text of a manifest as [open(path, "r", encoding="utf-8",
    errors="replace")] delivers it: a list of code points, the ends of the
    lines already translated to LF. *)
Definition text : Type := list N.

(** The delimiter of the manifests, the letter thorn (U+00FE). *)
Definition thorn : N := 254.

Definition lf : N := 10.

(** [str.isspace] on one code point. *)
Definition isspace (c : N) : bool :=
  (((9 <=? c) && (c <=? 13)) || ((28 <=? c) && (c <=? 32))
   || (c =? 133) || (c =? 160) || (c =? 5760)
   || ((8192 <=? c) && (c <=? 8202))
   || (c =? 8232) || (c =? 8233) || (c =? 8239) || (c =? 8287)
   || (c =? 12288))%N.

Fixpoint lstrip (s : text) : text :=
  match s with
  | c :: s' => if isspace c then lstrip s' else s
  | [] => []
  end.

(** [s.strip()] *)
Definition strip (s : text) : text := rev (lstrip (rev (lstrip s))).

Definition cons_head (c : N) (ps : list text) : list text :=
  match ps with
  | p :: ps' => (c :: p) :: ps'
  | [] => [[c]]
  end.

(** [s.split(sep)] for a separator of one character. *)
Fixpoint split (sep : N) (s : text) : list text :=
  match s with
  | [] => [[]]
  | c :: s' =>
      if (c =? sep)%N then [] :: split sep s'
      else cons_head c (split sep s')
  end.

(** [f.readlines()]: the lines of the text, each with the LF that ends
    it.  [cur] is the line being read, last character first. *)
Fixpoint readlines_go (cur : text) (s : text) : list text :=
  match s with
  | [] => match cur with [] => [] | _ => [rev cur] end
  | c :: s' =>
      if (c =? lf)%N then rev (c :: cur) :: readlines_go [] s'
      else readlines_go (c :: cur) s'
  end.

Definition readlines (s : text) : list text := readlines_go [] s.

Fixpoint eqt (a b : text) : bool :=
  match a, b with
  | [], [] => true
  | x :: a', y :: b' => (x =? y)%N && eqt a' b'
  | _, _ => false
  end.

(** A [dict] from strings to strings, as its lookup: [d k] is
    [d.get(k)]. *)
Definition dict : Type := text -> option text.

Definition empty_dict : dict := fun _ => None.

(** [d[k] = v] *)
Definition dict_set (d : dict) (k v : text) : dict :=
  fun k' => if eqt k' k then Some v else d k'.

(** [parts = line.strip().split(...)] on the thorn, then
    [parts = [p for p in parts if p]] *)
Definition fields (line : text) : list text :=
  filter (fun p => match p with [] => false | _ => true end)
    (split thorn (strip line)).

(** One turn of the loop of [parse_dat]. *)
Definition add_record (bates : dict) (line : text) : dict :=
  match fields line with
  | k :: v :: _ => dict_set bates k v
  | _ => bates
  end.

(** [parse_dat(dat_path)]; [content] is the text of the file, [None] when
    the path does not exist. *)
Definition parse_dat (content : option text) : dict :=
  match content with
  | None => empty_dict
  | Some t => fold_left add_record (tl (readlines t)) empty_dict
  end.

(** The code points of a literal. *)
Definition U (s : string) : text := map N_of_ascii (list_ascii_of_string s).

(** A manifest of a header and three records; the first record is
    overridden by the third, the second has an empty field and ends in a
    no-break space. *)
Definition sample_dat : text :=
  U "Begin Bates" ++ [thorn] ++ U "End Bates" ++ [lf]
  ++ U "EFTA0001" ++ [thorn] ++ U "EFTA0004" ++ [lf]
  ++ U "EFTA0005" ++ [thorn; thorn] ++ U "EFTA0009" ++ [160%N; lf]
  ++ U "EFTA0001" ++ [thorn] ++ U "EFTA0003" ++ [lf].

End Manifest.

(** ** app.py: fetching one document *)

Module Fetch.
Import Py Store.

(** [document(doc_id)]: the row of the document and its pages as
    [(page_num, text)] in the order of the page numbers; [None] is the
    answer 404. *)
Definition document (db : Db) (id : nat)
  : option (Document * list (nat * str)) :=
  match find (fun d => doc_id d =? id) (documents db) with
  | None => None
  | Some doc =>
      Some (doc,
            map (fun p => (page_num p, text p))
              (order_by (fun p q => page_num p <=? page_num q)
                 (filter (fun p => page_doc p =? id) (pages db))))
  end.

(** [stats()]: the two counts [SELECT COUNT( * ) FROM documents] and
    [SELECT COUNT( * ) FROM pages]. *)
Definition stats (db : Db) : nat * nat :=
  (length (documents db), length (pages db)).

End Fetch.

(** * Properties *)

Unset Implicit Arguments.

(** ** Strings and patterns *)

Module ReFacts.
Import Py Re.

Lemma eqc_true (a b : ascii) : eqc a b = true -> a = b.
Proof. unfold eqc. apply Ascii.eqb_eq. Qed.

Lemma lower_c_not_upper (c : ascii) : isupper (lower_c c) = false.
Proof. destruct c as [[] [] [] [] [] [] [] []]; vm_compute; reflexivity. Qed.

(** A capital letter of a pattern matches nowhere in a lowered text. *)
Lemma upper_char_fails (c : ascii) (k : cont) prev (s : str) :
  isupper c = true -> rmatch (Chr (ch c)) k prev (lower s) = None.
Proof.
  intros Hc. destruct s as [|x s]; simpl; [reflexivity | ].
  unfold ch. destruct (eqc c (lower_c x)) eqn:E; [ | reflexivity].
  apply eqc_true in E. subst c. rewrite lower_c_not_upper in Hc. discriminate.
Qed.

Lemma upper_lit_fails (c : ascii) (w : string) (k : cont) prev (s : str) :
  isupper c = true -> rmatch (lit (String c w)) k prev (lower s) = None.
Proof.
  intros Hc. unfold lit, T. cbn [list_ascii_of_string map seqs].
  destruct (map _ (list_ascii_of_string w)); cbn [rmatch].
  - change (rmatch (Chr (ch c)) k prev (lower s) = None).
    apply upper_char_fails, Hc.
  - match goal with
    | |- context [rmatch ?r k] =>
        change (rmatch (Chr (ch c)) (rmatch r k) prev (lower s) = None)
    end.
    apply upper_char_fails, Hc.
Qed.

(** Two patterns with the same matches at every position of a lowered text
    are found in the same lowered texts. *)
Lemma search_go_lower_ext (r1 r2 : re) :
  (forall prev s, match_at r1 prev (lower s) = match_at r2 prev (lower s)) ->
  forall s prev, search_go r1 prev (lower s) = search_go r2 prev (lower s).
Proof.
  intros H. induction s as [|x s IH]; intros prev.
  - specialize (H prev []). simpl in *. rewrite H. reflexivity.
  - specialize (H prev (x :: s)). simpl in *. rewrite H.
    destruct (match_at r2 prev _); [reflexivity | apply IH].
Qed.

(** *** The bound of a repetition

    [rep_loop] is run with the length of the rest as its bound.  A larger
    bound gives the same answer: the bound never stops a repetition that
    [re] would carry on. *)

Lemma orelse_none (a : option str) : orelse a None = a.
Proof. destruct a; reflexivity. Qed.

Lemma rep_loop_ext (body : cont -> cont) (k1 k2 : cont) (greedy : bool) :
  (forall ka kb, (forall p s, ka p s = kb p s) ->
                 forall p s, body ka p s = body kb p s) ->
  (forall p s, k1 p s = k2 p s) ->
  forall n lo prev s,
    rep_loop body k1 greedy n lo prev s = rep_loop body k2 greedy n lo prev s.
Proof.
  intros Hbody Hk. induction n as [|n IH]; intros lo prev s; simpl.
  - destruct lo; [apply Hk | reflexivity].
  - rewrite (Hk prev s).
    rewrite (Hbody _ (fun p' s' =>
                        if length s' <? length s
                        then rep_loop body k2 greedy n (pred lo) p' s'
                        else None)); [reflexivity | ].
    intros p' s'. destruct (length s' <? length s); [apply IH | reflexivity].
Qed.

Lemma rmatch_ext (r : re) :
  forall k1 k2 : cont,
    (forall p s, k1 p s = k2 p s) ->
    forall prev s, rmatch r k1 prev s = rmatch r k2 prev s.
Proof.
  induction r as [ | p | r1 IH1 r2 IH2 | r1 IH1 r2 IH2 | r1 IH1
                 | greedy lo r1 IH1 | r1 IH1 | p | | | | | | ];
    intros k1 k2 Hk prev s; cbn [rmatch]; try rewrite (Hk prev s);
    try reflexivity.
  - destruct s as [|c s]; [reflexivity | ].
    rewrite (Hk (Some c) s). reflexivity.
  - apply IH1. intros p s'. apply IH2, Hk.
  - rewrite (IH1 k1 k2 Hk), (IH2 k1 k2 Hk). reflexivity.
  - rewrite (IH1 k1 k2 Hk). reflexivity.
  - apply rep_loop_ext; [exact IH1 | exact Hk].
Qed.

Lemma rep_loop_dead (body : cont -> cont) (greedy : bool) :
  (forall ka kb, (forall p s, ka p s = kb p s) ->
                 forall p s, body ka p s = body kb p s) ->
  (forall p s, body (fun _ _ => None) p s = None) ->
  forall n lo prev s,
    rep_loop body (fun _ _ => None) greedy n lo prev s = None.
Proof.
  intros Hext Hdead. induction n as [|n IH]; intros lo prev s; simpl.
  - destruct lo; reflexivity.
  - rewrite (Hext _ (fun _ _ => None)), Hdead.
    + destruct lo, greedy; reflexivity.
    + intros p' s'. destruct (length s' <? length s); [apply IH | reflexivity].
Qed.

(** A match whose continuation always fails, fails. *)
Lemma rmatch_dead (r : re) :
  forall prev s, rmatch r (fun _ _ => None) prev s = None.
Proof.
  induction r as [ | p | r1 IH1 r2 IH2 | r1 IH1 r2 IH2 | r1 IH1
                 | greedy lo r1 IH1 | r1 IH1 | p | | | | | | ];
    intros prev s; cbn [rmatch]; try reflexivity.
  - destruct s as [|c s]; [reflexivity | ]. destruct (p c); reflexivity.
  - rewrite (rmatch_ext r1 _ (fun _ _ => None)); [apply IH1 | exact IH2].
  - rewrite IH1, IH2. reflexivity.
  - rewrite IH1. reflexivity.
  - apply rep_loop_dead; [apply rmatch_ext | exact IH1].
  - destruct (rmatch r1 _ prev s); reflexivity.
  - destruct prev as [c|]; [destruct (p c) | ]; reflexivity.
  - destruct prev as [c|]; [destruct (eqc c nl) | ]; reflexivity.
  - destruct s as [|c s]; [ | destruct (eqc c nl)]; reflexivity.
  - destruct prev; reflexivity.
  - destruct s as [|c [|d s]]; [ | destruct (eqc c nl) | ]; reflexivity.
  - destruct s; reflexivity.
  - destruct (xorb _ _); reflexivity.
Qed.

Lemma rep_loop_bound_step (r : re) (k : cont) (greedy : bool) :
  forall n lo prev s,
    length s <= n ->
    rep_loop (rmatch r) k greedy (S n) lo prev s
    = rep_loop (rmatch r) k greedy n lo prev s.
Proof.
  induction n as [|n IH]; intros lo prev s Hn.
  - destruct s as [|c s]; [ | simpl in Hn; lia].
    cbn [rep_loop]. rewrite (rmatch_ext r _ (fun _ _ => None)).
    + rewrite rmatch_dead. destruct lo, greedy; cbn [orelse];
        try rewrite orelse_none; reflexivity.
    + intros p' s'. reflexivity.
  - change (rep_loop (rmatch r) k greedy (S (S n)) lo prev s)
      with (let more :=
              rmatch r (fun p' s' =>
                          if length s' <? length s
                          then rep_loop (rmatch r) k greedy (S n) (pred lo)
                                 p' s'
                          else None) prev s in
            match lo with
            | S _ => more
            | 0 => if greedy then orelse more (k prev s)
                   else orelse (k prev s) more
            end).
    cbv zeta.
    rewrite (rmatch_ext r _
               (fun p' s' =>
                  if length s' <? length s
                  then rep_loop (rmatch r) k greedy n (pred lo) p' s'
                  else None)); [reflexivity | ].
    intros p' s'. destruct (length s' <? length s) eqn:E; [ | reflexivity].
    apply Nat.ltb_lt in E. apply IH. lia.
Qed.

(** Any bound from the length of the rest on gives the answer of the
    matcher. *)
Lemma rep_loop_bound_enough (r : re) (k : cont) (greedy : bool)
  (lo : nat) prev (s : str) (extra : nat) :
  rep_loop (rmatch r) k greedy (length s + extra) lo prev s
  = rmatch (Rep greedy lo r) k prev s.
Proof.
  cbn [rmatch]. induction extra as [|extra IH].
  - rewrite Nat.add_0_r. reflexivity.
  - rewrite Nat.add_succ_r, rep_loop_bound_step by lia. exact IH.
Qed.

(** *** Lengths *)

Lemma lstrip_length (s : str) : length (lstrip s) <= length s.
Proof.
  induction s as [|c s IH]; simpl; [lia | ].
  destruct (isspace c); simpl; lia.
Qed.

Lemma strip_length (s : str) : length (strip s) <= length s.
Proof.
  unfold strip, rstrip. rewrite length_rev.
  pose proof (lstrip_length (rev (lstrip s))) as H.
  rewrite length_rev in H. pose proof (lstrip_length s). lia.
Qed.

(** A match does not reach beyond the end of the text. *)
Lemma match_len_bound (r : re) prev (s : str) (n : nat) :
  match_len r prev s = Some n -> n < length s.
Proof.
  unfold match_len. destruct (match_at r prev s) as [s'|]; [ | discriminate].
  destruct (length s - length s') eqn:E; [discriminate | ].
  intros H. injection H as <-. lia.
Qed.

(** [re.sub] does not lengthen a text when the replacement is no longer
    than any match. *)
Lemma sub_go_length (r : re) (repl : str) :
  (forall prev s n, match_len r prev s = Some n -> length repl <= S n) ->
  forall (s : str) (skip : nat) prev,
    length (sub_go r repl skip prev s) + Nat.min skip (length s) <= length s.
Proof.
  intros Hr. induction s as [|c s IH]; intros skip prev; simpl.
  - lia.
  - destruct skip as [|k].
    + destruct (match_len r prev (c :: s)) as [n|] eqn:E.
      * pose proof (Hr _ _ _ E). pose proof (match_len_bound _ _ _ _ E) as Hb.
        simpl in Hb. specialize (IH n (Some c)).
        rewrite length_app. lia.
      * specialize (IH 0 (Some c)). simpl. lia.
    + specialize (IH k (Some c)). lia.
Qed.

Lemma re_sub_length (r : re) (repl s : str) :
  (forall prev s n, match_len r prev s = Some n -> length repl <= S n) ->
  length (re_sub r repl s) <= length s.
Proof.
  intros Hr. unfold re_sub.
  pose proof (sub_go_length r repl Hr s 0 None). lia.
Qed.

Lemma re_sub_empty_length (r : re) (s : str) :
  length (re_sub r [] s) <= length s.
Proof. apply re_sub_length. intros. simpl. lia. Qed.

(** A repetition of a character class consumes at least the iterations it
    owes. *)
Lemma rep_loop_chr_owed (p : ascii -> bool) (greedy : bool) :
  forall (n lo : nat) prev (s out : str),
    rep_loop (rmatch (Chr p)) (fun _ s' => Some s') greedy n lo prev s
      = Some out ->
    length out + lo <= length s.
Proof.
  induction n as [|n IH]; intros lo prev s out; simpl.
  - destruct lo; [ | discriminate]. intros H. injection H as <-. lia.
  - destruct s as [|c s].
    + destruct lo; [ | discriminate].
      destruct greedy; simpl; intros H; injection H as <-; simpl; lia.
    + match goal with
      | |- context [if p c then ?X else None] =>
          remember (if p c then X else None) as more eqn:Em
      end.
      assert (Hmore : forall o, more = Some o ->
                                length o + pred lo <= length s).
      { intros o Ho. subst more. destruct (p c); [ | discriminate].
        destruct (length s <? length (c :: s)); [ | discriminate].
        apply IH in Ho. exact Ho. }
      clear Em. destruct lo as [|lo].
      * destruct greedy, more as [o|]; unfold orelse; intros H;
          injection H as <-;
          try (specialize (Hmore _ eq_refl)); simpl in *; lia.
      * intros H. apply Hmore in H. simpl in *. lia.
Qed.

(** *** Split and join *)

Lemma startswith_app (p s : str) :
  startswith p s = true -> s = p ++ skipn (length p) s.
Proof.
  revert s. induction p as [|x p IH]; intros s H; simpl in *; [reflexivity | ].
  destruct s as [|y s]; [discriminate | ].
  apply andb_prop in H as [Hxy Hp]. apply eqc_true in Hxy. subst y.
  simpl. f_equal. apply IH, Hp.
Qed.

Lemma startswith_length (p s : str) :
  startswith p s = true -> length p <= length s.
Proof.
  intros H. apply startswith_app in H.
  rewrite H, length_app. lia.
Qed.

Lemma split_go_nonempty (sep : str) (s : str) (skip : nat) :
  split_go sep skip s <> [].
Proof.
  revert skip. induction s as [|c s IH]; intros skip; simpl; [discriminate | ].
  destruct skip as [|k]; [ | apply IH].
  destruct (startswith sep (c :: s)); [discriminate | ].
  specialize (IH 0).
  destruct (split_go sep 0 s); [contradiction | discriminate].
Qed.

Lemma join_cons (sep p : str) (l : list str) :
  l <> [] -> join sep (p :: l) = p ++ sep ++ join sep l.
Proof. destruct l; [contradiction | reflexivity]. Qed.

Lemma join_cons_head (sep : str) (c : ascii) (l : list str) :
  l <> [] -> join sep (cons_head c l) = c :: join sep l.
Proof.
  destruct l as [|p l]; [contradiction | ]. intros _.
  destruct l; reflexivity.
Qed.

(** Joining the pieces of a split with the separator gives the text
    back. *)
Lemma join_split_go (sep : str) :
  sep <> [] ->
  forall (s : str) (skip : nat),
    skip <= length s -> join sep (split_go sep skip s) = skipn skip s.
Proof.
  intros Hsep. induction s as [|c s IH]; intros skip Hk.
  - simpl in Hk. assert (skip = 0) by lia. subst. reflexivity.
  - simpl. destruct skip as [|k].
    + destruct (startswith sep (c :: s)) eqn:E.
      * pose proof (startswith_length _ _ E) as Hl.
        apply startswith_app in E. simpl in Hl.
        rewrite join_cons by apply split_go_nonempty.
        rewrite IH by lia. simpl.
        destruct sep as [|x sep]; [contradiction | ].
        simpl in *. rewrite Nat.sub_0_r. symmetry. exact E.
      * rewrite join_cons_head by apply split_go_nonempty.
        rewrite (IH 0) by lia. reflexivity.
    + simpl in Hk. apply IH. lia.
Qed.

Lemma join_split (sep s : str) : sep <> [] -> join sep (split sep s) = s.
Proof.
  intros Hsep. unfold split. rewrite join_split_go by (assumption || lia).
  reflexivity.
Qed.

Lemma join_tail_length (sep p : str) (l : list str) :
  length (join sep l) <= length (join sep (p :: l)).
Proof.
  destruct l as [|q l]; [simpl; lia | ].
  rewrite (join_cons sep p) by discriminate. rewrite !length_app. lia.
Qed.

Lemma join_head_length (sep p : str) (l : list str) :
  length p <= length (join sep (p :: l)).
Proof.
  destruct l as [|q l]; [simpl; lia | ].
  rewrite (join_cons sep p) by discriminate. rewrite !length_app. lia.
Qed.

End ReFacts.

(** ** classify *)

Module ClassifyProps.
Import Py Re Classify Samples.
Open Scope Z_scope.

Ltac listed := unfold doc_types; simpl; tauto.

Ltac step_case :=
  match goal with
  | |- context [if ?b then _ else _] => destruct b eqn:?
  end.

Lemma name_hits_nonneg (l : list string) (low : str) : 0 <= name_hits l low.
Proof. unfold name_hits. apply Nat2Z.is_nonneg. Qed.

Lemma step_email_sound low v : sound v -> sound (step_email low v).
Proof.
  unfold step_email, sound. intros [Ht Hs].
  step_case; simpl; split; try assumption; [listed | lia].
Qed.

Lemma step_deposition_sound low v : sound v -> sound (step_deposition low v).
Proof.
  unfold step_deposition, sound. destruct v as [ty sc]. simpl. intros [Ht Hs].
  step_case; simpl; [ | tauto ].
  split; [ step_case; [listed | assumption] | lia ].
Qed.

Lemma step_law_sound low v : sound v -> sound (step_law low v).
Proof.
  unfold step_law, sound. destruct v as [ty sc]. simpl. intros [Ht Hs].
  step_case; simpl; [ split; [listed | lia] | tauto ].
Qed.

Lemma step_legal_sound low v : sound v -> sound (step_legal low v).
Proof.
  unfold step_legal, sound. destruct v as [ty sc]. simpl. intros [Ht Hs].
  step_case; simpl; [ | tauto ].
  split; [ step_case; [listed | assumption] | lia ].
Qed.

Lemma step_phone_sound low v : sound v -> sound (step_phone low v).
Proof.
  unfold step_phone, sound. intros [Ht Hs].
  step_case; simpl; split; try assumption; [listed | lia].
Qed.

Lemma step_files_sound low v : sound v -> sound (step_files low v).
Proof.
  unfold step_files, sound. intros [Ht Hs].
  step_case; simpl; split; try assumption; [listed | lia].
Qed.

Lemma step_evidence_sound low v : sound v -> sound (step_evidence low v).
Proof.
  unfold step_evidence, sound. intros [Ht Hs].
  step_case; simpl; split; try assumption; [listed | lia].
Qed.

Lemma before_evidence_sound low : sound (before_evidence low).
Proof.
  unfold before_evidence.
  apply step_files_sound, step_phone_sound, step_legal_sound, step_law_sound,
    step_deposition_sound, step_email_sound.
  split; [listed | simpl; lia].
Qed.

Lemma step_names_sound low v : sound v -> sound (step_names low v).
Proof.
  unfold step_names, sound. destruct v as [ty sc]. simpl. intros [Ht Hs].
  split; [assumption | ]. pose proof (name_hits_nonneg names low). lia.
Qed.

Lemma length_bonus_range n : 0 <= length_bonus n <= 20.
Proof. unfold length_bonus. repeat step_case; lia. Qed.

Lemma step_length_eq n ty sc :
  step_length n (ty, sc) = (ty, sc + length_bonus n).
Proof.
  unfold step_length, length_bonus. repeat step_case; f_equal; lia.
Qed.

Lemma step_length_sound n v : sound v -> sound (step_length n v).
Proof.
  destruct v as [ty sc]. rewrite step_length_eq. unfold sound. simpl.
  intros [Ht Hs]. pose proof (length_bonus_range n). split; [assumption | lia].
Qed.

Lemma step_final_domain n v : sound v -> in_domain (step_final n v).
Proof.
  unfold step_final, sound, in_domain. destruct v as [ty sc]. simpl.
  intros [Ht Hs].
  repeat step_case; simpl; (split; [first [listed | assumption] | lia]).
Qed.

(** [classify] always answers within the domains. *)
Lemma classify_in_domain (text : option str) (page_count : Z) :
  in_domain (classify text page_count).
Proof.
  unfold classify.
  destruct (is_empty _); [ split; [listed | simpl; lia] | ].
  destruct (is_garbage _); [ split; [listed | simpl; lia] | ].
  apply step_final_domain, step_length_sound, step_names_sound,
    step_evidence_sound, before_evidence_sound.
Qed.

Lemma classify_past_gates (text : option str) (page_count : Z) :
  passes_gates text = true ->
  classify text page_count =
  step_final (len (stripped_of text))
    (step_length (len (stripped_of text))
       (step_names (lowered text)
          (step_evidence (lowered text) (before_evidence (lowered text))))).
Proof.
  unfold passes_gates, classify, lowered, stripped_of. intros H.
  apply andb_prop in H as [He Hg].
  apply negb_true_iff in He, Hg. rewrite He, Hg. reflexivity.
Qed.

(** C4, as the code has it.  For every text past the two gates that
    matches an evidence or property marker, the evidence step leaves the
    pair [(evidence_list, 30)] whatever the steps before it had reached: the
    score is assigned, not raised to at least 30.  The answer of [classify]
    is then [evidence_list] with 30 plus the boosts for names and length,
    capped at 100. *)
Theorem evidence_step_assigns_30 (text : option str) (page_count : Z) :
  passes_gates text = true ->
  re_search evidence_re (lowered text) = true ->
  step_evidence (lowered text) (before_evidence (lowered text))
    = ("evidence_list"%string, 30)
  /\ fst (classify text page_count) = "evidence_list"%string
  /\ snd (classify text page_count)
     = Z.min (30 + name_hits names (lowered text) * 10
              + length_bonus (len (stripped_of text))) 100.
Proof.
  intros Hg He. rewrite (classify_past_gates text page_count Hg).
  unfold step_evidence. rewrite He. unfold step_names.
  rewrite step_length_eq. unfold step_final. simpl. auto.
Qed.

(** The theorem at the text [fbi_evidence]. *)
Lemma evidence_step_assigns_30_witness :
  passes_gates (Some fbi_evidence) = true
  /\ re_search evidence_re (lowered (Some fbi_evidence)) = true
  /\ fst (classify (Some fbi_evidence) 1) = "evidence_list"%string.
Proof.
  assert (Hg : passes_gates (Some fbi_evidence) = true)
    by (vm_compute; reflexivity).
  assert (He : re_search evidence_re (lowered (Some fbi_evidence)) = true)
    by (vm_compute; reflexivity).
  split; [exact Hg | split; [exact He | ]].
  exact (proj1 (proj2 (evidence_step_assigns_30 (Some fbi_evidence) 1 Hg He))).
Defined.

(** C4, as it is stated, fails on a text that names the FBI and mentions
    evidence: the steps before the evidence step have reached 80, and the
    evidence step leaves 30, not [max 80 30]. *)
Lemma evidence_step_lowers_score :
  passes_gates (Some fbi_evidence) = true
  /\ re_search evidence_re (lowered (Some fbi_evidence)) = true
  /\ before_evidence (lowered (Some fbi_evidence))
     = ("law_enforcement"%string, 80)
  /\ step_evidence (lowered (Some fbi_evidence))
       (before_evidence (lowered (Some fbi_evidence)))
     <> ("evidence_list"%string,
         Z.max (snd (before_evidence (lowered (Some fbi_evidence)))) 30)
  /\ classify (Some fbi_evidence) 1 = ("evidence_list"%string, 30).
Proof.
  repeat split; try (vm_compute; reflexivity).
  vm_compute. discriminate.
Qed.

(** Where the deposition pattern is found, the step makes a text that is
    still [other] a deposition and raises the score to 70 at least. *)
Lemma step_deposition_effect (low : str) (ty : string) (sc : Z) :
  re_search deposition_re low = true ->
  step_deposition low (ty, sc)
  = ((if is_other ty then "deposition"%string else ty), Z.max sc 70).
Proof. intros H. unfold step_deposition. rewrite H. reflexivity. Qed.

(** The three alternatives of [deposition_re] that are written in capitals
    are dead: [classify] searches the lowered text. *)
Lemma deposition_re_on_lowered (s : str) :
  re_search deposition_re (lower s) = re_search deposition_words_re (lower s).
Proof.
  unfold re_search. apply ReFacts.search_go_lower_ext. intros prev t.
  unfold match_at, deposition_re, deposition_words_re.
  cbn [rmatch alts].
  rewrite (ReFacts.upper_lit_fails "Q" ".") by reflexivity.
  rewrite (ReFacts.upper_lit_fails "A" ".") by reflexivity.
  rewrite (ReFacts.upper_lit_fails "W" "ITNESS") by reflexivity.
  reflexivity.
Qed.

(** C5, on the code.  [classify] searches [Q\.\s], [A\.\s] and [WITNESS]
    in the lowered text, where they match nowhere; a dialogue whose only
    markers are [Q. ] and [A. ], and a text whose only marker is the word
    witness, are classified [minimal] with score 0, not [deposition] with
    score 70 or more.  A text with the word sworn is. *)
Theorem dialogue_markers_missed :
  (forall s, re_search deposition_re (lower s)
             = re_search deposition_words_re (lower s))
  /\ passes_gates (Some dialogue) = true
  /\ classify (Some dialogue) 1 = ("minimal"%string, 0)
  /\ passes_gates (Some witness_note) = true
  /\ classify (Some witness_note) 1 = ("minimal"%string, 0)
  /\ classify (Some sworn_note) 1 = ("deposition"%string, 70).
Proof.
  split; [exact deposition_re_on_lowered | ].
  repeat split; vm_compute; reflexivity.
Qed.

End ClassifyProps.

(** ** reclassify *)

Module ReclassifyProps.
Import Py Re Condense Samples.
Import ClassifyProps.
Open Scope Z_scope.

Lemma step_key_names_eq c ty sc :
  step_key_names c (ty, sc) = (ty, sc + name_hits key_names (lower c) * 8).
Proof. reflexivity. Qed.

Lemma step_long_eq c ty sc : step_long c (ty, sc) = (ty, sc + long_bonus c).
Proof. unfold step_long, long_bonus. repeat step_case; f_equal; lia. Qed.

Lemma long_bonus_range c : 0 <= long_bonus c <= 20.
Proof. unfold long_bonus. repeat step_case; lia. Qed.

Lemma signal_bonus_nonneg c : 0 <= signal_bonus c.
Proof. unfold signal_bonus. repeat step_case; lia. Qed.

(** The score after the steps up to the e-mail step does not depend on the
    type. *)
Lemma before_tabular_score c ty sc :
  snd (before_tabular c (ty, sc)) = sc + signal_bonus c.
Proof.
  unfold before_tabular, step_email_content, step_substance, step_invest,
    step_narrative, signal_bonus.
  repeat step_case; simpl; lia.
Qed.

(** A deposition stays one up to the e-mail step, which alone overrides
    it. *)
Lemma before_tabular_deposition c sc :
  fst (before_tabular c ("deposition"%string, sc))
  = if email_rule c then "email"%string else "deposition"%string.
Proof.
  unfold before_tabular, step_email_content, step_substance, step_invest,
    step_narrative.
  repeat step_case; simpl in *; try reflexivity; discriminate.
Qed.

Lemma before_tabular_sound prior c v :
  sound_from prior v -> sound_from prior (before_tabular c v).
Proof.
  destruct v as [ty sc]. unfold sound_from. intros [Ht Hs]. split.
  - unfold before_tabular, step_email_content, step_substance, step_invest,
      step_narrative.
    repeat step_case; simpl in *; try assumption; left; listed.
  - rewrite before_tabular_score. pose proof (signal_bonus_nonneg c).
    simpl in Hs. lia.
Qed.

Lemma step_tabular_eq c ty sc :
  step_tabular c (ty, sc)
  = (ty, if is_tabular c then Z.max (sc - 20) 0 else sc).
Proof. unfold step_tabular. destruct (is_tabular c); reflexivity. Qed.

Lemma before_clamp_eq c v :
  before_clamp c v
  = (fst (before_tabular c v),
     (if is_tabular c then Z.max (snd (before_tabular c v) - 20) 0
      else snd (before_tabular c v)) + long_bonus c).
Proof.
  unfold before_clamp. destruct (before_tabular c v) as [ty sc].
  rewrite step_tabular_eq, step_long_eq. reflexivity.
Qed.

Lemma after_dialogue_sound prior c v :
  sound_from prior v ->
  (In (fst (after_dialogue c v)) doc_types \/ fst (after_dialogue c v) = prior)
  /\ 0 <= snd (after_dialogue c v) <= 100.
Proof.
  intros H. apply (before_tabular_sound prior c) in H. destruct H as [Ht Hs].
  unfold after_dialogue. rewrite before_clamp_eq. unfold step_clamp. simpl.
  split; [exact Ht | ]. pose proof (long_bonus_range c).
  destruct (is_tabular c); lia.
Qed.

Lemma step_dialogue_sound prior c v :
  sound_from prior v -> sound_from prior (step_dialogue c v).
Proof.
  destruct v as [ty sc]. unfold step_dialogue, sound_from. simpl.
  intros [Ht Hs]. step_case; simpl; [ | tauto].
  split; [left; listed | lia].
Qed.

Lemma reclassify_sound text condensed prior page_count :
  (In (fst (reclassify text condensed prior page_count)) doc_types
   \/ fst (reclassify text condensed prior page_count) = prior)
  /\ 0 <= snd (reclassify text condensed prior page_count) <= 100.
Proof.
  unfold reclassify. destruct condensed as [c|];
    [ | simpl; split; [left; listed | lia] ].
  destruct (is_blank (Some c)); [ simpl; split; [left; listed | lia] | ].
  apply after_dialogue_sound, step_dialogue_sound.
  rewrite step_key_names_eq. unfold sound_from. simpl.
  pose proof (name_hits_nonneg key_names (lower c)). split; [tauto | lia].
Qed.

(** C2, as the code has it.  [classify] answers, for every text ([None]
    included) and page count, a type of the closed enumeration and a score
    in [0, 100].  [reclassify] answers, for all its arguments, a score in
    [0, 100] and a type that is one of the enumeration or the type it was
    given: it is in the enumeration whenever the prior type is. *)
Theorem classify_reclassify_domains
  (text : option str) (page_count : Z)
  (original condensed : option str) (prior : string) (pages : Z) :
  (In (fst (classify text page_count)) doc_types
   /\ 0 <= snd (classify text page_count) <= 100)
  /\ ((In (fst (reclassify original condensed prior pages)) doc_types
       \/ fst (reclassify original condensed prior pages) = prior)
      /\ 0 <= snd (reclassify original condensed prior pages) <= 100).
Proof.
  split; [apply classify_in_domain | apply reclassify_sound].
Qed.

(** C2, as it is stated, fails for [reclassify]: given the type [''], the
    default of the column [doc_type], and a text without any marker, it
    answers [''], which is not in the enumeration. *)
Lemma reclassify_returns_prior_type :
  reclassify None (Some plain_words) ""%string 0 = (""%string, 0)
  /\ ~ In (fst (reclassify None (Some plain_words) ""%string 0)) doc_types.
Proof.
  split; [vm_compute; reflexivity | ].
  vm_compute. intros H.
  repeat (destruct H as [H | H]; [discriminate H | ]). exact H.
Qed.

(** C10.  [classify] does not read its page count; [reclassify] reads
    neither the original text nor the page count. *)
Theorem page_count_and_original_ignored
  (t : option str) (p1 p2 : Z)
  (original1 original2 condensed : option str) (prior : string) (q1 q2 : Z) :
  classify t p1 = classify t p2
  /\ reclassify original1 condensed prior q1
     = reclassify original2 condensed prior q2.
Proof. split; reflexivity. Qed.

(** C6, as the code has it.  For a condensed text of stripped length 30 or
    more with more than five matches of the dialogue marker, the dialogue
    step sets the type to [deposition] and adds 30 to the running score.
    The type answered is [deposition] unless the e-mail rule fires, which
    makes it [email].  The score answered lies between the score of the
    same computation without the dialogue step and that score plus 30; it
    is that score plus 30 when the score before the cap is at most 100 and
    the demotion of tabular text is not stopped by its floor of 0. *)
Theorem dialogue_step_effect
  (text : option str) (c : str) (prior : string) (page_count : Z) :
  is_blank (Some c) = false ->
  (5 < qa_count c)%nat ->
  step_dialogue c (step_key_names c (prior, 0))
    = ("deposition"%string, snd (step_key_names c (prior, 0)) + 30)
  /\ fst (reclassify text (Some c) prior page_count)
     = (if email_rule c then "email"%string else "deposition"%string)
  /\ snd (reclassify_no_dialogue c prior)
       <= snd (reclassify text (Some c) prior page_count)
       <= snd (reclassify_no_dialogue c prior) + 30
  /\ (snd (before_clamp c (step_dialogue c (step_key_names c (prior, 0))))
       <= 100 ->
      is_tabular c = false
      \/ 20 <= snd (before_tabular c (step_key_names c (prior, 0))) ->
      snd (reclassify text (Some c) prior page_count)
      = snd (reclassify_no_dialogue c prior) + 30).
Proof.
  intros Hb Hq. apply Nat.ltb_lt in Hq.
  assert (Hd : step_dialogue c (step_key_names c (prior, 0))
               = ("deposition"%string,
                  snd (step_key_names c (prior, 0)) + 30)).
  { rewrite step_key_names_eq. unfold step_dialogue. rewrite Hq. reflexivity. }
  unfold reclassify, reclassify_no_dialogue. rewrite Hb, Hd.
  unfold after_dialogue. rewrite !before_clamp_eq. unfold step_clamp.
  rewrite step_key_names_eq. cbn [fst snd].
  rewrite !before_tabular_score, before_tabular_deposition.
  pose proof (long_bonus_range c). pose proof (signal_bonus_nonneg c).
  pose proof (name_hits_nonneg key_names (lower c)).
  split; [reflexivity | ]. split; [reflexivity | ].
  destruct (is_tabular c); split; try lia;
    intros Hcap [Hf | Hf]; try discriminate; lia.
Qed.

(** The theorem at the plain dialogue of six markers: the type is
    [deposition] and the score is 30 above the score without the dialogue
    step. *)
Lemma dialogue_step_effect_witness :
  is_blank (Some plain_dialogue) = false
  /\ (5 < qa_count plain_dialogue)%nat
  /\ fst (reclassify None (Some plain_dialogue) "other"%string 1)
     = "deposition"%string
  /\ snd (reclassify None (Some plain_dialogue) "other"%string 1)
     = snd (reclassify_no_dialogue plain_dialogue "other"%string) + 30.
Proof.
  assert (Hb : is_blank (Some plain_dialogue) = false)
    by (vm_compute; reflexivity).
  assert (Hq : (5 < qa_count plain_dialogue)%nat) by (vm_compute; lia).
  destruct (dialogue_step_effect None plain_dialogue "other"%string 1 Hb Hq)
    as (_ & Hty & _ & Hsc).
  split; [exact Hb | split; [exact Hq | split]].
  - rewrite Hty. vm_compute. reflexivity.
  - apply Hsc; [vm_compute; discriminate | left; vm_compute; reflexivity].
Defined.

(** C6, as it is stated, fails on an e-mail that quotes six dialogue
    markers and five names: the type answered is [email], not [deposition],
    and the score is 100, which is 25 above the score without the dialogue
    step and 35 above the score of the text with the markers deleted. *)
Lemma dialogue_markers_in_email :
  is_blank (Some quoted_dialogue) = false
  /\ (5 < qa_count quoted_dialogue)%nat
  /\ (5 < count (T "Q. ") quoted_dialogue + count (T "A. ") quoted_dialogue)%nat
  /\ reclassify None (Some quoted_dialogue) "other"%string 1
     = ("email"%string, 100)
  /\ reclassify_no_dialogue quoted_dialogue "other"%string
     = ("email"%string, 75)
  /\ qa_count (re_sub qa_re [] quoted_dialogue) = 0%nat
  /\ reclassify None (Some (re_sub qa_re [] quoted_dialogue)) "other"%string 1
     = ("email"%string, 65).
Proof.
  repeat split; try (vm_compute; reflexivity); vm_compute; lia.
Qed.

End ReclassifyProps.

(** ** condense_text *)

Module CondenseProps.
Import Py Re Condense Samples ReFacts.
Open Scope nat_scope.

Lemma fold_sub_length (pats : list re) (page : str) :
  length (fold_left (fun cleaned pat => re_sub pat [] cleaned) pats page)
  <= length page.
Proof.
  revert page. induction pats as [|pat pats IH]; intros page; simpl; [lia | ].
  specialize (IH (re_sub pat [] page)).
  pose proof (re_sub_empty_length pat page). lia.
Qed.

Lemma strip_junk_length (page : str) : length (strip_junk page) <= length page.
Proof. apply fold_sub_length. Qed.

(** A run of blank lines is replaced by a shorter one. *)
Lemma blank_run_length (s : str) : length (re_sub blank_run sep2 s) <= length s.
Proof.
  apply re_sub_length. intros prev t n. unfold match_len, match_at, blank_run.
  cbn [rmatch].
  destruct (rep_loop _ _ _ _ _ _ _) as [out|] eqn:E; [ | discriminate].
  apply rep_loop_chr_owed in E.
  destruct (length t - length out) eqn:D; [discriminate | ].
  intros H. injection H as <-. simpl. lia.
Qed.

Lemma condense_page_length (page cleaned : str) :
  condense_page page = Some cleaned -> length cleaned <= length page.
Proof.
  unfold condense_page. destruct (is_junk_page page); [discriminate | ].
  destruct (15 <? _); [ | discriminate]. intros H. injection H as <-.
  pose proof (strip_length (re_sub blank_run sep2 (strip_junk page))).
  pose proof (blank_run_length (strip_junk page)).
  pose proof (strip_junk_length page). lia.
Qed.

Lemma keep_pages_length (pages : list str) :
  length (join sep2 (keep_pages pages)) <= length (join sep2 pages).
Proof.
  induction pages as [|page rest IH]; [simpl; lia | ].
  cbn [keep_pages]. destruct (condense_page page) as [cleaned|] eqn:E.
  - apply condense_page_length in E.
    destruct (keep_pages rest) as [|q kept] eqn:K.
    + pose proof (join_head_length sep2 page rest).
      change (join sep2 [cleaned]) with cleaned. lia.
    + destruct rest as [|r rest]; [discriminate K | ].
      rewrite (join_cons sep2 cleaned) by discriminate.
      rewrite (join_cons sep2 page) by discriminate.
      rewrite !length_app. lia.
  - pose proof (join_tail_length sep2 page rest). lia.
Qed.

(** [condense_text] never lengthens a text. *)
Lemma condense_text_shrinks (t : str) :
  length (condense_text (Some t)) <= length t.
Proof.
  unfold condense_text. destruct t as [|c t]; [simpl; lia | ].
  pose proof (keep_pages_length (split sep2 (c :: t))) as H.
  rewrite join_split in H by discriminate. exact H.
Qed.

(** C7, as the code has it.  Applying [condense_text] to its own output
    does not lengthen it: for every text [t] ([None] included),
    [condense_text(condense_text(t))] is no longer than
    [condense_text(t)]. *)
Theorem condense_twice_shrinks (t : option str) :
  length (condense_text (Some (condense_text t)))
  <= length (condense_text t).
Proof. apply condense_text_shrinks. Qed.

(** C7, as it is stated, fails on a page that ends with the stamp
    [original] three times over.  Each pass strips the last stamp only, so
    the fourth boilerplate pattern, which matched in the text and was
    stripped from it, still matches in the output of the second pass. *)
Lemma stripped_pattern_matches_again :
  re_search (nth 3 JUNK_PATTERNS Eps) stamped = true
  /\ re_sub (nth 3 JUNK_PATTERNS Eps) [] stamped
     = T "this page is marked originaloriginal"
  /\ condense_text (Some stamped) = T "this page is marked originaloriginal"
  /\ condense_text (Some (condense_text (Some stamped)))
     = T "this page is marked original"
  /\ re_search (nth 3 JUNK_PATTERNS Eps)
       (condense_text (Some (condense_text (Some stamped)))) = true.
Proof. repeat split; vm_compute; reflexivity. Qed.

End CondenseProps.

(** ** search *)

Module SearchProps.
Import Py Re Store App Samples.
Open Scope nat_scope.

Lemma lstrip_head (s : str) (c : ascii) (s' : str) :
  lstrip s = c :: s' -> isspace c = false.
Proof.
  induction s as [|x s IH]; simpl; [discriminate | ].
  destruct (isspace x) eqn:E; [exact IH | ].
  intros H. injection H as <- _. exact E.
Qed.

Lemma lstrip_snoc (a : str) (c : ascii) :
  isspace c = false -> lstrip (a ++ [c]) = lstrip a ++ [c].
Proof.
  intros Hc. induction a as [|x a IH]; simpl.
  - rewrite Hc. reflexivity.
  - destruct (isspace x); [exact IH | reflexivity].
Qed.

(** A stripped text does not begin with whitespace. *)
Lemma strip_head (x : str) (c : ascii) (s : str) :
  strip x = c :: s -> isspace c = false.
Proof.
  unfold strip, rstrip. destruct (lstrip x) as [|y ys] eqn:E.
  - simpl. discriminate.
  - pose proof (lstrip_head _ _ _ E) as Hy.
    cbn [rev]. rewrite (lstrip_snoc _ _ Hy), rev_app_distr. simpl.
    intros H. injection H as <- _. exact Hy.
Qed.

Lemma split_ws_go_pending (s cur : str) : cur <> [] -> split_ws_go cur s <> [].
Proof.
  revert cur. induction s as [|c s IH]; intros cur Hcur; simpl.
  - destruct cur; [contradiction | discriminate].
  - destruct (isspace c).
    + destruct cur; [contradiction | discriminate].
    + apply IH. discriminate.
Qed.

(** A query that is not blank has a first token. *)
Lemma query_has_token (arg : option str) :
  query_of arg <> [] -> split_ws (query_of arg) <> [].
Proof.
  unfold query_of. destruct (strip _) as [|c s] eqn:E; [contradiction | ].
  intros _. apply strip_head in E. unfold split_ws. simpl. rewrite E.
  apply split_ws_go_pending. discriminate.
Qed.

Lemma no_token_no_fts_query (q : str) :
  all_tokens_empty q -> _build_fts_query q = [].
Proof.
  unfold all_tokens_empty, _build_fts_query.
  induction 1 as [|t l Ht _ IH]; [reflexivity | ].
  cbn [flat_map]. rewrite Ht. exact IH.
Qed.

(** What [search] does once the primary statement has given no row. *)
Lemma search_falls_back (cur : Cursor) (arg : option str)
  (first : str) (rest : list str) :
  split_ws (query_of arg) = first :: rest ->
  _build_fts_query (query_of arg) = []
  \/ exec_match cur (_build_fts_query (query_of arg)) = Returned []
  \/ (exists e, exec_match cur (_build_fts_query (query_of arg)) = Raised e) ->
  search cur arg
  = ((match _build_fts_query (query_of arg) with
      | [] => []
      | fts_q => [Match fts_q]
      end) ++ [Like first (like_pattern (query_of arg))],
     exec_like cur first (like_pattern (query_of arg))).
Proof.
  intros Htok Hprim. unfold search.
  destruct (query_of arg) as [|c q] eqn:Eq; [discriminate Htok | ].
  rewrite Htok.
  destruct (_build_fts_query (c :: q)) as [|x fts] eqn:Ef; [reflexivity | ].
  destruct Hprim as [H | [H | [e H]]]; [discriminate H | | ];
    rewrite H; reflexivity.
Qed.

(** C1, as the code has it.  For a query whose tokens all become empty when
    their non-word characters are removed: a blank query returns the empty
    list and issues no statement; a query that is not blank, such as [???],
    skips the primary full-text statement, issues the substring fallback
    with the pattern made of its tokens, and returns what the fallback
    returns. *)
Theorem punctuation_query_runs_fallback (cur : Cursor) (arg : option str) :
  all_tokens_empty (query_of arg) ->
  (query_of arg = [] -> search cur arg = ([], Returned []))
  /\ (query_of arg <> [] ->
      exists first rest,
        split_ws (query_of arg) = first :: rest
        /\ search cur arg
           = ([Like first (like_pattern (query_of arg))],
              exec_like cur first (like_pattern (query_of arg)))).
Proof.
  intros Hall. split.
  - intros Hq. unfold search. rewrite Hq. reflexivity.
  - intros Hq. pose proof (query_has_token arg Hq) as Htok.
    destruct (split_ws (query_of arg)) as [|first rest] eqn:Es;
      [contradiction | ].
    exists first, rest. split; [reflexivity | ].
    rewrite (search_falls_back cur arg first rest Es)
      by (left; apply no_token_no_fts_query, Hall).
    rewrite (no_token_no_fts_query _ Hall). reflexivity.
Qed.

(** The theorem at the query [???] on the store [marks_db]. *)
Lemma punctuation_query_runs_fallback_witness :
  all_tokens_empty (query_of (Some (T "???")))
  /\ search marks_cursor (Some (T "???"))
     = ([Like (T "???") (T "%???%")],
        exec_like marks_cursor (T "???") (T "%???%")).
Proof.
  assert (Hall : all_tokens_empty (query_of (Some (T "???")))).
  { unfold all_tokens_empty. vm_compute. repeat constructor. }
  split; [exact Hall | ].
  destruct (proj2 (punctuation_query_runs_fallback marks_cursor
                     (Some (T "???")) Hall))
    as (first & rest & Hs & Hr); [vm_compute; discriminate | ].
  rewrite Hr. vm_compute in Hs. injection Hs as <- <-. reflexivity.
Defined.

(** C1, as it is stated, fails on the query [???] over a store with a page
    that contains [???]: every token is empty without its non-word
    characters, yet the fallback statement is issued and one row is
    returned. *)
Lemma punctuation_query_finds_rows :
  all_tokens_empty (query_of (Some (T "???")))
  /\ fst (search marks_cursor (Some (T "???")))
     = [Like (T "???") (T "%???%")]
  /\ snd (search marks_cursor (Some (T "???")))
     = Returned [mkRow 1 (T "a.pdf") 1 (T "what??? really")].
Proof.
  split; [unfold all_tokens_empty; vm_compute; repeat constructor | ].
  split; vm_compute; reflexivity.
Qed.

(** C8, as the code has it.  When the primary statement raises or returns
    no row (or is skipped for want of a token), [search] issues the
    fallback and answers exactly what the fallback answers: its rows, with
    no trace of the primary failure, or the exception that the fallback
    raises, which leaves [search] uncaught. *)
Theorem primary_failure_falls_back (cur : Cursor) (arg : option str)
  (first : str) (rest : list str) :
  split_ws (query_of arg) = first :: rest ->
  _build_fts_query (query_of arg) = []
  \/ exec_match cur (_build_fts_query (query_of arg)) = Returned []
  \/ (exists e, exec_match cur (_build_fts_query (query_of arg)) = Raised e) ->
  In (Like first (like_pattern (query_of arg))) (fst (search cur arg))
  /\ snd (search cur arg)
     = exec_like cur first (like_pattern (query_of arg)).
Proof.
  intros Htok Hprim.
  rewrite (search_falls_back cur arg first rest Htok Hprim). simpl.
  split; [ | reflexivity]. apply in_or_app. right. left. reflexivity.
Qed.

(** The theorem at the query [what real] on a store whose index is
    missing: the primary statement raises and the row found by the fallback
    is returned. *)
Lemma primary_failure_falls_back_witness :
  snd (search marks_cursor (Some (T "what real")))
  = Returned [mkRow 1 (T "a.pdf") 1 (T "what??? really")].
Proof.
  assert (Htok : split_ws (query_of (Some (T "what real")))
                 = [T "what"; T "real"]) by (vm_compute; reflexivity).
  rewrite (proj2 (primary_failure_falls_back marks_cursor
                    (Some (T "what real")) (T "what") [T "real"] Htok
                    (or_intror (or_intror
                       (ex_intro _ "no such table: search"%string eq_refl))))).
  vm_compute. reflexivity.
Defined.

(** C8, as it is stated, fails when both statements raise: the exception
    of the fallback leaves [search]; no empty list is returned. *)
Lemma fallback_failure_propagates :
  search locked_cursor (Some (T "grand jury"))
  = ([Match (T "grand* AND jury*"); Like (T "grand") (T "%grand%jury%")],
     Raised "database is locked")
  /\ snd (search locked_cursor (Some (T "grand jury"))) <> Returned [].
Proof.
  split; [vm_compute; reflexivity | vm_compute; discriminate].
Qed.

End SearchProps.

(** ** ingest and the stages *)

Module IngestProps.
Import Py Store Pipeline Samples.
Open Scope nat_scope.

Lemma eqs_refl (a : str) : eqs a a = true.
Proof.
  induction a as [|x a IH]; [reflexivity | ].
  simpl. unfold eqc. rewrite Ascii.eqb_refl. exact IH.
Qed.

Lemma in_insert_by (A : Type) (le : A -> A -> bool) (x y : A) (l : list A) :
  In x (insert_by le y l) <-> x = y \/ In x l.
Proof.
  induction l as [|z l IH]; simpl; [intuition | ].
  destruct (le y z); simpl; [intuition | ]. rewrite IH. intuition.
Qed.

Lemma in_order_by (A : Type) (le : A -> A -> bool) (x : A) (l : list A) :
  In x (order_by le l) <-> In x l.
Proof.
  unfold order_by. induction l as [|y l IH]; simpl; [tauto | ].
  rewrite in_insert_by, IH. intuition.
Qed.

Lemma extends_refl (db : Db) : extends db db.
Proof. repeat split; exists []; rewrite app_nil_r; reflexivity. Qed.

Lemma extends_trans (a b c : Db) : extends a b -> extends b c -> extends a c.
Proof.
  intros ([d1 H1] & [p1 H2] & [e1 H3]) ([d2 H4] & [p2 H5] & [e2 H6]).
  repeat split.
  - exists (d1 ++ d2). rewrite H4, H1, app_assoc. reflexivity.
  - exists (p1 ++ p2). rewrite H5, H2, app_assoc. reflexivity.
  - exists (e1 ++ e2). rewrite H6, H3, app_assoc. reflexivity.
Qed.

Lemma known_extends (db db' : Db) (name : str) :
  extends db db' -> known db name = true -> known db' name = true.
Proof.
  intros ([ds H] & _) Hk. unfold known in *.
  rewrite H, existsb_app, Hk. reflexivity.
Qed.

Lemma insert_pages_documents (id : nat) (l : list (nat * str)) (db : Db) :
  documents (fold_left (insert_page id) l db) = documents db.
Proof.
  revert db. induction l as [|[i t] l IH]; intros db; [reflexivity | ].
  simpl. rewrite IH. reflexivity.
Qed.

Lemma insert_pages_extends (id : nat) (l : list (nat * str)) (db : Db) :
  extends db (fold_left (insert_page id) l db).
Proof.
  revert db. induction l as [|[i t] l IH]; intros db; [apply extends_refl | ].
  simpl. eapply extends_trans; [ | apply IH].
  repeat split; simpl; eexists; try reflexivity.
  symmetry. apply app_nil_r.
Qed.

Lemma eqs_eq (a b : str) : eqs a b = true -> a = b.
Proof.
  revert b. induction a as [|x a IH]; intros [|y b] H; try discriminate;
    [reflexivity | ].
  simpl in H. apply andb_prop in H as [H1 H2].
  apply ReFacts.eqc_true in H1. subst y. f_equal. apply IH, H2.
Qed.

Section Ingest.
Variable fitz_open : str -> reading.
Variable bates_map : str -> option str.

(** A file whose name is stored already is skipped. *)
Lemma ingest_pdf_known (db : Db) (p : str) :
  known db (basename p) = true ->
  ingest_pdf fitz_open bates_map db p = Some db.
Proof. intros H. unfold ingest_pdf. rewrite H. reflexivity. Qed.

(** A file that cannot be opened is skipped. *)
Lemma ingest_pdf_unreadable (db : Db) (p : str) :
  fitz_open p = OpenError -> ingest_pdf fitz_open bates_map db p = Some db.
Proof.
  intros H. unfold ingest_pdf. rewrite H.
  destruct (known db (basename p)); reflexivity.
Qed.

(** A new file whose pages cannot be read makes its turn raise. *)
Lemma ingest_pdf_damaged (db : Db) (p : str) :
  known db (basename p) = false -> fitz_open p = PageError ->
  ingest_pdf fitz_open bates_map db p = None.
Proof. intros Hk H. unfold ingest_pdf. rewrite Hk, H. reflexivity. Qed.

Lemma ingest_pdf_extends (db db' : Db) (p : str) :
  ingest_pdf fitz_open bates_map db p = Some db' -> extends db db'.
Proof.
  unfold ingest_pdf.
  destruct (known db (basename p));
    [intros H; injection H as <-; apply extends_refl | ].
  destruct (fitz_open p) as [| |pages_text]; intros H;
    [injection H as <-; apply extends_refl | discriminate | ].
  injection H as <-.
  eapply extends_trans; [ | apply insert_pages_extends].
  repeat split; simpl; eexists; try reflexivity; symmetry; apply app_nil_r.
Qed.

(** After its turn a file is stored, unless it could not be opened. *)
Lemma ingest_pdf_settles (db db' : Db) (p : str) :
  ingest_pdf fitz_open bates_map db p = Some db' ->
  known db' (basename p) = true \/ fitz_open p = OpenError.
Proof.
  unfold ingest_pdf.
  destruct (known db (basename p)) eqn:Hk;
    [intros H; injection H as <-; left; exact Hk | ].
  destruct (fitz_open p) as [| |pages_text]; intros H;
    [right; reflexivity | discriminate | ].
  injection H as <-. left.
  unfold known. rewrite insert_pages_documents. simpl.
  rewrite existsb_app. simpl. rewrite eqs_refl.
  rewrite orb_true_r. reflexivity.
Qed.

(** A name that a turn makes known is the name of the file of the turn,
    and the file was read. *)
Lemma ingest_pdf_names (db db' : Db) (p name : str) :
  ingest_pdf fitz_open bates_map db p = Some db' ->
  known db name = false -> known db' name = true ->
  basename p = name /\ exists t, fitz_open p = Texts t.
Proof.
  unfold ingest_pdf.
  destruct (known db (basename p));
    [intros H; injection H as <-; congruence | ].
  destruct (fitz_open p) as [| |pages_text]; intros H;
    [injection H as <-; congruence | discriminate | ].
  injection H as <-. intros Hk. unfold known in *.
  rewrite insert_pages_documents. simpl.
  rewrite existsb_app, Hk. simpl. rewrite orb_false_r.
  intros E. apply eqs_eq in E. split; [exact E | ].
  exists pages_text. reflexivity.
Qed.

Lemma ingest_loop_app (l l' : list str) (db : Db) :
  ingest_loop fitz_open bates_map (l ++ l') db
  = match ingest_loop fitz_open bates_map l db with
    | Some db' => ingest_loop fitz_open bates_map l' db'
    | None => None
    end.
Proof.
  revert db. induction l as [|q l IH]; intros db; [reflexivity | ].
  cbn [app ingest_loop].
  destruct (ingest_pdf fitz_open bates_map db q); [apply IH | reflexivity].
Qed.

Lemma loop_extends (l : list str) (db db' : Db) :
  ingest_loop fitz_open bates_map l db = Some db' -> extends db db'.
Proof.
  revert db. induction l as [|q l IH]; intros db H.
  - injection H as <-. apply extends_refl.
  - cbn [ingest_loop] in H.
    destruct (ingest_pdf fitz_open bates_map db q) as [db1|] eqn:E;
      [ | discriminate].
    eapply extends_trans; [exact (ingest_pdf_extends _ _ _ E) | ].
    apply IH, H.
Qed.

(** After a loop that has come to its end, every file of the list is
    stored, unless it could not be opened. *)
Lemma loop_settles (l : list str) (db db' : Db) (p : str) :
  ingest_loop fitz_open bates_map l db = Some db' -> In p l ->
  known db' (basename p) = true \/ fitz_open p = OpenError.
Proof.
  revert db. induction l as [|q l IH]; intros db H Hin; [contradiction | ].
  cbn [ingest_loop] in H.
  destruct (ingest_pdf fitz_open bates_map db q) as [db1|] eqn:E;
    [ | discriminate].
  destruct Hin as [-> | Hin]; [ | exact (IH db1 H Hin)].
  destruct (ingest_pdf_settles _ _ _ E) as [Hk | Ho]; [left | right; exact Ho].
  exact (known_extends _ _ _ (loop_extends _ _ _ H) Hk).
Qed.

Lemma loop_skips (l : list str) (db : Db) :
  (forall p, In p l -> ingest_pdf fitz_open bates_map db p = Some db) ->
  ingest_loop fitz_open bates_map l db = Some db.
Proof.
  induction l as [|q l IH]; intros H; [reflexivity | ].
  cbn [ingest_loop]. rewrite (H q) by (left; reflexivity).
  apply IH. intros p Hp. apply H. right. exact Hp.
Qed.

(** A file that fails to open leaves the loop as if it were not in the
    batch. *)
Lemma loop_isolates (before after : list str) (p : str) (db : Db) :
  fitz_open p = OpenError ->
  ingest_loop fitz_open bates_map (before ++ p :: after) db
  = ingest_loop fitz_open bates_map (before ++ after) db.
Proof.
  intros H. rewrite !ingest_loop_app.
  destruct (ingest_loop fitz_open bates_map before db) as [db1|];
    [ | reflexivity].
  cbn [ingest_loop]. rewrite (ingest_pdf_unreadable _ _ H). reflexivity.
Qed.

(** A loop in which no reading of pages fails comes to its end. *)
Lemma loop_completes (l : list str) (db : Db) :
  (forall p, In p l -> fitz_open p <> PageError) ->
  exists db', ingest_loop fitz_open bates_map l db = Some db'.
Proof.
  revert db. induction l as [|q l IH]; intros db H; [exists db; reflexivity | ].
  cbn [ingest_loop].
  destruct (ingest_pdf fitz_open bates_map db q) as [db1|] eqn:E.
  - apply IH. intros p Hp. apply H. right. exact Hp.
  - exfalso. apply (H q); [left; reflexivity | ].
    revert E. unfold ingest_pdf.
    destruct (known db (basename q)); [discriminate | ].
    destruct (fitz_open q); [discriminate | reflexivity | discriminate].
Qed.

(** A new file whose pages cannot be read stops the loop, wherever it is
    in the list, when no file of the list that can be read bears its
    name. *)
Lemma loop_aborts (l : list str) (db : Db) (p : str) :
  In p l -> fitz_open p = PageError -> known db (basename p) = false ->
  (forall q t, In q l -> fitz_open q = Texts t -> basename q <> basename p) ->
  ingest_loop fitz_open bates_map l db = None.
Proof.
  revert db. induction l as [|q l IH]; intros db Hin Hp Hk Hnames;
    [contradiction | ].
  cbn [ingest_loop].
  destruct (ingest_pdf fitz_open bates_map db q) as [db1|] eqn:E;
    [ | reflexivity].
  destruct Hin as [-> | Hin];
    [rewrite (ingest_pdf_damaged _ _ Hk Hp) in E; discriminate | ].
  apply IH; [exact Hin | exact Hp | | ].
  - destruct (known db1 (basename p)) eqn:Hk1; [ | reflexivity].
    destruct (ingest_pdf_names _ _ _ _ E Hk Hk1) as [Hname [t Ht]].
    exfalso. exact (Hnames q t (or_introl eq_refl) Ht Hname).
  - intros q' t Hq'. apply Hnames. right. exact Hq'.
Qed.

(** C9, on the code.  Ingestion is idempotent per filename: a file whose
    name is stored already is skipped and leaves the store as it is, and a
    second run of a batch changes nothing.  Of the failures of extraction
    it isolates one only: a file that [fitz.open] cannot open is skipped,
    and the loop goes on with the files after it as if it were absent.  A
    new file that opens but whose pages cannot be read ([len(doc)] or
    [get_text()] raises) is not skipped: the exception leaves [ingest],
    the files after it are not read and, the commit being at the end of the
    run, the files read before it are not stored either, so that the run
    leaves the store as it found it.  A run in which no reading of pages
    fails returns, and every file of it that was read is stored; what was
    stored before a run is there after it, unchanged. *)
Theorem ingest_isolates_open_failures_only (pdfs : list str) (db : Db) :
  (forall p, known db (basename p) = true ->
             ingest_pdf fitz_open bates_map db p = Some db)
  /\ (forall p, fitz_open p = OpenError ->
                ingest_pdf fitz_open bates_map db p = Some db)
  /\ (forall before after p d,
        fitz_open p = OpenError ->
        ingest_loop fitz_open bates_map (before ++ p :: after) d
        = ingest_loop fitz_open bates_map (before ++ after) d)
  /\ (forall p,
        In p pdfs -> fitz_open p = PageError ->
        known db (basename p) = false ->
        (forall q t, In q pdfs -> fitz_open q = Texts t ->
                     basename q <> basename p) ->
        ingest fitz_open bates_map pdfs db = (db, true))
  /\ ((forall p, In p pdfs -> fitz_open p <> PageError) ->
      snd (ingest fitz_open bates_map pdfs db) = false
      /\ forall p t, In p pdfs -> fitz_open p = Texts t ->
           known (fst (ingest fitz_open bates_map pdfs db)) (basename p)
           = true)
  /\ extends db (fst (ingest fitz_open bates_map pdfs db))
  /\ ingest fitz_open bates_map pdfs
       (fst (ingest fitz_open bates_map pdfs db))
     = ingest fitz_open bates_map pdfs db.
Proof.
  split; [exact (ingest_pdf_known db) | ].
  split; [exact (ingest_pdf_unreadable db) | ].
  split; [intros; apply loop_isolates; assumption | ].
  split.
  { intros p Hin Hp Hk Hnames. unfold ingest.
    rewrite (loop_aborts (sorted pdfs) db p); [reflexivity | | exact Hp
                                              | exact Hk | ].
    - apply in_order_by. exact Hin.
    - intros q t Hq. apply Hnames. apply in_order_by in Hq. exact Hq. }
  split.
  { intros Hno. unfold ingest.
    destruct (loop_completes (sorted pdfs) db) as [db' E].
    { intros p Hp. apply Hno. apply in_order_by in Hp. exact Hp. }
    rewrite E. cbn [fst snd]. split; [reflexivity | ].
    intros p t Hin Ht.
    destruct (loop_settles (sorted pdfs) db db' p E) as [Hk | Ho];
      [apply in_order_by; exact Hin | exact Hk | congruence]. }
  unfold ingest.
  destruct (ingest_loop fitz_open bates_map (sorted pdfs) db) as [db'|] eqn:E;
    cbn [fst]; [ | split; [apply extends_refl | rewrite E; reflexivity]].
  split; [exact (loop_extends _ _ _ E) | ].
  rewrite (loop_skips (sorted pdfs) db'); [reflexivity | ].
  intros p Hin.
  destruct (loop_settles _ _ _ p E Hin) as [Hk | Ho];
    [apply ingest_pdf_known, Hk | apply ingest_pdf_unreadable, Ho].
Qed.

End Ingest.

(** The theorem at a batch of four files: one that does not open, the
    report, a file whose second page cannot be read, and a memo.  The run
    raises and leaves the store empty: neither the report, read before the
    damaged file, nor the memo, which comes after it, is stored.  Without
    the damaged file the same run stores both. *)
Lemma ingest_isolates_open_failures_only_witness :
  sorted damaged_batch = [broken_path; report_path; damaged_path; memo_path]
  /\ ingest open_report no_manifest damaged_batch empty_db = (empty_db, true)
  /\ map filename
       (documents
          (fst (ingest open_report no_manifest
                  [broken_path; report_path; memo_path] empty_db)))
     = [basename report_path; basename memo_path].
Proof.
  split; [vm_compute; reflexivity | ].
  split; [ | vm_compute; reflexivity].
  apply (proj1 (proj2 (proj2 (proj2
           (ingest_isolates_open_failures_only open_report no_manifest
              damaged_batch empty_db)))) damaged_path).
  - vm_compute. tauto.
  - vm_compute. reflexivity.
  - vm_compute. reflexivity.
  - intros q t [<- | [<- | [<- | [<- | []]]]]; vm_compute; discriminate.
Defined.

(** The batch of the report and of the file that does not open: the
    report is stored all the same, and a second run changes nothing. *)
Lemma open_failure_is_isolated :
  open_report broken_path = OpenError
  /\ ingest open_report no_manifest batch empty_db = (ingested, false)
  /\ known ingested (basename report_path) = true
  /\ ingest open_report no_manifest [report_path] empty_db = (ingested, false)
  /\ ingest open_report no_manifest batch ingested = (ingested, false).
Proof. repeat split; vm_compute; reflexivity. Qed.

(** *** The [full_text] of a new document *)

Lemma order_by_sorted (A : Type) (le : A -> A -> bool) (l : list A) :
  Sorted (fun a b => le a b = true) l -> order_by le l = l.
Proof.
  unfold order_by. induction 1 as [|a l _ IH Hd]; [reflexivity | ].
  simpl. rewrite IH. destruct Hd as [|b l Hab]; [reflexivity | ].
  simpl. rewrite Hab. reflexivity.
Qed.

Lemma numbered_sorted (l : list Page) (start : nat) :
  map page_num l = seq start (length l) ->
  Sorted (fun p q => (page_num p <=? page_num q) = true) l.
Proof.
  revert start. induction l as [|a l IH]; intros start H; [constructor | ].
  simpl in H. injection H as Ha Hl. constructor; [exact (IH _ Hl) | ].
  destruct l as [|b l]; constructor.
  simpl in Hl. injection Hl as Hb _. apply Nat.leb_le. lia.
Qed.

Lemma enumerate_from (A : Type) (l : list A) (start : nat) :
  map (fun it => fst it + 1) (combine (seq start (length l)) l)
    = seq (start + 1) (length l)
  /\ map snd (combine (seq start (length l)) l) = l.
Proof.
  revert start. induction l as [|x l IH]; intros start; [split; reflexivity | ].
  destruct (IH (S start)) as [H1 H2]. simpl. rewrite H1, H2.
  split; reflexivity.
Qed.

(** The pages that the inner loop of [ingest] adds: they belong to the new
    document, in the order and with the numbers of [enumerate]. *)
Lemma insert_pages_pages (id : nat) (l : list (nat * str)) (db : Db) :
  exists news,
    pages (fold_left (insert_page id) l db) = pages db ++ news
    /\ Forall (fun p => page_doc p = id) news
    /\ map page_num news = map (fun it => fst it + 1) l
    /\ map text news = map snd l.
Proof.
  revert db. induction l as [|[i t] l IH]; intros db.
  - exists []. rewrite app_nil_r. repeat split; constructor.
  - cbn [fold_left].
    destruct (IH (insert_page id db (i, t))) as (news & Hp & Hd & Hn & Ht).
    exists (mkPage (next_rowid (map page_id (pages db))) id (i + 1) t :: news).
    rewrite Hp. unfold insert_page. cbn [pages map fst snd].
    rewrite <- app_assoc, Hn, Ht. repeat split.
    constructor; [reflexivity | exact Hd].
Qed.

Lemma filter_none (A : Type) (f : A -> bool) (l : list A) :
  Forall (fun x => f x = false) l -> filter f l = [].
Proof.
  induction 1 as [|x l Hx _ IH]; [reflexivity | ]. simpl. rewrite Hx. exact IH.
Qed.

Lemma filter_all (A : Type) (f : A -> bool) (l : list A) :
  Forall (fun x => f x = true) l -> filter f l = l.
Proof.
  induction 1 as [|x l Hx _ IH]; [reflexivity | ].
  simpl. rewrite Hx, IH. reflexivity.
Qed.

(** For every file that [ingest] stores, the new document has the join of
    its page texts with one newline as [full_text]. *)
Lemma ingest_pdf_full_text
  (fitz_open : str -> reading) (bates_map : str -> option str)
  (db : Db) (p : str) (pages_text : list str) :
  known db (basename p) = false ->
  fitz_open p = Texts pages_text ->
  no_dangling db ->
  exists d db',
    ingest_pdf fitz_open bates_map db p = Some db'
    /\ documents db' = documents db ++ [d]
    /\ full_text d = join [nl] pages_text
    /\ page_texts db' (doc_id d) = pages_text.
Proof.
  intros Hk Hopen Hdang. unfold ingest_pdf. rewrite Hk, Hopen.
  eexists. eexists. split; [reflexivity | ].
  rewrite insert_pages_documents. cbn [documents].
  split; [reflexivity | ]. cbn [full_text doc_id]. split; [reflexivity | ].
  unfold page_texts.
  match goal with
  | |- context [fold_left (insert_page ?id) ?l ?d0] =>
      destruct (insert_pages_pages id l d0) as (news & Hp & Hd & Hn & Ht)
  end.
  rewrite Hp. cbn [pages]. rewrite filter_app.
  rewrite filter_none, filter_all; cbn [app].
  - unfold enumerate in *.
    destruct (enumerate_from _ pages_text 0) as [Hnum Hsnd].
    rewrite Hnum in Hn. rewrite Hsnd in Ht.
    rewrite (order_by_sorted _ _ news); [exact Ht | ].
    apply (numbered_sorted news 1).
    rewrite Hn. f_equal.
    rewrite <- (length_map text news), Ht. reflexivity.
  - revert Hd. apply Forall_impl. intros q Hq. apply Nat.eqb_eq. exact Hq.
  - revert Hdang. apply Forall_impl. intros q Hq. apply Nat.eqb_neq.
    apply Nat.lt_neq. exact Hq.
Qed.

Lemma join_length (sep : str) (l : list str) :
  length (join sep l) + length sep
  = list_sum (map (fun p => length p + length sep) l)
    + (match l with [] => length sep | _ => 0 end).
Proof.
  induction l as [|p l IH]; [reflexivity | ].
  destruct l as [|q l]; [simpl; lia | ].
  rewrite ReFacts.join_cons by discriminate.
  rewrite !length_app. unfold list_sum in *. cbn [map fold_right] in *. lia.
Qed.

(** Two pages or more are not joined alike by one newline and by a blank
    line. *)
Lemma join_newline_differs (p q : str) (l : list str) :
  join [nl] (p :: q :: l) <> join [nl; nl] (p :: q :: l).
Proof.
  intros H. apply (f_equal (@length ascii)) in H.
  rewrite (ReFacts.join_cons [nl] p) in H by discriminate.
  rewrite (ReFacts.join_cons [nl; nl] p) in H by discriminate.
  pose proof (join_length [nl] (q :: l)) as H1.
  pose proof (join_length [nl; nl] (q :: l)) as H2.
  remember (join [nl] (q :: l)) as j1. remember (join [nl; nl] (q :: l)) as j2.
  rewrite !length_app in H.
  unfold list_sum in H1, H2. cbn [map fold_right length] in H, H1, H2.
  assert (Hs : fold_right Nat.add 0 (map (fun p => length p + 1) l)
               <= fold_right Nat.add 0 (map (fun p => length p + 2) l)).
  { clear. induction l as [|x l IH]; simpl; lia. }
  lia.
Qed.

(** Right after [ingest], a new document of two pages or more is not the
    join of its pages with a blank line. *)
Lemma new_document_not_blank_joined
  (fitz_open : str -> reading) (bates_map : str -> option str)
  (db : Db) (p a b : str) (rest : list str) :
  known db (basename p) = false ->
  fitz_open p = Texts (a :: b :: rest) ->
  no_dangling db ->
  exists db',
    ingest_pdf fitz_open bates_map db p = Some db'
    /\ ~ Forall (joined_with [nl; nl] db') (documents db').
Proof.
  intros Hk Hopen Hdang.
  destruct (ingest_pdf_full_text fitz_open bates_map db p _ Hk Hopen Hdang)
    as (d & db' & Hdb & Hdocs & Hfull & Htexts).
  exists db'. split; [exact Hdb | ]. intros Hall.
  rewrite Hdocs in Hall. apply Forall_app in Hall as [_ Hlast].
  inversion Hlast as [|d' l Hd _]. subst. unfold joined_with in Hd.
  rewrite Hfull, Htexts in Hd. exact (join_newline_differs a b rest Hd).
Qed.

(** *** The stages and [full_text] *)

(** After [clean.main], every [full_text] is the join of the page texts in
    page order with a blank line. *)
Lemma clean_main_joined (db : Db) :
  Forall (joined_with [nl; nl] (clean_main db)) (documents (clean_main db)).
Proof.
  unfold clean_main. cbn [documents]. apply Forall_map, Forall_forall.
  intros d _. reflexivity.
Qed.

(** [classify.main] and [condense.main] touch neither [full_text] nor the
    pages. *)
Lemma classify_main_keeps (sep : str) (db : Db) :
  Forall (joined_with sep db) (documents db) ->
  Forall (joined_with sep (classify_main db)) (documents (classify_main db)).
Proof.
  intros H. unfold classify_main. cbn [documents]. apply Forall_map.
  revert H. apply Forall_impl. intros d Hd.
  destruct (Classify.classify _ _) as [ty score]. exact Hd.
Qed.

Lemma condense_main_keeps (sep : str) (db db' : Db) :
  condense_main db = Some db' ->
  Forall (joined_with sep db) (documents db) ->
  Forall (joined_with sep db') (documents db').
Proof.
  unfold condense_main. destruct (verdict_columns db); [ | discriminate].
  intros E H. injection E as <-. cbn [documents]. apply Forall_map.
  revert H. apply Forall_impl. intros d Hd. unfold condense_document.
  destruct (Condense.reclassify _ _ _ _) as [ty score]. exact Hd.
Qed.

(** C3, on the code.  [ingest] joins the page texts of a new document with
    one newline, [clean.main] joins them with a blank line, the separator
    that [condense_text] splits on.  For the report of two pages, the
    [full_text] stored by [ingest] is the join with one newline and not the
    join with a blank line; after [clean.main] it is the join with a blank
    line. *)
Theorem ingest_joins_with_one_newline :
  map full_text (documents ingested)
    = [T "first page of the report" ++ [nl] ++ T "second page of the report"]
  /\ page_texts ingested 1 = report_pages
  /\ Forall (joined_with [nl] ingested) (documents ingested)
  /\ ~ Forall (joined_with [nl; nl] ingested) (documents ingested)
  /\ Forall (joined_with [nl; nl] (clean_main ingested))
       (documents (clean_main ingested))
  /\ page_texts (clean_main ingested) 1 = report_pages.
Proof.
  split; [vm_compute; reflexivity | ].
  split; [vm_compute; reflexivity | ].
  split; [vm_compute; repeat constructor | ].
  split; [ | split; [apply clean_main_joined | vm_compute; reflexivity]].
  intros H. vm_compute in H. inversion H as [|d l Hd _]. discriminate Hd.
Qed.

End IngestProps.

(** ** classify, as a table *)

Module ClassifyTable.
Import Py Re Classify Tables Samples.
Import ClassifyProps.
Open Scope Z_scope.

(** The seven pattern steps compute the two tables. *)
Lemma pattern_steps_table (low : str) :
  step_evidence low (before_evidence low) = (type_table low, score_table low).
Proof.
  unfold step_evidence, before_evidence, step_files, step_phone, step_legal,
    step_law, step_deposition, step_email, type_table, score_table.
  destruct (re_search evidence_re low); [reflexivity | ].
  destruct (is_file_listing low); [reflexivity | ].
  destruct (re_search phone_re low); [reflexivity | ].
  destruct (re_search email_re low), (re_search deposition_re low),
    (re_search law_re low), (re_search legal_re low); reflexivity.
Qed.

Lemma type_table_cases (low : str) :
  In (type_table low)
    ["evidence_list"; "file_listing"; "phone_records"; "law_enforcement";
     "email"; "deposition"; "legal"; "other"]%string.
Proof.
  unfold type_table. repeat step_case; simpl; tauto.
Qed.

Lemma score_table_tens (low : str) :
  exists k, 0 <= k <= 8 /\ score_table low = 10 * k.
Proof.
  unfold score_table.
  destruct (re_search evidence_re low); [exists 3; lia | ].
  destruct (is_file_listing low); [exists 1; lia | ].
  destruct (re_search phone_re low); [exists 2; lia | ].
  destruct (re_search email_re low), (re_search deposition_re low),
    (re_search law_re low), (re_search legal_re low);
    first [ exists 8; simpl; lia | exists 7; simpl; lia | exists 6; simpl; lia
          | exists 5; simpl; lia | exists 0; simpl; lia ].
Qed.

Lemma classify_closed_form (text : option str) (page_count : Z) :
  passes_gates text = true ->
  classify text page_count
  = let score :=
      Z.min (score_table (lowered text)
             + name_hits names (lowered text) * 10
             + length_bonus (len (stripped_of text))) 100 in
    if is_other (type_table (lowered text)) && (score <? 20)
    then ((if (len (stripped_of text) <? 100)%nat
           then "minimal"%string else "document"%string), score)
    else (type_table (lowered text), score).
Proof.
  intros Hg. rewrite (classify_past_gates text page_count Hg).
  rewrite pattern_steps_table. unfold step_names.
  rewrite step_length_eq. unfold step_final. cbv zeta.
  destruct (is_other _ && _); [ | reflexivity].
  destruct (len (stripped_of text) <? 100)%nat; reflexivity.
Qed.

(** X1.  [classify], for a text past the two gates, in closed form.  The type
    is read from the priority table (evidence list, file listing, phone
    records, law enforcement, e-mail, deposition, legal), the score is the
    score of the table plus 10 for each name found and the length bonus,
    capped at 100; a text that no pattern typed and whose score is under 20
    becomes [minimal] when shorter than 100 characters and [document]
    otherwise. *)
Theorem classify_decision (text : option str) (page_count : Z) :
  passes_gates text = true ->
  classify text page_count
  = let score :=
      Z.min (score_table (lowered text)
             + name_hits names (lowered text) * 10
             + length_bonus (len (stripped_of text))) 100 in
    if is_other (type_table (lowered text)) && (score <? 20)
    then ((if (len (stripped_of text) <? 100)%nat
           then "minimal"%string else "document"%string), score)
    else (type_table (lowered text), score).
Proof. exact (classify_closed_form text page_count). Qed.

(** The theorem at the text [fbi_evidence], which passes the gates. *)
Lemma classify_decision_witness :
  passes_gates (Some fbi_evidence) = true
  /\ classify (Some fbi_evidence) 7 = ("evidence_list"%string, 30).
Proof.
  assert (Hg : passes_gates (Some fbi_evidence) = true)
    by (vm_compute; reflexivity).
  split; [exact Hg | ].
  rewrite (classify_decision (Some fbi_evidence) 7 Hg).
  vm_compute. reflexivity.
Defined.

(** X2.  The score of [classify] is always a multiple of ten, from 0 to 100. *)
Theorem classify_score_in_tens (text : option str) (page_count : Z) :
  exists k, 0 <= k <= 10 /\ snd (classify text page_count) = 10 * k.
Proof.
  unfold classify.
  destruct (is_empty _); [exists 0; simpl; lia | ].
  destruct (is_garbage _); [exists 0; simpl; lia | ].
  rewrite pattern_steps_table. unfold step_names.
  rewrite step_length_eq.
  set (low := lower (strip (or_empty text))).
  set (n := len (strip (or_empty text))).
  destruct (score_table_tens low) as (k & Hk & Ek).
  pose proof (name_hits_nonneg names low) as Hh.
  assert (Hb : exists b, 0 <= b <= 2 /\ length_bonus n = 10 * b).
  { unfold length_bonus. repeat step_case;
      first [exists 2; lia | exists 1; lia | exists 0; lia]. }
  destruct Hb as (b & Hb & Eb).
  assert (Hs : snd (step_final n
                      (type_table low,
                       score_table low + name_hits names low * 10
                       + length_bonus n))
               = Z.min (10 * (k + name_hits names low + b)) 100).
  { unfold step_final. rewrite Ek, Eb.
    replace (10 * k + name_hits names low * 10 + 10 * b)
      with (10 * (k + name_hits names low + b)) by lia.
    repeat step_case; reflexivity. }
  rewrite Hs.
  destruct (Z_le_gt_dec (k + name_hits names low + b) 10) as [Hle | Hgt].
  - exists (k + name_hits names low + b). lia.
  - exists 10. lia.
Qed.

(** X3.  [classify] never leaves a low score on an untyped text: the type
    [other] comes with a score of 20 or more, [minimal] with a score under 20
    and fewer than 100 characters, [document] with a score under 20 and 100
    characters or more. *)
Theorem classify_untyped_texts (text : option str) (page_count : Z) :
  (fst (classify text page_count) = "other"%string ->
   20 <= snd (classify text page_count))
  /\ (fst (classify text page_count) = "minimal"%string ->
      snd (classify text page_count) < 20
      /\ (20 <= len (stripped_of text) < 100)%nat)
  /\ (fst (classify text page_count) = "document"%string ->
      snd (classify text page_count) < 20
      /\ (100 <= len (stripped_of text))%nat).
Proof.
  destruct (passes_gates text) eqn:Hg.
  - rewrite (classify_closed_form text page_count Hg). cbv zeta.
    assert (Hlen : (20 <= len (stripped_of text))%nat).
    { unfold passes_gates, is_empty in Hg. apply andb_prop in Hg as [He _].
      apply negb_true_iff, Nat.ltb_ge in He. exact He. }
    pose proof (type_table_cases (lowered text)) as Hty.
    set (score := Z.min _ 100).
    destruct (is_other (type_table (lowered text))) eqn:Ho;
      destruct (score <? 20) eqn:Hs; cbn [andb fst snd].
    + apply Z.ltb_lt in Hs.
      destruct (len (stripped_of text) <? 100)%nat eqn:Hl; cbn [fst snd];
        [apply Nat.ltb_lt in Hl | apply Nat.ltb_ge in Hl];
        (split; [ | split]); intros E; try discriminate E; try split; lia.
    + apply Z.ltb_ge in Hs. unfold is_other in Ho. apply String.eqb_eq in Ho.
      rewrite Ho.
      (split; [ | split]); intros E; try discriminate E; try split; lia.
    + unfold is_other in Ho. apply String.eqb_neq in Ho.
      (split; [ | split]); intros E; try contradiction;
        rewrite E in Hty; simpl in Hty;
        repeat (destruct Hty as [Hty | Hty]; [discriminate Hty | ]);
        contradiction.
    + unfold is_other in Ho. apply String.eqb_neq in Ho.
      (split; [ | split]); intros E; try contradiction;
        rewrite E in Hty; simpl in Hty;
        repeat (destruct Hty as [Hty | Hty]; [discriminate Hty | ]);
        contradiction.
  - unfold passes_gates in Hg. unfold classify.
    fold (stripped_of text). destruct (is_empty (stripped_of text));
      [ cbn [fst snd]; (split; [ | split]); intros E; discriminate E | ].
    simpl in Hg. apply negb_false_iff in Hg. rewrite Hg.
    cbn [fst snd]. (split; [ | split]); intros E; discriminate E.
Qed.

(** The theorem at a short text without any marker. *)
Lemma classify_untyped_texts_witness :
  snd (classify (Some plain_words) 1) < 20
  /\ (20 <= len (stripped_of (Some plain_words)) < 100)%nat.
Proof.
  apply (proj1 (proj2 (classify_untyped_texts (Some plain_words) 1))).
  vm_compute. reflexivity.
Defined.

End ClassifyTable.

(** ** reclassify, as a table, and the reruns of the stages *)

Module ReclassifyTable.
Import Py Re Condense Tables Store Pipeline Samples.
Import ClassifyProps ReclassifyProps.
Open Scope Z_scope.

Lemma before_tabular_type (c : str) (ty : string) (sc : Z) :
  fst (before_tabular c (ty, sc))
  = if email_rule c then "email"%string
    else if re_search invest_re (lower c)
         then (if String.eqb ty "deposition" || String.eqb ty "email"
               then ty else "law_enforcement"%string)
         else ty.
Proof.
  unfold before_tabular, step_email_content, step_substance, step_invest,
    step_narrative.
  repeat step_case; simpl in *; try reflexivity; congruence.
Qed.

Lemma reclassify_table (text : option str) (c : str) (prior : string)
  (page_count : Z) :
  is_blank (Some c) = false ->
  reclassify text (Some c) prior page_count
  = (retype_table c prior, rescore_table c).
Proof.
  intros Hb. unfold reclassify. rewrite Hb.
  unfold after_dialogue. rewrite before_clamp_eq, step_key_names_eq.
  unfold step_dialogue, step_clamp, retype_table, rescore_table. cbv zeta.
  destruct (5 <? qa_count c)%nat;
    rewrite before_tabular_score, before_tabular_type, Z.add_0_l.
  - rewrite String.eqb_refl. cbn [orb].
    destruct (email_rule c), (re_search invest_re (lower c)); reflexivity.
  - rewrite Z.add_0_r. reflexivity.
Qed.

(** X4.  [reclassify], for a condensed text that is not blank, in closed form.
    The type is [email] when the e-mail rule fires, else [deposition] when
    there are more than five dialogue markers, else, when an investigative
    word is found, the prior type if it is [deposition] or [email] and
    [law_enforcement] otherwise, else the prior type.  The score is 8 per name
    found plus the bonuses of the signals, less 20 (not below 0) for tabular
    text, plus the length bonus, capped at 100; it does not depend on the
    prior type. *)
Theorem reclassify_decision (text : option str) (c : str) (prior : string)
  (page_count : Z) :
  is_blank (Some c) = false ->
  fst (reclassify text (Some c) prior page_count) = retype_table c prior
  /\ snd (reclassify text (Some c) prior page_count) = rescore_table c.
Proof.
  intros Hb. rewrite (reclassify_table text c prior page_count Hb).
  split; reflexivity.
Qed.

(** The theorem at the plain dialogue, given the type [legal]. *)
Lemma reclassify_decision_witness :
  is_blank (Some plain_dialogue) = false
  /\ reclassify None (Some plain_dialogue) "legal"%string 2
     = ("deposition"%string, 50).
Proof.
  assert (Hb : is_blank (Some plain_dialogue) = false)
    by (vm_compute; reflexivity).
  split; [exact Hb | ].
  destruct (reclassify_decision None plain_dialogue "legal"%string 2 Hb)
    as [Ht Hs].
  rewrite (surjective_pairing (reclassify _ _ _ _)), Ht, Hs.
  vm_compute. reflexivity.
Defined.

Lemma retype_table_stable (c : str) (prior : string) :
  retype_table c (retype_table c prior) = retype_table c prior.
Proof.
  unfold retype_table.
  destruct (email_rule c); [reflexivity | ].
  destruct (5 <? qa_count c)%nat; [reflexivity | ].
  destruct (re_search invest_re (lower c)); [ | reflexivity].
  destruct (String.eqb prior "deposition" || String.eqb prior "email") eqn:E.
  - rewrite E. reflexivity.
  - reflexivity.
Qed.

Lemma reclassify_fixed_point
  (text1 text2 : option str) (condensed : option str) (prior other : string)
  (p1 p2 : Z) :
  reclassify text2 condensed
    (fst (reclassify text1 condensed prior p1)) p2
  = reclassify text1 condensed prior p1
  /\ snd (reclassify text1 condensed other p1)
     = snd (reclassify text1 condensed prior p1).
Proof.
  destruct condensed as [c|]; [ | split; reflexivity].
  destruct (is_blank (Some c)) eqn:Hb.
  - unfold reclassify. rewrite Hb. split; reflexivity.
  - rewrite !(reclassify_table _ c _ _ Hb). cbn [fst snd].
    rewrite retype_table_stable. split; reflexivity.
Qed.

(** X5.  The answer of [reclassify] is a fixed point: given its own type as
    the prior type, on the same condensed text, it answers the same pair, and
    the score it answers is the same for every prior type. *)
Theorem reclassify_rerun_stable
  (text1 text2 : option str) (condensed : option str) (prior other : string)
  (p1 p2 : Z) :
  reclassify text2 condensed
    (fst (reclassify text1 condensed prior p1)) p2
  = reclassify text1 condensed prior p1
  /\ snd (reclassify text1 condensed other p1)
     = snd (reclassify text1 condensed prior p1).
Proof.
  exact (reclassify_fixed_point text1 text2 condensed prior other p1 p2).
Qed.

Lemma set_verdict_again (ty1 ty2 : string) (s1 s2 : Z) (c1 c2 : str)
  (d : Document) :
  set_verdict ty2 s2 (set_condensed c2 (set_verdict ty1 s1 (set_condensed c1 d)))
  = set_verdict ty2 s2 (set_condensed c2 d).
Proof. reflexivity. Qed.

(** X6.  [condense.main] is idempotent: a second run over the store that a
    first run has left returns as well and leaves every row as the first
    run left it. *)
Theorem condense_main_idempotent (db db1 : Db) :
  condense_main db = Some db1 -> condense_main db1 = Some db1.
Proof.
  unfold condense_main. destruct (verdict_columns db); [ | discriminate].
  intros E. injection E as <-. cbn [verdict_columns documents pages
                                     search_index].
  f_equal. f_equal.
  rewrite map_map. apply map_ext. intros d. unfold condense_document.
  set (c := condense_text (Some (full_text d))).
  set (p := Z.of_nat (page_count d)).
  destruct (reclassify (Some (full_text d)) (Some c) (doc_type d) p)
    as [ty score] eqn:E.
  cbn [full_text set_verdict set_condensed doc_type page_count].
  fold c. fold p.
  pose proof (proj1 (reclassify_fixed_point (Some (full_text d))
                       (Some (full_text d)) (Some c) (doc_type d)
                       (doc_type d) p p)) as H.
  rewrite E in H. cbn [fst] in H. rewrite H. reflexivity.
Qed.

(** The theorem at the store of the report, classified: the first run
    returns, the second leaves what the first left. *)
Lemma condense_main_idempotent_witness :
  exists db1,
    condense_main (classify_main ingested) = Some db1
    /\ condense_main db1 = Some db1.
Proof.
  eexists. split; [reflexivity | ].
  apply (condense_main_idempotent (classify_main ingested)). reflexivity.
Defined.

(** [classify.main] is idempotent too. *)
Theorem classify_main_idempotent (db : Db) :
  classify_main (classify_main db) = classify_main db.
Proof.
  unfold classify_main. cbn [documents pages search_index]. f_equal.
  rewrite map_map. apply map_ext. intros d.
  destruct (classify (Some (full_text d)) (Z.of_nat (page_count d)))
    as [ty score] eqn:E.
  cbn [full_text set_verdict page_count]. rewrite E. reflexivity.
Qed.

(** X7.  [condense.main] needs the columns that [classify.main] adds, and
    overwrites what [classify.main] stores in them.  After [classify.main]
    it always returns; on a store without the columns it raises and stores
    nothing; on a store that has them, the condensed texts and the scores
    that it stores are the same whether or not [classify.main] is run
    before it. *)
Theorem condense_main_overwrites_scores (db : Db) :
  exists db2,
    condense_main (classify_main db) = Some db2
    /\ (verdict_columns db = false -> condense_main db = None)
    /\ (forall db1, condense_main db = Some db1 ->
          map interest_score (documents db2)
          = map interest_score (documents db1)
          /\ map condensed (documents db2) = map condensed (documents db1)).
Proof.
  eexists. split; [reflexivity | ].
  unfold condense_main.
  split; [intros ->; reflexivity | ].
  destruct (verdict_columns db); [ | discriminate].
  intros db1 E. injection E as <-.
  unfold classify_main. cbn [documents].
  rewrite !map_map. split; apply map_ext; intros d; unfold condense_document.
  - destruct (classify _ _) as [ty0 s0].
    cbn [full_text set_verdict doc_type page_count].
    pose proof (proj2 (reclassify_fixed_point (Some (full_text d)) None
                         (Some (condense_text (Some (full_text d))))
                         (doc_type d) ty0 (Z.of_nat (page_count d)) 0)) as H.
    destruct (reclassify _ _ ty0 _) as [ty1 s1].
    destruct (reclassify _ _ (doc_type d) _) as [ty2 s2].
    exact H.
  - destruct (classify _ _) as [ty0 s0].
    cbn [full_text set_verdict doc_type page_count].
    destruct (reclassify _ _ ty0 _) as [ty1 s1].
    destruct (reclassify _ _ (doc_type d) _) as [ty2 s2].
    reflexivity.
Qed.

(** After [condense.main], every score is in [0, 100], and every type is
    one of the enumeration or the type the document had before. *)
Theorem condense_main_domains (db db' : Db) :
  condense_main db = Some db' ->
  Forall2
    (fun before after =>
       0 <= interest_score after <= 100
       /\ (In (doc_type after) doc_types \/ doc_type after = doc_type before)
       /\ condensed after = condense_text (Some (full_text before))
       /\ full_text after = full_text before
       /\ doc_id after = doc_id before)
    (documents db) (documents db').
Proof.
  unfold condense_main. destruct (verdict_columns db); [ | discriminate].
  intros E. injection E as <-. cbn [documents].
  induction (documents db) as [|d l IH]; constructor; [ | exact IH].
  unfold condense_document.
  pose proof (reclassify_sound (Some (full_text d))
                (Some (condense_text (Some (full_text d)))) (doc_type d)
                (Z.of_nat (page_count d))) as [Ht Hs].
  destruct (reclassify _ _ _ _) as [ty score]. cbn in *. tauto.
Qed.

End ReclassifyTable.

(** ** clean_text *)

Module CleanProps.
Import Py Re Clean Store Pipeline Samples Pages ReFacts.
Open Scope nat_scope.

(** *** Prefixes, suffixes and blank lines *)

Lemma lstrip_suffix (s : str) : exists x, s = x ++ lstrip s.
Proof.
  induction s as [|c s [x IH]]; [exists []; reflexivity | ].
  simpl. destruct (isspace c).
  - exists (c :: x). simpl. f_equal. exact IH.
  - exists []. reflexivity.
Qed.

Lemma rstrip_prefix (s : str) : exists y, s = rstrip s ++ y.
Proof.
  unfold rstrip. destruct (lstrip_suffix (rev s)) as [x H].
  exists (rev x). apply (f_equal (@rev ascii)) in H.
  rewrite rev_involutive, rev_app_distr in H. exact H.
Qed.

Lemma contains_app_r (p a b : str) :
  contains p (a ++ b) = false -> contains p b = false.
Proof.
  induction a as [|c a IH]; [trivial | ].
  simpl. intros H. apply orb_false_elim in H as [_ H]. apply IH, H.
Qed.

Lemma startswith_app_l (p a b : str) :
  startswith p a = true -> startswith p (a ++ b) = true.
Proof.
  revert a. induction p as [|x p IH]; intros a H; [reflexivity | ].
  destruct a as [|y a]; [discriminate | ]. simpl in *.
  apply andb_prop in H as [H1 H2]. rewrite H1. simpl. apply IH, H2.
Qed.

Lemma contains_app_l (p a b : str) :
  contains p (a ++ b) = false -> contains p a = false.
Proof.
  induction a as [|c a IH]; intros H.
  - destruct p as [|x p]; [destruct b; discriminate H | reflexivity].
  - simpl in *. apply orb_false_elim in H as [H1 H2].
    rewrite (IH H2), orb_false_r.
    destruct (startswith p (c :: a)) eqn:E; [ | reflexivity].
    apply (startswith_app_l _ _ b) in E. simpl in E. congruence.
Qed.

(** [strip] takes a text out of the middle of its argument. *)
Lemma strip_middle (s : str) : exists x y, s = x ++ strip s ++ y.
Proof.
  unfold strip. destruct (lstrip_suffix s) as [x Hx].
  destruct (rstrip_prefix (lstrip s)) as [y Hy].
  exists x, y. rewrite <- Hy. exact Hx.
Qed.

Lemma contains_strip (p s : str) :
  contains p s = false -> contains p (strip s) = false.
Proof.
  intros H. destruct (strip_middle s) as (x & y & E). rewrite E in H.
  apply contains_app_r in H. apply contains_app_l in H. exact H.
Qed.

(** *** A stripped text *)

Lemma lstrip_fixed (c : ascii) (s : str) :
  isspace c = false -> lstrip (c :: s) = c :: s.
Proof. intros H. simpl. rewrite H. reflexivity. Qed.

Lemma rstrip_head (c : ascii) (s : str) :
  isspace c = false -> exists s', rstrip (c :: s) = c :: s'.
Proof.
  intros H. unfold rstrip. cbn [rev].
  rewrite (SearchProps.lstrip_snoc _ _ H), rev_app_distr. simpl.
  eexists. reflexivity.
Qed.

Lemma rstrip_rstrip (s : str) : rstrip (rstrip s) = rstrip s.
Proof.
  unfold rstrip. rewrite rev_involutive.
  destruct (lstrip (rev s)) as [|c r] eqn:E; [reflexivity | ].
  apply SearchProps.lstrip_head in E as Hc.
  rewrite (lstrip_fixed _ _ Hc). reflexivity.
Qed.

(** [strip] is idempotent. *)
Lemma strip_strip (s : str) : strip (strip s) = strip s.
Proof.
  unfold strip at 1. destruct (strip s) as [|c r] eqn:E; [reflexivity | ].
  apply SearchProps.strip_head in E as Hc.
  rewrite (lstrip_fixed _ _ Hc), <- E. unfold strip. apply rstrip_rstrip.
Qed.

(** A stripped text does not end with a newline. *)
Lemma strip_no_final_newline (s : str) (r : str) :
  strip s <> r ++ [nl].
Proof.
  intros H. unfold strip, rstrip in H.
  apply (f_equal (@rev ascii)) in H.
  rewrite rev_involutive, rev_app_distr in H. simpl in H.
  apply SearchProps.lstrip_head in H. vm_compute in H. discriminate.
Qed.

(** *** Lines *)

Lemma eqc_nl_false (c : ascii) : c <> nl -> eqc nl c = false.
Proof.
  intros H. destruct (eqc nl c) eqn:E; [ | reflexivity].
  apply eqc_true in E. congruence.
Qed.

(** The pieces of [text.split("\n")] hold no newline. *)
Lemma split_nl_lines (s : str) :
  Forall (Forall (fun c => c <> nl)) (split [nl] s).
Proof.
  unfold split. induction s as [|c s IH]; [repeat constructor | ].
  cbn [split_go startswith length Nat.sub].
  destruct (eqc nl c) eqn:E; cbn [andb].
  - constructor; [constructor | exact IH].
  - destruct (split_go [nl] 0 s) as [|p ps]; cbn [cons_head].
    + repeat constructor. intros ->. unfold eqc in E.
      rewrite Ascii.eqb_refl in E. discriminate.
    + inversion IH as [|? ? Hp Hps]. subst. constructor; [ | exact Hps].
      constructor; [ | exact Hp]. intros ->. unfold eqc in E.
      rewrite Ascii.eqb_refl in E. discriminate.
Qed.

Lemma strip_forall (P : ascii -> Prop) (s : str) :
  Forall P s -> Forall P (strip s).
Proof.
  intros H. destruct (strip_middle s) as (x & y & E). rewrite E in H.
  apply Forall_app in H as [_ H]. apply Forall_app in H as [H _]. exact H.
Qed.

(** The lines that [clean_text] keeps are not empty and hold no newline. *)
Lemma keep_lines_lines (lines : list str) :
  Forall (Forall (fun c => c <> nl)) lines ->
  Forall (fun l => l <> [] /\ Forall (fun c => c <> nl) l) (keep_lines lines).
Proof.
  induction 1 as [|line rest Hl _ IH]; [constructor | ].
  cbn [keep_lines]. pose proof (strip_forall _ _ Hl) as Hs.
  destruct (strip line) as [|c r] eqn:E; [exact IH | ].
  repeat (match goal with
          | |- context [if ?b then _ else _] => destruct b
          end; [exact IH | ]).
  constructor; [ | exact IH]. split; [discriminate | exact Hs].
Qed.

Lemma contains_line (p : str) :
  Forall (fun c => c <> nl) p -> contains [nl; nl] p = false.
Proof.
  induction 1 as [|c p Hc _ IH]; [reflexivity | ].
  cbn [contains startswith]. rewrite (eqc_nl_false _ Hc), IH. reflexivity.
Qed.

Lemma contains_line_then (p r : str) :
  Forall (fun c => c <> nl) p ->
  contains [nl; nl] r = false -> startswith [nl] r = false ->
  contains [nl; nl] (p ++ nl :: r) = false.
Proof.
  intros Hp Hr Hs. induction Hp as [|c p Hc _ IH].
  - cbn [app contains startswith] in *. rewrite Hr.
    destruct r as [|d r]; [rewrite !andb_false_r; reflexivity | ].
    cbn [startswith] in Hs. rewrite Hs, andb_false_r. reflexivity.
  - cbn [app contains startswith]. rewrite (eqc_nl_false _ Hc), IH.
    reflexivity.
Qed.

(** The kept lines joined by newlines hold no blank line. *)
Lemma join_lines_no_blank (lines : list str) :
  Forall (fun l => l <> [] /\ Forall (fun c => c <> nl) l) lines ->
  contains [nl; nl] (join [nl] lines) = false
  /\ startswith [nl] (join [nl] lines) = false.
Proof.
  induction 1 as [|p rest [Hne Hp] Hrest [IH1 IH2]]; [split; reflexivity | ].
  assert (Hhead : forall r, startswith [nl] (p ++ r) = false).
  { intros r. destruct Hp as [|c p Hc _]; [contradiction | ].
    cbn [app startswith]. rewrite (eqc_nl_false _ Hc). reflexivity. }
  destruct rest as [|q rest].
  - cbn [join]. split; [apply contains_line, Hp | ].
    rewrite <- (app_nil_r p). apply Hhead.
  - rewrite join_cons by discriminate. split; [ | apply Hhead].
    apply contains_line_then; assumption.
Qed.

(** *** The two substitutions *)

(** A run of three newlines starts with two. *)
Lemma blank_run_starts (prev : option ascii) (s : str) (n : nat) :
  match_len blank_run prev s = Some n -> startswith [nl; nl] s = true.
Proof.
  unfold match_len, match_at, blank_run. cbn [rmatch].
  destruct s as [|c [|d s]]; cbn [length rep_loop rmatch Nat.pred].
  - discriminate.
  - unfold ch. destruct (eqc nl c); cbn; discriminate.
  - unfold ch. cbn [startswith].
    destruct (eqc nl c); [ | cbn; discriminate].
    destruct (eqc nl d); [reflexivity | ].
    destruct (_ <? _); cbn; discriminate.
Qed.

(** Without a blank line there is no run to collapse. *)
Lemma sub_blank_run_same (s : str) :
  contains [nl; nl] s = false ->
  forall prev, sub_go blank_run [nl; nl] 0 prev s = s.
Proof.
  induction s as [|c s IH]; intros H prev; [reflexivity | ].
  cbn [sub_go]. cbn [contains] in H. apply orb_false_elim in H as [H1 H2].
  destruct (match_len blank_run prev (c :: s)) as [n|] eqn:E.
  - apply blank_run_starts in E. congruence.
  - rewrite (IH H2). reflexivity.
Qed.

(** A broken line is mended at one newline. *)
Lemma broken_line_one (prev : option ascii) (s : str) (n : nat) :
  match_len broken_line_re prev s = Some n -> n = 0.
Proof.
  unfold match_len, match_at, broken_line_re. cbn [seqs rmatch].
  destruct prev as [c0|]; [ | discriminate].
  destruct (_ || _); [ | discriminate].
  destruct s as [|c s]; [discriminate | ].
  destruct (ch nl c); [ | discriminate].
  destruct s as [|d s].
  - discriminate.
  - destruct (islower d); [ | discriminate].
    cbn [length]. rewrite Nat.sub_succ_l, Nat.sub_diag by lia.
    intros H. injection H as <-. reflexivity.
Qed.

(** Mending broken lines makes no blank line. *)
Lemma sub_broken_line_no_blank (s : str) :
  forall prev,
    (contains [nl; nl] s = false ->
     contains [nl; nl] (sub_go broken_line_re (T " ") 0 prev s) = false)
    /\ (startswith [nl] s = false ->
        startswith [nl] (sub_go broken_line_re (T " ") 0 prev s) = false).
Proof.
  induction s as [|c s IH]; intros prev; [split; trivial | ].
  cbn [sub_go]. destruct (IH (Some c)) as [IH1 IH2].
  destruct (match_len broken_line_re prev (c :: s)) as [n|] eqn:E.
  - apply broken_line_one in E. subst n. change (T " ") with [" "%char].
    cbn [app contains startswith]. split; [ | reflexivity].
    intros H. apply orb_false_elim in H as [_ H].
    change (eqc nl " ") with false. cbn [andb orb]. apply IH1, H.
  - cbn [contains startswith]. split; [ | trivial].
    intros H. apply orb_false_elim in H as [H1 H2].
    rewrite (IH1 H2), orb_false_r.
    destruct (eqc nl c); [ | reflexivity]. cbn [andb] in *.
    destruct s as [|d s]; [reflexivity | ].
    cbn [startswith] in H1. rewrite andb_true_r in H1.
    specialize (IH2 ltac:(cbn [startswith]; rewrite H1; reflexivity)).
    destruct (sub_go _ _ _ _ _) as [|e o]; [reflexivity | ].
    cbn [startswith] in *. exact IH2.
Qed.

Lemma contains_then_newline (o : str) :
  contains [nl; nl] o = false -> (forall r, o <> r ++ [nl]) ->
  contains [nl; nl] (o ++ [nl]) = false.
Proof.
  induction o as [|c o IH]; intros H Hend; [reflexivity | ].
  cbn [contains] in H. apply orb_false_elim in H as [H1 H2].
  cbn [app contains]. rewrite IH, orb_false_r; [ | exact H2 | ].
  - cbn [startswith] in *. destruct (eqc nl c) eqn:Ec; [ | reflexivity].
    cbn [andb] in *. destruct o as [|d o]; [ | exact H1].
    apply eqc_true in Ec. subst c. exfalso. apply (Hend []). reflexivity.
  - intros r E. apply (Hend (c :: r)). rewrite E. reflexivity.
Qed.

(** *** The text that [clean_text] returns *)

Lemma clean_text_long (t : str) :
  10 <= len (strip t) ->
  clean_text t
  = strip (re_sub broken_line_re (T " ")
             (re_sub blank_run [nl; nl]
                (join [nl] (keep_lines (split [nl] t))))).
Proof.
  intros H. unfold clean_text. destruct t as [|c t]; [simpl in H; lia | ].
  apply Nat.ltb_ge in H. rewrite H. reflexivity.
Qed.

Lemma keep_lines_length (lines : list str) :
  length (join [nl] (keep_lines lines)) <= length (join [nl] lines).
Proof.
  induction lines as [|line rest IH]; [simpl; lia | ].
  assert (Hdrop : length (join [nl] (keep_lines rest))
                  <= length (join [nl] (line :: rest))).
  { pose proof (join_tail_length [nl] line rest). lia. }
  cbn [keep_lines]. pose proof (strip_length line) as Hs.
  destruct (strip line) as [|c r] eqn:E; [exact Hdrop | ].
  repeat (match goal with
          | |- context [if ?b then _ else _] => destruct b
          end; [exact Hdrop | ]).
  destruct (keep_lines rest) as [|q kept] eqn:K.
  - pose proof (join_head_length [nl] line rest).
    change (join [nl] [c :: r]) with (c :: r). lia.
  - destruct rest as [|x rest]; [discriminate K | ].
    rewrite (join_cons [nl] (c :: r)) by discriminate.
    rewrite (join_cons [nl] line) by discriminate.
    rewrite !length_app. lia.
Qed.

(** X8.  [clean_text] never returns a text longer than the one it is given. *)
Theorem clean_text_never_longer (t : str) :
  length (clean_text t) <= length t.
Proof.
  unfold clean_text. destruct t as [|c t]; [simpl; lia | ].
  destruct (len (strip (c :: t)) <? 10); [lia | ].
  pose proof (keep_lines_length (split [nl] (c :: t))) as H1.
  rewrite join_split in H1 by discriminate.
  set (joined := join [nl] (keep_lines (split [nl] (c :: t)))) in *.
  pose proof (CondenseProps.blank_run_length joined) as H2.
  change (re_sub Condense.blank_run Condense.sep2 joined)
    with (re_sub blank_run [nl; nl] joined) in H2.
  set (collapsed := re_sub blank_run [nl; nl] joined) in *.
  assert (H3 : length (re_sub broken_line_re (T " ") collapsed)
               <= length collapsed).
  { apply re_sub_length. intros prev s n _. simpl. lia. }
  pose proof (strip_length (re_sub broken_line_re (T " ") collapsed)).
  lia.
Qed.

Lemma clean_text_shape (t : str) :
  10 <= len (strip t) ->
  contains [nl; nl] (clean_text t) = false
  /\ contains [nl; nl] (clean_text t ++ [nl]) = false
  /\ strip (clean_text t) = clean_text t.
Proof.
  intros Hlong. rewrite (clean_text_long t Hlong).
  assert (Hin : contains [nl; nl]
                  (re_sub broken_line_re (T " ")
                     (re_sub blank_run [nl; nl]
                        (join [nl] (keep_lines (split [nl] t))))) = false).
  { destruct (join_lines_no_blank (keep_lines (split [nl] t))) as [Hj _].
    - apply keep_lines_lines, split_nl_lines.
    - unfold re_sub at 2. rewrite (sub_blank_run_same _ Hj).
      unfold re_sub. apply sub_broken_line_no_blank, Hj. }
  assert (Hout : contains [nl; nl] (strip
                  (re_sub broken_line_re (T " ")
                     (re_sub blank_run [nl; nl]
                        (join [nl] (keep_lines (split [nl] t)))))) = false)
    by (apply contains_strip, Hin).
  split; [exact Hout | ]. split; [ | apply strip_strip].
  apply contains_then_newline; [exact Hout | ].
  intros r. apply strip_no_final_newline.
Qed.

(** X9.  For a text of ten characters or more once stripped, the text that
    [clean_text] returns holds no blank line and no final newline, and is
    stripped. *)
Theorem clean_text_no_blank_line (t : str) :
  10 <= len (strip t) ->
  contains [nl; nl] (clean_text t) = false
  /\ contains [nl; nl] (clean_text t ++ [nl]) = false
  /\ strip (clean_text t) = clean_text t.
Proof. exact (clean_text_shape t). Qed.

(** The theorem at a scanned page with a header, a broken sentence, a line
    number and a stamp. *)
Lemma clean_text_no_blank_line_witness :
  10 <= len (strip scanned_page)
  /\ clean_text scanned_page = T "The agent met, the witness at noon."
  /\ contains [nl; nl] (clean_text scanned_page) = false.
Proof.
  assert (H : 10 <= len (strip scanned_page)) by (vm_compute; lia).
  split; [exact H | split; [vm_compute; reflexivity | ]].
  exact (proj1 (clean_text_no_blank_line scanned_page H)).
Defined.

(** *** The pages of a cleaned document *)

Lemma startswith_nl_app (p x y : str) :
  startswith [nl] (p ++ nl :: x) = startswith [nl] (p ++ nl :: y).
Proof. destruct p; reflexivity. Qed.

Lemma startswith_pair (c : ascii) (x : str) :
  startswith [nl; nl] (c :: x) = eqc nl c && startswith [nl] x.
Proof. reflexivity. Qed.

Lemma split_piece (p r : str) :
  contains [nl; nl] (p ++ [nl]) = false ->
  split_go [nl; nl] 0 (p ++ nl :: nl :: r) = p :: split_go [nl; nl] 0 r.
Proof.
  induction p as [|c p IH]; intros H.
  - reflexivity.
  - cbn [app contains] in H. apply orb_false_elim in H as [H1 H2].
    cbn [app split_go]. rewrite startswith_pair in *.
    rewrite (startswith_nl_app p (nl :: r) []), H1, (IH H2). reflexivity.
Qed.

Lemma split_whole (p : str) :
  contains [nl; nl] p = false -> split_go [nl; nl] 0 p = [p].
Proof.
  induction p as [|c p IH]; intros H; [reflexivity | ].
  cbn [contains] in H. apply orb_false_elim in H as [H1 H2].
  cbn [split_go]. rewrite H1, (IH H2). reflexivity.
Qed.

(** Pages without a blank line and without a final newline, joined by blank
    lines, are given back by the split on blank lines. *)
Lemma split_join_pages (ps : list str) :
  ps <> [] ->
  Forall (fun p => contains [nl; nl] (p ++ [nl]) = false) ps ->
  split [nl; nl] (join [nl; nl] ps) = ps.
Proof.
  intros Hne H. unfold split.
  induction H as [|p rest Hp _ IH]; [contradiction | ].
  destruct rest as [|q rest].
  - cbn [join]. apply split_whole. apply (contains_app_l _ _ [nl]), Hp.
  - rewrite join_cons by discriminate. cbn [app].
    rewrite (split_piece _ _ Hp), IH by discriminate. reflexivity.
Qed.

Lemma insert_by_map (A B : Type) (f : A -> B) (le : A -> A -> bool)
  (le' : B -> B -> bool) (x : A) (l : list A) :
  (forall a b, le' (f a) (f b) = le a b) ->
  insert_by le' (f x) (map f l) = map f (insert_by le x l).
Proof.
  intros H. induction l as [|y l IH]; [reflexivity | ].
  simpl. rewrite H. destruct (le x y); simpl; [reflexivity | ].
  rewrite IH. reflexivity.
Qed.

Lemma order_by_map (A B : Type) (f : A -> B) (le : A -> A -> bool)
  (le' : B -> B -> bool) (l : list A) :
  (forall a b, le' (f a) (f b) = le a b) ->
  order_by le' (map f l) = map f (order_by le l).
Proof.
  intros H. unfold order_by. induction l as [|x l IH]; [reflexivity | ].
  simpl. rewrite IH. apply insert_by_map, H.
Qed.

Lemma filter_map_same (A : Type) (f : A -> A) (g : A -> bool) (l : list A) :
  (forall a, g (f a) = g a) -> filter g (map f l) = map f (filter g l).
Proof.
  intros H. induction l as [|x l IH]; [reflexivity | ].
  simpl. rewrite H, IH. destruct (g x); reflexivity.
Qed.

(** [clean.main] cleans the pages of a document in place: the same pages
    in the same order, each one cleaned. *)
Lemma page_texts_clean_main (db : Db) (id : nat) :
  page_texts (clean_main db) id = map clean_text (page_texts db id).
Proof.
  unfold page_texts, clean_main. cbn [pages].
  rewrite filter_map_same by reflexivity.
  rewrite (order_by_map _ _ _ (fun p q => page_num p <=? page_num q))
    by reflexivity.
  rewrite !map_map. reflexivity.
Qed.

(** X10.  After [clean.main], the split of [full_text] on blank lines, which
    is how [condense_text] finds the pages, gives back the cleaned pages of
    the document, provided it has a page and each of its pages had ten
    characters or more once stripped. *)
Theorem clean_main_pages_recovered (db : Db) (d : Document) :
  In d (documents (clean_main db)) ->
  page_texts db (doc_id d) <> [] ->
  Forall (fun t => 10 <= len (strip t)) (page_texts db (doc_id d)) ->
  split [nl; nl] (full_text d) = map clean_text (page_texts db (doc_id d))
  /\ page_texts (clean_main db) (doc_id d)
     = map clean_text (page_texts db (doc_id d)).
Proof.
  intros Hin Hne Hlong. split; [ | apply page_texts_clean_main].
  unfold clean_main in Hin. cbn [documents] in Hin.
  apply in_map_iff in Hin as (d0 & <- & _).
  cbn [full_text set_full_text doc_id] in *.
  change (page_texts (mkDb (documents db) _ (search_index db) _) (doc_id d0))
    with (page_texts (clean_main db) (doc_id d0)).
  rewrite page_texts_clean_main. apply split_join_pages.
  - destruct (page_texts db (doc_id d0)); [contradiction | discriminate].
  - apply Forall_map. revert Hlong. apply Forall_impl. intros t Ht.
    apply (clean_text_shape t Ht).
Qed.

(** The theorem at the report of two pages. *)
Lemma clean_main_pages_recovered_witness :
  split [nl; nl]
    (T "first page of the report" ++ [nl; nl]
     ++ T "second page of the report")
  = report_pages.
Proof.
  assert (Hd : exists d, In d (documents (clean_main ingested))
                         /\ doc_id d = 1
                         /\ full_text d
                            = T "first page of the report" ++ [nl; nl]
                              ++ T "second page of the report").
  { eexists. split; [left; reflexivity | ]. split; vm_compute; reflexivity. }
  destruct Hd as (d & Hin & Hid & Hfull).
  rewrite <- Hfull.
  rewrite (proj1 (clean_main_pages_recovered ingested d Hin
                    ltac:(rewrite Hid; vm_compute; discriminate)
                    ltac:(rewrite Hid; vm_compute; repeat constructor))).
  rewrite Hid. vm_compute. reflexivity.
Defined.

End CleanProps.

(** ** The invariant of the store *)

Module StoreProps.
Import Py Store Pipeline Invariants Samples.
Import IngestProps.
Open Scope nat_scope.

Lemma next_rowid_above (ids : list nat) (x : nat) :
  In x ids -> x < next_rowid ids.
Proof.
  unfold next_rowid. induction ids as [|y ids IH]; [contradiction | ].
  simpl. intros [-> | H]; [lia | ]. specialize (IH H). lia.
Qed.

Lemma next_rowid_fresh (ids : list nat) : ~ In (next_rowid ids) ids.
Proof. intros H. apply next_rowid_above in H. lia. Qed.

Lemma nodup_snoc (A : Type) (l : list A) (x : A) :
  NoDup l -> ~ In x l -> NoDup (l ++ [x]).
Proof.
  intros Hl Hx. apply NoDup_app; [exact Hl | repeat constructor; tauto | ].
  intros a Ha [<- | []]. contradiction.
Qed.

Lemma index_rows_app (ds : list Document) (ps ps' : list Page) :
  index_rows ds (ps ++ ps') = index_rows ds ps ++ index_rows ds ps'.
Proof. unfold index_rows. apply flat_map_app. Qed.

(** A document that owns none of the pages adds nothing to their join. *)
Lemma index_rows_new_document (ds : list Document) (d : Document)
  (ps : list Page) :
  Forall (fun p => page_doc p <> doc_id d) ps ->
  index_rows (ds ++ [d]) ps = index_rows ds ps.
Proof.
  unfold index_rows. induction 1 as [|p ps Hp _ IH]; [reflexivity | ].
  cbn [flat_map]. rewrite IH, filter_app. cbn [filter].
  destruct (doc_id d =? page_doc p) eqn:E.
  - apply Nat.eqb_eq in E. congruence.
  - rewrite app_nil_r. reflexivity.
Qed.

Lemma index_rows_same_keys (g : Document -> Document) (ds : list Document)
  (ps : list Page) :
  (forall d, doc_id (g d) = doc_id d /\ filename (g d) = filename d) ->
  index_rows (map g ds) ps = index_rows ds ps.
Proof.
  intros Hg. unfold index_rows. apply flat_map_ext. intros p.
  induction ds as [|d ds IH]; [reflexivity | ].
  cbn [map filter]. destruct (Hg d) as [Hid Hname]. rewrite Hid.
  destruct (doc_id d =? page_doc p); cbn [map]; rewrite IH;
    [rewrite Hname | ]; reflexivity.
Qed.

Lemma insert_page_fields (id : nat) (db : Db) (i : nat) (t : str) :
  documents (insert_page id db (i, t)) = documents db
  /\ pages (insert_page id db (i, t))
     = pages db ++ [mkPage (next_rowid (map page_id (pages db))) id (i + 1) t]
  /\ search_index (insert_page id db (i, t))
     = search_index db
       ++ index_rows (documents db)
            [mkPage (next_rowid (map page_id (pages db))) id (i + 1) t].
Proof. repeat split. Qed.

(** What the inner loop of [ingest] adds to the store. *)
Lemma insert_pages_spec (id : nat) (l : list (nat * str)) (db : Db) :
  exists news,
    pages (fold_left (insert_page id) l db) = pages db ++ news
    /\ Forall (fun p => page_doc p = id) news
    /\ map page_num news = map (fun it => fst it + 1) l
    /\ (NoDup (map page_id (pages db)) ->
        NoDup (map page_id (pages db ++ news)))
    /\ search_index (fold_left (insert_page id) l db)
       = search_index db ++ index_rows (documents db) news.
Proof.
  revert db. induction l as [|[i t] l IH]; intros db.
  - exists []. rewrite !app_nil_r. cbn.
    repeat split; try constructor; trivial.
  - cbn [fold_left].
    destruct (IH (insert_page id db (i, t))) as (news & Hp & Hd & Hn & Hu & Hx).
    destruct (insert_page_fields id db i t) as (E1 & E2 & E3).
    rewrite E1, E2, E3 in *. clear E1 E2 E3.
    set (p := mkPage (next_rowid (map page_id (pages db))) id (i + 1) t) in *.
    exists (p :: news). rewrite Hp, Hx, <- !app_assoc. cbn [app].
    split; [reflexivity | ].
    split; [constructor; [reflexivity | exact Hd] | ].
    split; [cbn [map fst]; rewrite Hn; reflexivity | ].
    split.
    + intros Hnd. change (p :: news) with ([p] ++ news).
      rewrite app_assoc. apply Hu.
      rewrite map_app. apply nodup_snoc; [exact Hnd | apply next_rowid_fresh].
    + change (p :: news) with ([p] ++ news).
      rewrite index_rows_app. reflexivity.
Qed.

Lemma not_known (db : Db) (name : str) :
  known db name = false -> ~ In name (map filename (documents db)).
Proof.
  unfold known. intros Hk Hin. apply in_map_iff in Hin as (d & <- & Hd).
  assert (existsb (fun d0 => eqs (filename d0) (filename d)) (documents db)
          = true).
  { apply existsb_exists. exists d. split; [exact Hd | apply eqs_refl]. }
  congruence.
Qed.

Section Ingest.
Variable fitz_open : str -> reading.
Variable bates_map : str -> option str.

(** One turn of the loop of [ingest] keeps the invariant. *)
Lemma ingest_pdf_well_formed (db db' : Db) (p : str) :
  well_formed db -> ingest_pdf fitz_open bates_map db p = Some db' ->
  well_formed db'.
Proof.
  intros [Hf Hi Hp Ho Hn Hx]. unfold ingest_pdf.
  destruct (known db (basename p)) eqn:Hk;
    [intros E; injection E as <-; constructor; assumption | ].
  destruct (fitz_open p) as [| |pages_text]; intros E;
    [injection E as <-; constructor; assumption | discriminate | ].
  injection E as <-.
  set (id := next_rowid (map doc_id (documents db))).
  set (d := mkDocument id _ _ _ _ _ _ _ _ _).
  destruct (insert_pages_spec id (enumerate pages_text)
              (mkDb (documents db ++ [d]) (pages db) (search_index db)
                 (verdict_columns db)))
    as (news & Hpages & Hdoc & Hnum & Huniq & Hindex).
  cbn [pages documents search_index] in *.
  assert (Hold : Forall (fun q => page_doc q <> id) (pages db)).
  { revert Ho. apply Forall_impl. intros q Hq E. rewrite E in Hq.
    exact (next_rowid_fresh _ Hq). }
  constructor; rewrite ?insert_pages_documents; cbn [documents].
  - rewrite map_app. apply nodup_snoc; [exact Hf | apply not_known, Hk].
  - rewrite map_app. apply nodup_snoc; [exact Hi | apply next_rowid_fresh].
  - rewrite Hpages. apply Huniq, Hp.
  - rewrite Hpages, map_app. apply Forall_app. split.
    + revert Ho. apply Forall_impl. intros q Hq. apply in_or_app. left.
      exact Hq.
    + revert Hdoc. apply Forall_impl. intros q Hq. apply in_or_app. right.
      left. symmetry. exact Hq.
  - unfold pages_of in *. rewrite Hpages. apply Forall_app. split.
    + apply Forall_forall. intros d0 Hd0.
      rewrite Forall_forall in Hn. rewrite filter_app, map_app, (Hn d0 Hd0).
      rewrite filter_none; [apply app_nil_r | ].
      revert Hdoc. apply Forall_impl. intros q Hq. apply Nat.eqb_neq.
      rewrite Hq. intros E.
      apply (next_rowid_fresh (map doc_id (documents db))).
      fold id. rewrite E. apply in_map, Hd0.
    + constructor; [ | constructor]. cbn [doc_id page_count].
      rewrite filter_app, filter_none, filter_all; cbn [app].
      * rewrite Hnum. unfold enumerate.
        exact (proj1 (enumerate_from _ pages_text 0)).
      * revert Hdoc. apply Forall_impl. intros q Hq. apply Nat.eqb_eq, Hq.
      * revert Hold. apply Forall_impl. intros q Hq. apply Nat.eqb_neq, Hq.
  - rewrite Hindex, Hpages, index_rows_app, Hx. f_equal.
    symmetry. apply index_rows_new_document. exact Hold.
Qed.

Lemma ingest_loop_well_formed (l : list str) (db db' : Db) :
  well_formed db -> ingest_loop fitz_open bates_map l db = Some db' ->
  well_formed db'.
Proof.
  revert db. induction l as [|p l IH]; intros db H E.
  - injection E as <-. exact H.
  - cbn [ingest_loop] in E.
    destruct (ingest_pdf fitz_open bates_map db p) as [db1|] eqn:E1;
      [ | discriminate].
    exact (IH db1 (ingest_pdf_well_formed db db1 p H E1) E).
Qed.

(** The store that a run of [ingest] leaves is well formed, whether the
    run returns or raises. *)
Lemma ingest_well_formed (pdfs : list str) (db : Db) :
  well_formed db -> well_formed (fst (ingest fitz_open bates_map pdfs db)).
Proof.
  intros H. unfold ingest.
  destruct (ingest_loop fitz_open bates_map (sorted pdfs) db) as [db'|] eqn:E;
    cbn [fst]; [ | exact H].
  exact (ingest_loop_well_formed _ db db' H E).
Qed.

End Ingest.

Lemma empty_db_well_formed : well_formed empty_db.
Proof. constructor; cbn; constructor. Qed.

Lemma pages_of_map (f : Page -> Page) (db : Db) (ds : list Document)
  (es : list Entry) (v : bool) (id : nat) :
  (forall p, page_doc (f p) = page_doc p /\ page_num (f p) = page_num p) ->
  map page_num (pages_of (mkDb ds (map f (pages db)) es v) id)
  = map page_num (pages_of db id).
Proof.
  intros Hf. unfold pages_of. cbn [pages].
  rewrite CleanProps.filter_map_same by (intros p; rewrite (proj1 (Hf p));
                                         reflexivity).
  rewrite map_map. apply map_ext. intros p. apply Hf.
Qed.

(** A stage that rewrites the documents and the pages in place, keeping
    their keys, keeps the invariant once the index is rebuilt or left. *)
Lemma rewrite_well_formed (g : Document -> Document) (f : Page -> Page)
  (db : Db) (es : list Entry) (v : bool) :
  (forall d, doc_id (g d) = doc_id d /\ filename (g d) = filename d
             /\ page_count (g d) = page_count d) ->
  (forall p, page_id (f p) = page_id p /\ page_doc (f p) = page_doc p
             /\ page_num (f p) = page_num p) ->
  es = index_rows (map g (documents db)) (map f (pages db)) ->
  well_formed db ->
  well_formed (mkDb (map g (documents db)) (map f (pages db)) es v).
Proof.
  intros Hg Hf He [Hn1 Hn2 Hn3 Ho Hnum Hx].
  assert (Eid : map doc_id (map g (documents db)) = map doc_id (documents db)).
  { rewrite map_map. apply map_ext. intros d. apply Hg. }
  constructor; cbn [documents pages search_index].
  - rewrite map_map. erewrite map_ext; [exact Hn1 | ]. intros d. apply Hg.
  - rewrite Eid. exact Hn2.
  - rewrite map_map. erewrite map_ext; [exact Hn3 | ]. intros p. apply Hf.
  - rewrite Eid. apply Forall_map. revert Ho. apply Forall_impl.
    intros p Hp. rewrite (proj1 (proj2 (Hf p))). exact Hp.
  - apply Forall_map. revert Hnum. apply Forall_impl. intros d Hd.
    destruct (Hg d) as (Hid & _ & Hc). rewrite Hid, Hc, <- Hd.
    apply pages_of_map. intros p. split; apply Hf.
  - exact He.
Qed.

Lemma map_id_pages (db : Db) : map (fun p : Page => p) (pages db) = pages db.
Proof. apply map_id. Qed.

Lemma clean_main_well_formed (db : Db) :
  well_formed db -> well_formed (clean_main db).
Proof.
  intros H. unfold clean_main. apply rewrite_well_formed.
  - intros d. repeat split.
  - intros p. repeat split.
  - reflexivity.
  - exact H.
Qed.

Lemma classify_main_well_formed (db : Db) :
  well_formed db -> well_formed (classify_main db).
Proof.
  intros H. unfold classify_main. rewrite <- (map_id_pages db) at 1.
  apply rewrite_well_formed.
  - intros d. destruct (Classify.classify _ _). repeat split.
  - intros p. repeat split.
  - rewrite map_id_pages, (wf_indexed H).
    symmetry. apply index_rows_same_keys.
    intros d. destruct (Classify.classify _ _). split; reflexivity.
  - exact H.
Qed.

Lemma condense_main_well_formed (db db' : Db) :
  well_formed db -> condense_main db = Some db' -> well_formed db'.
Proof.
  intros H. unfold condense_main.
  destruct (verdict_columns db); [ | discriminate].
  intros E. injection E as <-. rewrite <- (map_id_pages db) at 1.
  apply rewrite_well_formed.
  - intros d. unfold condense_document.
    destruct (Condense.reclassify _ _ _ _). repeat split.
  - intros p. repeat split.
  - rewrite map_id_pages, (wf_indexed H).
    symmetry. apply index_rows_same_keys.
    intros d. unfold condense_document.
    destruct (Condense.reclassify _ _ _ _). split; reflexivity.
  - exact H.
Qed.

(** X11.  The stages keep the store well formed.  From a well-formed store,
    and so from the empty one, [ingest], [clean.main], [classify.main] and
    [condense.main] lead to a store where file names, document ids and page
    ids are unique, every page belongs to a stored document, the pages of a
    document are numbered 1, 2, ... up to its page count, and the index is the
    join of the pages with their documents.  This holds of the store that
    [ingest] leaves whether it returns or raises, and of the store that
    [condense.main] leaves when it returns; when it raises it leaves the
    store as it found it. *)
Theorem stages_keep_store_well_formed
  (fitz_open : str -> reading) (bates_map : str -> option str)
  (pdfs : list str) (db : Db) :
  well_formed db ->
  well_formed (fst (ingest fitz_open bates_map pdfs db))
  /\ well_formed (clean_main db)
  /\ well_formed (classify_main db)
  /\ (forall db', condense_main db = Some db' -> well_formed db').
Proof.
  intros H. split; [apply ingest_well_formed, H | ].
  split; [apply clean_main_well_formed, H | ].
  split; [apply classify_main_well_formed, H
         | intros db'; apply condense_main_well_formed, H].
Qed.

(** The theorem from the empty store: the batch of the examples, ingested
    and cleaned, is well formed. *)
Lemma stages_keep_store_well_formed_witness :
  well_formed empty_db /\ well_formed ingested
  /\ well_formed (clean_main ingested).
Proof.
  assert (H0 : well_formed empty_db) by (constructor; cbn; constructor).
  assert (H1 : well_formed ingested)
    by exact (proj1 (stages_keep_store_well_formed open_report no_manifest
                       batch empty_db H0)).
  split; [exact H0 | split; [exact H1 | ]].
  exact (proj1 (proj2 (stages_keep_store_well_formed open_report no_manifest
                         [] ingested H1))).
Defined.

End StoreProps.

(** ** The index *)

Module IndexProps.
Import Py Store Pipeline Invariants Samples.
Import IngestProps.
Open Scope nat_scope.

(** In a table with unique ids, the join condition picks one document. *)
Lemma owner_unique (ds : list Document) (id : nat) :
  NoDup (map doc_id ds) -> In id (map doc_id ds) ->
  exists d, In d ds /\ doc_id d = id
            /\ filter (fun d => doc_id d =? id) ds = [d].
Proof.
  induction ds as [|d0 ds IH]; intros Hnd Hin; [contradiction | ].
  cbn [map] in *. apply NoDup_cons_iff in Hnd as [Hnew Hnd].
  cbn [filter]. destruct (doc_id d0 =? id) eqn:E.
  - apply Nat.eqb_eq in E. exists d0. split; [left; reflexivity | ].
    split; [exact E | ]. f_equal. apply filter_none.
    apply Forall_forall. intros d Hd. apply Nat.eqb_neq. intros Hid.
    apply Hnew. rewrite E, <- Hid. apply in_map, Hd.
  - apply Nat.eqb_neq in E. destruct Hin as [Hin | Hin]; [contradiction | ].
    destruct (IH Hnd Hin) as (d & Hd & Hid & Hf).
    exists d. split; [right; exact Hd | split; assumption].
Qed.

Lemma index_rows_entries (ds : list Document) (ps : list Page) :
  NoDup (map doc_id ds) ->
  Forall (fun p => In (page_doc p) (map doc_id ds)) ps ->
  Forall2 (fun p e => exists d, In d ds /\ doc_id d = page_doc p
                                /\ e = entry_of d p)
    ps (index_rows ds ps).
Proof.
  intros Hnd. unfold index_rows.
  induction 1 as [|p ps Hp _ IH]; [constructor | ].
  cbn [flat_map]. destruct (owner_unique ds (page_doc p) Hnd Hp)
    as (d & Hd & Hid & Hf).
  rewrite Hf. cbn [map app]. constructor; [ | exact IH].
  exists d. repeat split; assumption.
Qed.

(** X12.  In a well-formed store the full-text index holds one entry per page,
    in the order of the pages: the id of the page as row id, the file name of
    the document that owns the page, the page number and the page text. *)
Theorem index_has_one_entry_per_page (db : Db) :
  well_formed db ->
  Forall2 (fun p e => exists d, In d (documents db)
                                /\ doc_id d = page_doc p
                                /\ e = entry_of d p)
    (pages db) (search_index db).
Proof.
  intros H. rewrite (wf_indexed H).
  apply index_rows_entries; [exact (wf_doc_ids H) | exact (wf_owned H)].
Qed.

(** The theorem at the cleaned store of the report: two pages, two
    entries. *)
Lemma index_has_one_entry_per_page_witness :
  well_formed (clean_main ingested)
  /\ length (search_index (clean_main ingested)) = 2.
Proof.
  assert (H : well_formed (clean_main ingested)).
  { apply StoreProps.clean_main_well_formed.
    apply StoreProps.ingest_well_formed, StoreProps.empty_db_well_formed. }
  split; [exact H | ].
  rewrite <- (Forall2_length (index_has_one_entry_per_page _ H)).
  reflexivity.
Defined.

End IndexProps.

(** ** More on search *)

Module SearchMore.
Import Py Re Store App Samples.
Import SearchProps.
Open Scope nat_scope.

(** Deleting the characters of a class is a filter. *)
Lemma re_sub_class (p : ascii -> bool) (s : str) :
  re_sub (Chr p) [] s = filter (fun c => negb (p c)) s.
Proof.
  unfold re_sub. generalize (@None ascii).
  induction s as [|c s IH]; intros prev; [reflexivity | ].
  cbn [sub_go filter]. unfold match_len, match_at. cbn [rmatch].
  destruct (p c); cbn [negb].
  - cbn [length]. rewrite Nat.sub_succ_l, Nat.sub_diag by lia.
    cbn [app]. apply IH.
  - f_equal. apply IH.
Qed.

Lemma clean_token (t : str) : re_sub nonword_re [] t = filter isword t.
Proof.
  unfold nonword_re. rewrite re_sub_class. apply filter_ext.
  intros c. apply negb_involutive.
Qed.

Lemma join_forall (P : ascii -> Prop) (sep : str) (l : list str) :
  Forall P sep -> Forall (Forall P) l -> Forall P (join sep l).
Proof.
  intros Hsep. induction 1 as [|p l Hp Hl IH]; [constructor | ].
  destruct l as [|q l]; [exact Hp | ].
  rewrite ReFacts.join_cons by discriminate.
  apply Forall_app. split; [exact Hp | ].
  apply Forall_app. split; [exact Hsep | exact IH].
Qed.

(** X13.  The full-text query is made of word characters, of the star that
    ends each token and of the spaces around [AND]: whatever the request
    holds, no quote, parenthesis, colon, minus or other operator character
    reaches the full-text engine. *)
Theorem fts_query_characters (q : str) :
  Forall (fun c => isword c = true \/ c = "*"%char \/ c = " "%char)
    (_build_fts_query q).
Proof.
  unfold _build_fts_query. apply join_forall.
  - unfold T. cbn [list_ascii_of_string].
    repeat (apply Forall_cons;
            [first [left; reflexivity | right; right; reflexivity] | ]).
    constructor.
  - induction (split_ws q) as [|t l IH]; [constructor | ].
    cbn [flat_map]. rewrite clean_token.
    destruct (filter isword t) as [|c r] eqn:E; [exact IH | ].
    apply Forall_app. split; [ | exact IH]. constructor; [ | constructor].
    rewrite <- E. apply Forall_app. split.
    + apply Forall_forall. intros x Hx. apply filter_In in Hx as [_ Hx].
      left. exact Hx.
    + apply Forall_cons; [right; left; reflexivity | constructor].
Qed.

(** An exception that leaves the part of [search] that runs on the cursor
    is one raised by the fallback statement, run with the first token of
    the query. *)
Lemma cursor_part_raises_from_fallback
  (cur : Cursor) (arg : option str) (e : string) :
  snd (search cur arg) = Raised e ->
  exists first rest,
    split_ws (query_of arg) = first :: rest
    /\ In (Like first (like_pattern (query_of arg))) (fst (search cur arg))
    /\ exec_like cur first (like_pattern (query_of arg)) = Raised e.
Proof.
  destruct (query_of arg) as [|c q] eqn:Eq.
  - unfold search. rewrite Eq. cbn. discriminate.
  - assert (Htok : split_ws (query_of arg) <> [])
      by (apply query_has_token; rewrite Eq; discriminate).
    destruct (split_ws (query_of arg)) as [|first rest] eqn:Es;
      [contradiction | ].
    rewrite <- Eq.
    destruct (_build_fts_query (query_of arg)) as [|x f] eqn:Ef.
    + rewrite (search_falls_back cur arg first rest Es)
        by (left; exact Ef).
      rewrite Ef. cbn [fst snd app]. intros H.
      exists first, rest.
      split; [exact Es | split; [left; reflexivity | exact H]].
    + destruct (exec_match cur (_build_fts_query (query_of arg)))
        as [[|r rows]|e0] eqn:Em.
      * rewrite (search_falls_back cur arg first rest Es)
          by (right; left; exact Em).
        rewrite Ef. cbn [fst snd app]. intros H.
        exists first, rest.
        split; [exact Es | split; [right; left; reflexivity | exact H]].
      * unfold search. rewrite Eq in *. rewrite Ef in *. rewrite Em.
        cbn. discriminate.
      * rewrite (search_falls_back cur arg first rest Es)
          by (right; right; exists e0; exact Em).
        rewrite Ef. cbn [fst snd app]. intros H.
        exists first, rest.
        split; [exact Es | split; [right; left; reflexivity | exact H]].
Qed.

(** X14.  An exception that leaves [search] has one of four origins: the
    opening of the connection; the fallback statement, which was run with
    the first token of the query and the pattern made of its tokens; the
    closing of the connection; the encoding of the answer.  A failure of
    the primary statement is never surfaced, and the first token that the
    fallback needs always exists. *)
Theorem search_raises_outside_primary
  (web : Web) (arg : option str) (e : string) :
  snd (search_handler web arg) = Raised e ->
  get_db web = Raised e
  \/ (exists conn first rest,
        get_db web = Returned conn
        /\ split_ws (query_of arg) = first :: rest
        /\ In (Like first (like_pattern (query_of arg)))
             (fst (search_handler web arg))
        /\ exec_like (cursor conn) first (like_pattern (query_of arg))
           = Raised e)
  \/ (exists conn, get_db web = Returned conn /\ close conn = Some e)
  \/ (exists rows, jsonify_error web rows = Some e).
Proof.
  unfold search_handler, respond.
  destruct (query_of arg) as [|c q] eqn:Eq.
  - cbn [snd]. destruct (jsonify_error web []) as [e0|] eqn:Ej;
      [ | discriminate].
    intros H. injection H as <-. right. right. right. exists []. exact Ej.
  - rewrite <- Eq.
    destruct (get_db web) as [conn|e0] eqn:Eg;
      [ | cbn [snd]; intros H; injection H as <-; left; reflexivity].
    pose proof (cursor_part_raises_from_fallback (cursor conn) arg) as Hc.
    destruct (search (cursor conn) arg) as [issued [rows|e1]].
    + destruct (close conn) as [e2|] eqn:Ec; cbn [snd fst].
      * intros H. injection H as <-. right. right. left.
        exists conn. split; [reflexivity | exact Ec].
      * destruct (jsonify_error web rows) as [e3|] eqn:Ej; [ | discriminate].
        intros H. injection H as <-. right. right. right.
        exists rows. exact Ej.
    + cbn [snd fst] in *. intros H. injection H as <-.
      destruct (Hc e1 eq_refl) as (first & rest & Hs & Hin & Hl).
      right. left. exists conn, first, rest.
      split; [reflexivity | split; [exact Hs | split; assumption]].
Qed.

(** The theorem at a connection whose two statements fail, and at a
    connection that does not open. *)
Lemma search_raises_outside_primary_witness :
  snd (search_handler locked_web (Some (T "grand jury")))
  = Raised "database is locked"
  /\ exec_like locked_cursor (T "grand") (T "%grand%jury%")
     = Raised "database is locked"
  /\ search_handler closed_web (Some (T "grand jury"))
     = ([], Raised "unable to open database file").
Proof.
  assert (H : snd (search_handler locked_web (Some (T "grand jury")))
              = Raised "database is locked") by (vm_compute; reflexivity).
  split; [exact H | split; [ | vm_compute; reflexivity]].
  destruct (search_raises_outside_primary locked_web
              (Some (T "grand jury")) "database is locked" H)
    as [Hg | [(conn & first & rest & Hg & Hs & _ & Hl) | [(conn & Hg & Hc)
       | (rows & Hj)]]].
  - discriminate Hg.
  - vm_compute in Hs. injection Hs as <- _.
    vm_compute in Hg. injection Hg as <-. exact Hl.
  - vm_compute in Hg. injection Hg as <-. discriminate Hc.
  - discriminate Hj.
Defined.

End SearchMore.

(** ** The fallback statement *)

Module FallbackProps.
Import Py Re Store App Samples.
Import SearchProps.
Open Scope nat_scope.









(** *** The snippet *)






End FallbackProps.

(** ** parse_dat *)

Module ManifestProps.
Import Manifest.
Open Scope nat_scope.

Lemma eqt_eq (a b : text) : eqt a b = true -> a = b.
Proof.
  revert b. induction a as [|x a IH]; intros [|y b] H; try discriminate;
    [reflexivity | ].
  simpl in H. apply andb_prop in H as [H1 H2].
  apply N.eqb_eq in H1. subst y. f_equal. apply IH, H2.
Qed.

Lemma eqt_refl (a : text) : eqt a a = true.
Proof.
  induction a as [|x a IH]; [reflexivity | ].
  simpl. rewrite N.eqb_refl. exact IH.
Qed.

(** The pieces of a split do not hold the separator. *)
Lemma split_pieces (sep : N) (s : text) :
  Forall (Forall (fun c => c <> sep)) (split sep s).
Proof.
  induction s as [|c s IH]; [repeat constructor | ].
  cbn [split]. destruct (N.eqb_spec c sep) as [E | E].
  - constructor; [constructor | exact IH].
  - destruct (split sep s) as [|p ps]; cbn [cons_head].
    + repeat constructor. exact E.
    + inversion IH as [|? ? Hp Hps]. subst. constructor; [ | exact Hps].
      constructor; [exact E | exact Hp].
Qed.

(** The fields of a line are not empty and hold no delimiter. *)
Lemma fields_shape (line : text) :
  Forall (fun p => p <> [] /\ ~ In thorn p) (fields line).
Proof.
  unfold fields. apply Forall_forall. intros p Hp.
  apply filter_In in Hp as [Hin Hne].
  split; [destruct p; discriminate | ].
  pose proof (split_pieces thorn (strip line)) as H.
  rewrite Forall_forall in H. specialize (H p Hin).
  rewrite Forall_forall in H. intros Hth. exact (H _ Hth eq_refl).
Qed.

Lemma add_record_lookup (d : dict) (line k v : text) :
  add_record d line k = Some v ->
  d k = Some v \/ exists rest, fields line = k :: v :: rest.
Proof.
  unfold add_record, dict_set.
  destruct (fields line) as [|k0 [|v0 rest]]; try (left; assumption).
  destruct (eqt k k0) eqn:E; [ | left; assumption].
  apply eqt_eq in E. subst k0. intros H. injection H as <-.
  right. exists rest. reflexivity.
Qed.

Lemma loop_lookup (lines : list text) (d : dict) (k v : text) :
  fold_left add_record lines d k = Some v ->
  d k = Some v
  \/ exists line rest, In line lines /\ fields line = k :: v :: rest.
Proof.
  revert d. induction lines as [|line lines IH]; intros d H; [left; exact H | ].
  cbn [fold_left] in H. apply IH in H as [H | (l & rest & Hin & Hf)].
  - apply add_record_lookup in H as [H | [rest Hf]]; [left; exact H | ].
    right. exists line, rest. split; [left; reflexivity | exact Hf].
  - right. exists l, rest. split; [right; exact Hin | exact Hf].
Qed.

Lemma loop_untouched (lines : list text) (d : dict) (k : text) :
  (forall line v rest, In line lines -> fields line <> k :: v :: rest) ->
  fold_left add_record lines d k = d k.
Proof.
  revert d. induction lines as [|line lines IH]; intros d H; [reflexivity | ].
  cbn [fold_left]. rewrite IH.
  - unfold add_record, dict_set.
    destruct (fields line) as [|k0 [|v0 rest]] eqn:E; try reflexivity.
    destruct (eqt k k0) eqn:Ek; [ | reflexivity].
    apply eqt_eq in Ek. subst k0. exfalso.
    apply (H line v0 rest); [left; reflexivity | exact E].
  - intros l v rest Hin. apply H. right. exact Hin.
Qed.

Lemma add_record_sets (d : dict) (line k v : text) (rest : list text) :
  fields line = k :: v :: rest -> add_record d line k = Some v.
Proof.
  intros H. unfold add_record, dict_set. rewrite H, eqt_refl. reflexivity.
Qed.

(** X17.  The dictionary that [parse_dat] builds.  A missing file gives the
    empty dictionary.  A value found under a key is the second non-empty field
    of a line after the header whose first non-empty field is the key; key and
    value are not empty and hold no delimiter.  Of several such lines the last
    one decides. *)
Theorem parse_dat_lookup (t k : text) :
  (forall key, parse_dat None key = None)
  /\ (forall v, parse_dat (Some t) k = Some v ->
        k <> [] /\ v <> [] /\ ~ In thorn k /\ ~ In thorn v
        /\ exists line rest,
             In line (tl (readlines t)) /\ fields line = k :: v :: rest)
  /\ (forall before line after v rest,
        tl (readlines t) = before ++ line :: after ->
        fields line = k :: v :: rest ->
        (forall l v' rest', In l after -> fields l <> k :: v' :: rest') ->
        parse_dat (Some t) k = Some v).
Proof.
  split; [reflexivity | ]. split.
  - intros v H. unfold parse_dat in H.
    apply loop_lookup in H as [H | (line & rest & Hin & Hf)];
      [discriminate H | ].
    pose proof (fields_shape line) as Hs. rewrite Hf in Hs.
    inversion Hs as [|? ? [Hk1 Hk2] Hs']. subst.
    inversion Hs' as [|? ? [Hv1 Hv2] _]. subst.
    repeat (split; [assumption | ]).
    exists line, rest. split; assumption.
  - intros before line after v rest Hl Hf Hafter. unfold parse_dat.
    rewrite Hl, fold_left_app. cbn [fold_left].
    rewrite (loop_untouched after _ k Hafter).
    apply (add_record_sets _ line k v rest Hf).
Qed.

(** The theorem at the manifest of the examples: the header is skipped, an
    empty field is passed over, the last record of a key decides. *)
Lemma parse_dat_lookup_witness :
  parse_dat (Some sample_dat) (U "EFTA0001") = Some (U "EFTA0003")
  /\ parse_dat (Some sample_dat) (U "EFTA0005") = Some (U "EFTA0009")
  /\ parse_dat (Some sample_dat) (U "Begin Bates") = None.
Proof.
  split; [ | split; vm_compute; reflexivity].
  apply (proj2 (proj2 (parse_dat_lookup sample_dat (U "EFTA0001")))
           [U "EFTA0001" ++ [thorn] ++ U "EFTA0004" ++ [lf];
            U "EFTA0005" ++ [thorn; thorn] ++ U "EFTA0009" ++ [160%N; lf]]
           (U "EFTA0001" ++ [thorn] ++ U "EFTA0003" ++ [lf]) []
           (U "EFTA0003") []).
  - vm_compute. reflexivity.
  - vm_compute. reflexivity.
  - intros l v' rest' [].
Defined.

End ManifestProps.

(** ** The shape of the condensed text *)

Module CondenseShape.
Import Py Re Classify Condense Store Pipeline Samples.
Open Scope nat_scope.

(** Two stripped, non-empty strings stay stripped with anything put
    between them. *)
Lemma stripped_app (a m b : str) :
  strip a = a -> strip b = b -> a <> [] -> b <> [] ->
  strip (a ++ m ++ b) = a ++ m ++ b.
Proof.
  intros Ha Hb Na Nb.
  destruct a as [|c a']; [congruence | ].
  assert (Hc : isspace c = false) by exact (SearchProps.strip_head _ _ _ Ha).
  destruct (exists_last Nb) as (b' & e & Eb).
  assert (He : isspace e = false).
  { apply (f_equal (@rev ascii)) in Hb. unfold strip, rstrip in Hb.
    rewrite rev_involutive, Eb, rev_unit in Hb.
    exact (SearchProps.lstrip_head _ _ _ Hb). }
  subst b. unfold strip. cbn [app].
  rewrite (CleanProps.lstrip_fixed _ _ Hc). unfold rstrip.
  replace (c :: a' ++ m ++ b' ++ [e]) with ((c :: a' ++ m ++ b') ++ [e])
    by (cbn [app]; rewrite <- !app_assoc; reflexivity).
  rewrite rev_unit, (CleanProps.lstrip_fixed _ _ He), <- rev_unit.
  apply rev_involutive.
Qed.

Lemma condense_page_stripped (page c : str) :
  condense_page page = Some c -> 15 < length c /\ strip c = c.
Proof.
  unfold condense_page. destruct (is_junk_page page); [discriminate | ].
  cbv zeta.
  destruct (15 <? len (strip (re_sub blank_run sep2 (strip_junk page))))
    eqn:E; [ | discriminate].
  intros H. injection H as <-. split.
  - apply Nat.ltb_lt. exact E.
  - apply CleanProps.strip_strip.
Qed.

Lemma keep_pages_pieces (ps : list str) :
  Forall (fun c => 15 < length c /\ strip c = c) (keep_pages ps).
Proof.
  induction ps as [|p ps IH]; [constructor | ].
  cbn [keep_pages]. destruct (condense_page p) as [c|] eqn:E; [ | exact IH].
  constructor; [exact (condense_page_stripped _ _ E) | exact IH].
Qed.

Lemma join_stripped (l : list str) :
  l <> [] -> Forall (fun c => 15 < length c /\ strip c = c) l ->
  15 < length (join sep2 l) /\ strip (join sep2 l) = join sep2 l.
Proof.
  induction l as [|p l IH]; [congruence | ]. intros _ H.
  inversion H as [|? ? [Hlen Hs] Hl]. subst.
  destruct l as [|q l']; [split; assumption | ].
  assert (Hq : q :: l' <> []) by discriminate.
  destruct (IH Hq Hl) as [IH1 IH2].
  split.
  - pose proof (ReFacts.join_head_length sep2 p (q :: l')). lia.
  - rewrite (ReFacts.join_cons sep2 p _ Hq).
    apply stripped_app; try assumption.
    + intros ->. simpl in Hlen. lia.
    + intros E. rewrite E in IH1. simpl in IH1. lia.
Qed.

Lemma keep_pages_junk (ps : list str) :
  Forall (fun pg => is_junk_page pg = true) ps -> keep_pages ps = [].
Proof.
  induction 1 as [|p ps Hp _ IH]; [reflexivity | ].
  cbn [keep_pages]. unfold condense_page. rewrite Hp. exact IH.
Qed.

(** X18.  What [condense_text] returns is empty or longer than 15 characters,
    and has no white space at either end. *)
Theorem condense_text_shape (full_text : option str) :
  (condense_text full_text = [] \/ 15 < len (condense_text full_text))
  /\ strip (condense_text full_text) = condense_text full_text.
Proof.
  destruct full_text as [[|c t]|]; try (split; [left | ]; reflexivity).
  unfold condense_text.
  pose proof (keep_pages_pieces (split sep2 (c :: t))) as H.
  destruct (keep_pages (split sep2 (c :: t))) as [|p l] eqn:E;
    [split; [left | ]; reflexivity | ].
  assert (Hne : p :: l <> []) by discriminate.
  destruct (join_stripped _ Hne H) as [H1 H2].
  split; [right; exact H1 | exact H2].
Qed.

(** X19.  A text all of whose pages are junk condenses to the empty string,
    and [condense.main] then stores the document as empty with score 0. *)
Theorem junk_pages_leave_nothing (t : str) (prior : string) (page_count : Z) :
  Forall (fun pg => is_junk_page pg = true) (split sep2 t) ->
  condense_text (Some t) = []
  /\ reclassify (Some t) (Some (condense_text (Some t))) prior page_count
     = ("empty"%string, 0%Z).
Proof.
  intros H.
  assert (E : condense_text (Some t) = []).
  { destruct t as [|c t]; [reflexivity | ].
    unfold condense_text. rewrite (keep_pages_junk _ H). reflexivity. }
  split; [exact E | ]. rewrite E. reflexivity.
Qed.

(** The theorem at a document of two pages, a page number and a row of a
    phone bill. *)
Lemma junk_pages_leave_nothing_witness :
  condense_text (Some (T "- 12 -" ++ sep2 ++ T "212-555-0100 00:04:17 $0.35"))
  = []
  /\ reclassify (Some (T "- 12 -" ++ sep2 ++ T "212-555-0100 00:04:17 $0.35"))
       (Some (condense_text
                (Some (T "- 12 -" ++ sep2 ++ T "212-555-0100 00:04:17 $0.35"))))
       "phone_record"%string 2
     = ("empty"%string, 0%Z).
Proof.
  apply (junk_pages_leave_nothing
           (T "- 12 -" ++ sep2 ++ T "212-555-0100 00:04:17 $0.35")
           "phone_record"%string 2).
  vm_compute. repeat constructor.
Defined.

(** X20.  A text that [classify] does not stop at its gates is a junk page for
    [condense_text] only when it has more than 50 characters of which more
    than 40% are digits. *)
Theorem gated_text_junk_only_by_digits (t : str) :
  passes_gates (Some t) = true ->
  is_junk_page t
  = (50 <? len (strip t))
    && (4 * len (strip t) <? 10 * count_if isdigit (strip t)).
Proof.
  unfold passes_gates, stripped_of, or_empty, is_empty, is_garbage.
  unfold is_junk_page.
  cbv zeta. intros H. apply andb_prop in H as [H1 H2].
  apply negb_true_iff in H1, H2. apply Nat.ltb_ge in H1.
  assert (E1 : (len (strip t) <? 15) = false) by (apply Nat.ltb_ge; lia).
  rewrite E1.
  assert (E0 : (0 <? len (strip t)) = true) by (apply Nat.ltb_lt; lia).
  rewrite E0 in *. cbn [andb] in *. apply Nat.ltb_ge in H2.
  assert (E2 : (4 * count_if isalpha (strip t) <? len (strip t)) = false)
    by (apply Nat.ltb_ge; lia).
  rewrite E2. reflexivity.
Qed.

Lemma gated_text_junk_only_by_digits_witness :
  passes_gates (Some fbi_evidence) = true
  /\ is_junk_page fbi_evidence
     = (50 <? len (strip fbi_evidence))
       && (4 * len (strip fbi_evidence)
           <? 10 * count_if isdigit (strip fbi_evidence)).
Proof.
  assert (H : passes_gates (Some fbi_evidence) = true)
    by (vm_compute; reflexivity).
  split; [exact H | exact (gated_text_junk_only_by_digits fbi_evidence H)].
Defined.

End CondenseShape.

(** ** Fetching a document *)

Module FetchProps.
Import Py Store Pipeline Invariants Fetch Samples.
Open Scope nat_scope.

Lemma find_by_id (ds : list Document) (d : Document) :
  NoDup (map doc_id ds) -> In d ds ->
  find (fun d0 => doc_id d0 =? doc_id d) ds = Some d.
Proof.
  induction ds as [|x ds IH]; [contradiction | ].
  cbn [map find]. intros Hnd Hin. inversion Hnd as [|? ? Hx Hds]. subst.
  destruct (doc_id x =? doc_id d) eqn:E.
  - destruct Hin as [-> | Hin]; [reflexivity | ].
    apply Nat.eqb_eq in E. exfalso. apply Hx. rewrite E.
    apply in_map, Hin.
  - destruct Hin as [-> | Hin]; [rewrite Nat.eqb_refl in E; discriminate | ].
    apply IH; assumption.
Qed.

Lemma find_no_id (ds : list Document) (id : nat) :
  ~ In id (map doc_id ds) -> find (fun d0 => doc_id d0 =? id) ds = None.
Proof.
  induction ds as [|x ds IH]; [reflexivity | ].
  cbn [map find]. intros H. destruct (doc_id x =? id) eqn:E.
  - apply Nat.eqb_eq in E. exfalso. apply H. left. exact E.
  - apply IH. intros Hin. apply H. right. exact Hin.
Qed.

Lemma combine_fst_snd (A B : Type) (l : list (A * B)) :
  combine (map fst l) (map snd l) = l.
Proof.
  induction l as [|[a b] l IH]; [reflexivity | ].
  cbn [map combine fst snd]. rewrite IH. reflexivity.
Qed.

(** In a well-formed store a stored document is found by its id, with its
    pages numbered from 1 to the page count. *)
Lemma fetch_stored (db : Db) (d : Document) :
  well_formed db -> In d (documents db) ->
  document db (doc_id d)
  = Some (d, combine (seq 1 (page_count d)) (page_texts db (doc_id d))).
Proof.
  intros H Hin. unfold document.
  rewrite (find_by_id _ _ (wf_doc_ids H) Hin). f_equal. f_equal.
  pose proof (wf_numbered H) as Hn. rewrite Forall_forall in Hn.
  specialize (Hn d Hin). unfold pages_of in Hn. unfold page_texts.
  set (l := filter (fun p => page_doc p =? doc_id d) (pages db)) in *.
  rewrite (IngestProps.order_by_sorted _ _ l).
  - rewrite <- Hn. rewrite <- (combine_fst_snd _ _ (map _ l)) at 1.
    rewrite !map_map. reflexivity.
  - apply (IngestProps.numbered_sorted l 1). rewrite Hn. f_equal.
    rewrite <- (length_map page_num l), Hn. symmetry. apply length_seq.
Qed.

(** X21.  [document] on a well-formed store: a stored document is returned
    with its own row and its pages numbered from 1 to its page count, in that
    order; an id that no document has gives the answer 404. *)
Theorem document_lookup (db : Db) (H : well_formed db) :
  (forall d, In d (documents db) ->
     document db (doc_id d)
     = Some (d, combine (seq 1 (page_count d)) (page_texts db (doc_id d)))
     /\ length (page_texts db (doc_id d)) = page_count d)
  /\ (forall id, ~ In id (map doc_id (documents db)) -> document db id = None).
Proof.
  split.
  - intros d Hin. split; [exact (fetch_stored _ _ H Hin) | ].
    pose proof (wf_numbered H) as Hn. rewrite Forall_forall in Hn.
    specialize (Hn d Hin). unfold page_texts, pages_of in *.
    rewrite length_map.
    apply (f_equal (@length nat)) in Hn.
    rewrite length_map, length_seq in Hn.
    rewrite <- Hn. clear Hn.
    generalize (filter (fun p => page_doc p =? doc_id d) (pages db)).
    intros l. unfold order_by. induction l as [|x l IH]; [reflexivity | ].
    cbn [fold_right length]. rewrite <- IH.
    generalize (fold_right
                  (insert_by (fun p q => page_num p <=? page_num q)) [] l).
    intros m. induction m as [|y m IHm]; [reflexivity | ].
    cbn [insert_by]. destruct (page_num x <=? page_num y); cbn [length];
      [reflexivity | rewrite IHm; reflexivity].
  - intros id Hid. unfold document. rewrite (find_no_id _ _ Hid). reflexivity.
Qed.

Lemma document_lookup_witness :
  well_formed ingested
  /\ document ingested 1
     = Some (nth 0 (documents ingested) (mkDocument 0 [] [] 0 [] [] [] [] "" 0),
             combine (seq 1 (length report_pages)) report_pages)
  /\ document ingested 2 = None.
Proof.
  assert (H : well_formed ingested)
    by exact (StoreProps.ingest_well_formed open_report no_manifest batch
                empty_db StoreProps.empty_db_well_formed).
  split; [exact H | ]. split.
  - refine (eq_trans
              (proj1 (proj1 (document_lookup ingested H)
                        (nth 0 (documents ingested)
                           (mkDocument 0 [] [] 0 [] [] [] [] "" 0))
                        _)) _);
      vm_compute; [left | ]; reflexivity.
  - apply (proj2 (document_lookup ingested H)). vm_compute. intros [E | []].
    discriminate E.
Defined.

Section Ingest.
Variable fitz_open : str -> reading.
Variable bates_map : str -> option str.


End Ingest.


End FetchProps.

(** ** The counts of the store *)

Module StatsProps.
Import Py Store Pipeline Invariants Fetch Samples.
Open Scope nat_scope.

Lemma list_sum_add (A : Type) (f g : A -> nat) (l : list A) :
  list_sum (map (fun a => f a + g a) l)
  = list_sum (map f l) + list_sum (map g l).
Proof.
  induction l as [|a l IH]; [reflexivity | ].
  cbn [map list_sum fold_right] in *. unfold list_sum in *. lia.
Qed.

Lemma list_sum_indicator (A : Type) (f : A -> bool) (l : list A) :
  list_sum (map (fun a => if f a then 1 else 0) l) = length (filter f l).
Proof.
  induction l as [|a l IH]; [reflexivity | ].
  cbn [map filter]. unfold list_sum in *. cbn [fold_right].
  rewrite IH. destruct (f a); reflexivity.
Qed.

(** Pages that all belong to documents with unique ids are as many as the
    documents own together. *)
Lemma pages_counted_by_owner (ds : list Document) (ps : list Page) :
  NoDup (map doc_id ds) ->
  Forall (fun p => In (page_doc p) (map doc_id ds)) ps ->
  length ps
  = list_sum
      (map (fun d => length (filter (fun p => page_doc p =? doc_id d) ps)) ds).
Proof.
  intros Hnd. induction 1 as [|p ps Hp _ IH].
  - cbn [filter length]. induction ds as [|d ds IHd]; [reflexivity | ].
    inversion Hnd. subst. cbn [map]. unfold list_sum in *. cbn [fold_right].
    rewrite <- IHd by assumption. reflexivity.
  - cbn [length]. rewrite IH.
    rewrite (map_ext
               (fun d => length (filter (fun q => page_doc q =? doc_id d)
                                   (p :: ps)))
               (fun d => (if doc_id d =? page_doc p then 1 else 0)
                         + length (filter (fun q => page_doc q =? doc_id d)
                                     ps))).
    + rewrite list_sum_add, list_sum_indicator.
      destruct (IndexProps.owner_unique ds (page_doc p) Hnd Hp)
        as (d & _ & _ & Hone).
      rewrite Hone. reflexivity.
    + intros d. cbn [filter]. rewrite (Nat.eqb_sym (page_doc p) (doc_id d)).
      destruct (doc_id d =? page_doc p); reflexivity.
Qed.

(** X23.  On a well-formed store the number of pages that [stats] reports is
    the sum of the page counts of the documents. *)
Theorem stats_pages_are_page_counts (db : Db) (H : well_formed db) :
  snd (stats db) = list_sum (map page_count (documents db)).
Proof.
  unfold stats. cbn [snd].
  rewrite (pages_counted_by_owner (documents db) (pages db)
             (wf_doc_ids H) (wf_owned H)).
  f_equal. apply map_ext_in. intros d Hd.
  pose proof (wf_numbered H) as Hn. rewrite Forall_forall in Hn.
  specialize (Hn d Hd). unfold pages_of in Hn.
  apply (f_equal (@length nat)) in Hn.
  rewrite length_map, length_seq in Hn. exact Hn.
Qed.

Lemma stats_pages_are_page_counts_witness :
  well_formed ingested
  /\ snd (stats ingested) = list_sum (map page_count (documents ingested)).
Proof.
  assert (H : well_formed ingested)
    by exact (StoreProps.ingest_well_formed open_report no_manifest batch
                empty_db StoreProps.empty_db_well_formed).
  split; [exact H | exact (stats_pages_are_page_counts ingested H)].
Defined.

End StatsProps.
